(** * GitHub project manager (github-manager/main.cpp): a shallow embedding

    The C++ client uploads files and directory trees to a repository hosting
    service through its REST interface.  This development embeds the functions
    of [main.cpp] as Rocq definitions and states the properties of the
    synchronisation core over them.

    Conventions.
    - [std::string] values that hold text are [string]; file contents are
      [list byte].
    - The libraries the program links against (libcurl, jsoncpp, OpenSSL,
      std::filesystem) are represented by what their calls compute: the
      network and the file system are oracles of the record [Env], the JSON
      reader and writer are fields of [Json.Library], and the base64 filter
      of OpenSSL is written out.
    - The exceptions of jsoncpp depend on what the remote sends, and those of
      std::filesystem on what the disk holds: both are part of the model.
      The allocation of memory is taken to succeed.
    - OpenSSL's memory sink refuses to grow beyond a fixed limit and
      [base64_encode] does not look at the result of the write: the sink
      and the rounds of the filter are written out.
    - Functions with effects live in a small state-and-abort monad whose state
      is the event history of the process together with its two output
      streams. *)

From Stdlib Require Import List String Ascii ZArith Lia Bool QArith.
From Stdlib.Strings Require Import Byte.
From Stdlib Require DecimalString.
Import ListNotations.

Local Open Scope list_scope.
Local Open Scope string_scope.
Local Open Scope Z_scope.

(** ** The base64 filter *)

Module Base64.

(** [data_bin2ascii] of OpenSSL's encoder: the standard alphabet. *)
Definition data_bin2ascii : string :=
  "ABCDEFGHIJKLMNOPQRSTUVWXYZabcdefghijklmnopqrstuvwxyz0123456789+/".

Definition pad : ascii := "="%char.

(** [conv_bin2ascii(a, table)] is [table[a & 0x3f]]. *)
Definition conv_bin2ascii (a : Z) : ascii :=
  match String.get (Z.to_nat (Z.land a 63)) data_bin2ascii with
  | Some c => c
  | None => pad
  end.

Definition byte_to_Z (b : byte) : Z := Z.of_N (Byte.to_N b).

Definition byte_of_Z (z : Z) : byte :=
  match Byte.of_N (Z.to_N z) with
  | Some b => b
  | None => x00
  end.

(** The 24-bit group of three bytes, [f0 << 16 | f1 << 8 | f2]. *)
Definition group24 (a b c : Z) : Z :=
  Z.lor (Z.lor (Z.shiftl a 16) (Z.shiftl b 8)) c.

Definition newline : ascii := ascii_of_nat 10.

(** [EVP_EncodeBlock]: three input bytes give four characters; a tail of one
    or two bytes is padded with [=].  No line break is ever inserted. *)
Fixpoint EVP_EncodeBlock (f : list byte) : string :=
  match f with
  | [] => EmptyString
  | [f0] =>
      let l := Z.shiftl (byte_to_Z f0) 16 in
      String (conv_bin2ascii (Z.shiftr l 18))
        (String (conv_bin2ascii (Z.shiftr l 12))
           (String pad (String pad EmptyString)))
  | [f0; f1] =>
      let l := Z.lor (Z.shiftl (byte_to_Z f0) 16) (Z.shiftl (byte_to_Z f1) 8) in
      String (conv_bin2ascii (Z.shiftr l 18))
        (String (conv_bin2ascii (Z.shiftr l 12))
           (String (conv_bin2ascii (Z.shiftr l 6)) (String pad EmptyString)))
  | f0 :: f1 :: f2 :: rest =>
      let l := group24 (byte_to_Z f0) (byte_to_Z f1) (byte_to_Z f2) in
      String (conv_bin2ascii (Z.shiftr l 18))
        (String (conv_bin2ascii (Z.shiftr l 12))
           (String (conv_bin2ascii (Z.shiftr l 6))
              (String (conv_bin2ascii l) (EVP_EncodeBlock rest))))
  end.

(** The conversion of a [size_t] to the [int] that [BIO_write] takes as its
    length: reduction modulo 2^32 into the signed range. *)
Definition to_int (n : Z) : Z := (n + 2 ^ 31) mod 2 ^ 32 - 2 ^ 31.

(** The memory sink at the end of the chain: the bytes it holds and the
    capacity of its buffer ([BUF_MEM]'s [data] with its [length], and
    [max]). *)
Record BUF_MEM : Type := {
  buf_data : string;
  buf_max : Z
}.

(** [LIMIT_BEFORE_EXPANSION], [0x5ffffffc]: the longest length to which
    OpenSSL lets a buffer grow by reallocation. *)
Definition LIMIT_BEFORE_EXPANSION : Z := 1610612732.

(** [BUF_MEM_grow_clean(str, len)]: the capacity after the call, or [None]
    when the call fails.  A length within the capacity needs no
    reallocation; a longer one is refused beyond the limit and otherwise
    reallocates to [(len + 3) / 3 * 4]. *)
Definition BUF_MEM_grow_clean (str : BUF_MEM) (len : Z) : option Z :=
  if len <=? Z.of_nat (String.length (buf_data str)) then Some (buf_max str)
  else if len <=? buf_max str then Some (buf_max str)
  else if LIMIT_BEFORE_EXPANSION <? len then None
  else Some ((len + 3) / 3 * 4).

(** [mem_write]: the sink takes the whole chunk or, when its buffer cannot
    grow, nothing of it. *)
Definition mem_write (str : BUF_MEM) (chunk : string) : option BUF_MEM :=
  match BUF_MEM_grow_clean str
          (Z.of_nat (String.length (buf_data str))
           + Z.of_nat (String.length chunk)) with
  | Some capacity =>
      Some {| buf_data := buf_data str ++ chunk; buf_max := capacity |}
  | None => None
  end.

(** What the base64 filter holds between calls: an encoded block the sink
    has not taken, and up to two input bytes kept for the final quantum. *)
Record BIO_B64_CTX : Type := {
  ctx_buf : string;
  ctx_tmp : list byte
}.

Definition B64_BLOCK_SIZE : nat := 1024.

(** The loop of [b64_write] on a fresh filter with
    [BIO_FLAGS_BASE64_NO_NL]: each round takes at most [B64_BLOCK_SIZE]
    bytes, a multiple of three of them, encodes them with [EVP_EncodeBlock]
    and writes the block to the sink; fewer than three bytes are kept for the
    flush.  When the sink refuses a block the call returns at once, the block
    left in the filter and the rest of the input unread.  Every round takes
    at least three bytes: [fuel] bounds the number of rounds, and the length
    of the input is enough. *)
Fixpoint b64_write (fuel : nat) (input : list byte) (sink : BUF_MEM)
  : BIO_B64_CTX * BUF_MEM :=
  match fuel with
  | O => ({| ctx_buf := EmptyString; ctx_tmp := [] |}, sink)
  | S fuel' =>
      match input with
      | [] => ({| ctx_buf := EmptyString; ctx_tmp := [] |}, sink)
      | _ :: _ =>
          let n := Nat.min (List.length input) B64_BLOCK_SIZE in
          if (n <? 3)%nat then
            ({| ctx_buf := EmptyString; ctx_tmp := input |}, sink)
          else
            let n := (n - n mod 3)%nat in
            let block := EVP_EncodeBlock (firstn n input) in
            match mem_write sink block with
            | Some sink' => b64_write fuel' (skipn n input) sink'
            | None => ({| ctx_buf := block; ctx_tmp := [] |}, sink)
            end
      end
  end.

(** [BIO_write(bio, data, dlen)] on the chain of a fresh filter and a sink:
    with a length that is not positive the call returns at once; otherwise
    the filter is given the first [dlen] bytes.  The result of the call is
    not looked at by [base64_encode], so only the state it leaves is kept. *)
Definition BIO_write (sink : BUF_MEM) (data : list byte) (dlen : Z)
  : BIO_B64_CTX * BUF_MEM :=
  if dlen <=? 0 then ({| ctx_buf := EmptyString; ctx_tmp := [] |}, sink)
  else b64_write (Z.to_nat dlen) (firstn (Z.to_nat dlen) data) sink.

(** [BIO_flush] on the chain: a block left in the filter is offered to the
    sink again, and the flush ends there if it is refused again; then the
    bytes kept, if any, are encoded as the final quantum and written. *)
Definition BIO_flush (ctx : BIO_B64_CTX) (sink : BUF_MEM) : BUF_MEM :=
  let pending :=
    match ctx_buf ctx with
    | EmptyString => Some sink
    | block => mem_write sink block
    end in
  match pending with
  | None => sink
  | Some sink' =>
      match ctx_tmp ctx with
      | [] => sink'
      | tmp =>
          match mem_write sink' (EVP_EncodeBlock tmp) with
          | Some sink'' => sink''
          | None => sink'
          end
      end
  end.

(** [base64_encode] (main.cpp, lines 14-31): [input.length()], converted to
    [int], bytes of the input are written through a base64 filter with
    [BIO_FLAGS_BASE64_NO_NL] into a memory sink that starts empty; after the
    flush, the bytes the sink holds are returned. *)
Definition base64_encode (input : list byte) : string :=
  let dlen := to_int (Z.of_nat (List.length input)) in
  let (ctx, sink) :=
    BIO_write {| buf_data := EmptyString; buf_max := 0 |} input dlen in
  buf_data (BIO_flush ctx sink).

(** The position of the first occurrence of a character. *)
Fixpoint index_of (c : ascii) (s : string) : option nat :=
  match s with
  | EmptyString => None
  | String d rest =>
      if Ascii.eqb c d then Some O
      else match index_of c rest with
           | Some i => Some (S i)
           | None => None
           end
  end.

Definition conv_ascii2bin (c : ascii) : option Z :=
  match index_of c data_bin2ascii with
  | Some i => Some (Z.of_nat i)
  | None => None
  end.

(** Modelled from the spec: one quantum of the decoder, which the program
    does not have.  Four characters give three bytes, or two or one when the
    quantum ends in one or two padding characters; a character outside the
    alphabet is [MalformedEncoding] (here [None]). *)
Definition decode_quantum (c0 c1 c2 c3 : ascii) : option (list byte) :=
  match conv_ascii2bin c0, conv_ascii2bin c1 with
  | Some s0, Some s1 =>
      if Ascii.eqb c3 pad then
        if Ascii.eqb c2 pad then
          let l := Z.lor (Z.shiftl s0 18) (Z.shiftl s1 12) in
          Some [byte_of_Z (Z.land (Z.shiftr l 16) 255)]
        else
          match conv_ascii2bin c2 with
          | Some s2 =>
              let l := Z.lor (Z.lor (Z.shiftl s0 18) (Z.shiftl s1 12))
                             (Z.shiftl s2 6) in
              Some [byte_of_Z (Z.land (Z.shiftr l 16) 255);
                    byte_of_Z (Z.land (Z.shiftr l 8) 255)]
          | None => None
          end
      else
        match conv_ascii2bin c2, conv_ascii2bin c3 with
        | Some s2, Some s3 =>
            let l := Z.lor (Z.lor (Z.lor (Z.shiftl s0 18) (Z.shiftl s1 12))
                                  (Z.shiftl s2 6)) s3 in
            Some [byte_of_Z (Z.land (Z.shiftr l 16) 255);
                  byte_of_Z (Z.land (Z.shiftr l 8) 255);
                  byte_of_Z (Z.land l 255)]
        | _, _ => None
        end
  | _, _ => None
  end.

(** Modelled from the spec: [decode] of section 4.1, which the program does
    not have (it only encodes).  The inverse of the standard base64 encoding,
    failing with [MalformedEncoding] (here [None]) on a character outside the
    alphabet, on a length that is not a multiple of four and on padding
    before the last quantum. *)
Fixpoint base64_decode (s : string) : option (list byte) :=
  match s with
  | EmptyString => Some []
  | String c0 (String c1 (String c2 (String c3 rest))) =>
      match rest with
      | EmptyString => decode_quantum c0 c1 c2 c3
      | _ =>
          if Ascii.eqb c3 pad then None
          else
            match decode_quantum c0 c1 c2 c3, base64_decode rest with
            | Some x, Some y => Some (x ++ y)%list
            | _, _ => None
            end
      end
  | _ => None
  end.

End Base64.

(** ** Abnormal termination

    Nothing in the program catches an exception, so a [Json::LogicError]
    raised by an accessor, a [Json::RuntimeError] raised by the reader or a
    [std::filesystem::filesystem_error] raised by a call of the file-system
    library ends the process, as does a call of [exit]. *)

Inductive abort : Type :=
| LogicError (what : string)
| RuntimeError (what : string)
| filesystem_error (what : string)
| Exit (status : Z).

Inductive outcome (A : Type) : Type :=
| Returns (a : A)
| Aborts (e : abort).

Arguments Returns {A} a.
Arguments Aborts {A} e.

(** ** JSON values and the accessors the program calls *)

Module Json.

#[local] Unset Elimination Schemes.

Inductive Value : Type :=
| nullValue
| intValue (n : Z)
| uintValue (n : Z)
| realValue (d : Q)
| stringValue (s : string)
| booleanValue (b : bool)
| arrayValue (items : list Value)
| objectValue (members : list (string * Value)).

#[local] Set Elimination Schemes.

(** The reader, the writer and the printing of a double are the library's
    business.  [parseFromStream] gives the root when the call returns [true]
    and [None] when it returns [false]; on input nested deeper than its stack
    limit the reader raises ("Exceeded stackLimit in readValue()."). *)
Record Library : Type := {
  parseFromStream : string -> outcome (option Value);
  writeString : Value -> string;
  valueToString_real : Q -> string
}.

Fixpoint lookup (key : string) (members : list (string * Value)) : option Value :=
  match members with
  | [] => None
  | (k, v) :: rest => if String.eqb key k then Some v else lookup key rest
  end.

Fixpoint assign (key : string) (v : Value) (members : list (string * Value))
  : list (string * Value) :=
  match members with
  | [] => [(key, v)]
  | (k, w) :: rest =>
      if String.eqb key k then (k, v) :: rest else (k, w) :: assign key v rest
  end.

(** [Value::find]: defined on an object and on null only.  On any other
    value the library's assertion fails, which raises [Json::LogicError] with
    the message below. *)
Definition find (v : Value) (key : string) : outcome (option Value) :=
  match v with
  | nullValue => Returns None
  | objectValue members => Returns (lookup key members)
  | _ => Aborts (LogicError
           "in Json::Value::find(begin, end): requires objectValue or nullValue")
  end.

(** [Value::isMember(key)]: whether [find] gives a member. *)
Definition isMember (v : Value) (key : string) : outcome bool :=
  match find v key with
  | Returns (Some _) => Returns true
  | Returns None => Returns false
  | Aborts e => Aborts e
  end.

(** [v[key]] on a value that is read afterwards: the member, or null when
    there is none (the null member the call inserts is never observed). *)
Definition subscript (v : Value) (key : string) : outcome Value :=
  match v with
  | nullValue => Returns nullValue
  | objectValue members =>
      match lookup key members with
      | Some w => Returns w
      | None => Returns nullValue
      end
  | _ => Aborts (LogicError
           "in Json::Value::resolveReference(key, end): requires objectValue")
  end.

(** [root[key] = v] while a request body is built. *)
Definition set_member (root : Value) (key : string) (v : Value) : Value :=
  match root with
  | objectValue members => objectValue (assign key v members)
  | _ => objectValue [(key, v)]
  end.

Definition valueToString (n : Z) : string :=
  DecimalString.NilZero.string_of_int (Z.to_int n).

Definition minInt : Z := - 2 ^ 31.
Definition maxInt : Z := 2 ^ 31 - 1.

Definition asString (lib : Library) (v : Value) : outcome string :=
  match v with
  | nullValue => Returns EmptyString
  | stringValue s => Returns s
  | booleanValue b => Returns (if b then "true" else "false")
  | intValue n => Returns (valueToString n)
  | uintValue n => Returns (valueToString n)
  | realValue d => Returns (valueToString_real lib d)
  | _ => Aborts (LogicError "Type is not convertible to string")
  end.

Definition asInt (v : Value) : outcome Z :=
  match v with
  | intValue n =>
      if (minInt <=? n) && (n <=? maxInt) then Returns n
      else Aborts (LogicError "LargestInt out of Int range")
  | uintValue n =>
      if n <=? maxInt then Returns n
      else Aborts (LogicError "LargestUInt out of Int range")
  | realValue d =>
      if Qle_bool (inject_Z minInt) d && Qle_bool d (inject_Z maxInt)
      then Returns (Z.quot (Qnum d) (Z.pos (Qden d)))
      else Aborts (LogicError "double out of Int range")
  | nullValue => Returns 0
  | booleanValue b => Returns (if b then 1 else 0)
  | _ => Aborts (LogicError "Value is not convertible to Int.")
  end.

(** [v[key].asString()] and [v[key].asInt()]. *)
Definition member_asString (lib : Library) (v : Value) (key : string)
  : outcome string :=
  match subscript v key with
  | Returns w => asString lib w
  | Aborts e => Aborts e
  end.

Definition member_asInt (v : Value) (key : string) : outcome Z :=
  match subscript v key with
  | Returns w => asInt w
  | Aborts e => Aborts e
  end.

End Json.

(** ** The process and its environment *)

(** The options set on a curl easy handle before the transfer. *)
Record curl_easy : Type := {
  CURLOPT_URL : string;
  CURLOPT_HTTPHEADER : list string;
  CURLOPT_CUSTOMREQUEST : option string;
  CURLOPT_POSTFIELDS : option string
}.

(** The request line libcurl derives from the options: a custom request
    replaces the method name; without one, post fields make the transfer a
    POST and their absence a GET. *)
Definition http_method (h : curl_easy) : string :=
  match CURLOPT_CUSTOMREQUEST h with
  | Some m => m
  | None =>
      match CURLOPT_POSTFIELDS h with
      | Some _ => "POST"
      | None => "GET"
      end
  end.

(** The body of the request is the post fields, when set. *)
Definition http_body (h : curl_easy) : option string := CURLOPT_POSTFIELDS h.

(** What the process does to the world: the construction of an input stream
    on a path and whether it is open, a call of [curl_easy_init] that gives no
    handle, and a transfer with its result code and the bytes the write
    callback received. *)
Inductive event : Type :=
| opened (path : string) (is_open : bool)
| init_failed
| performed (handle : curl_easy) (res : Z) (response : string).

(** An entry of a directory walk: its path and what [is_regular_file()]
    does for it.  The status is that of the target of a symbolic link; when
    it cannot be determined (a cycle of links, a component that may not be
    searched) the call throws. *)
Record directory_entry : Type := {
  entry_path : string;
  is_regular_file : outcome bool
}.

(** An iteration with [fs::recursive_directory_iterator]: it reaches the
    end, or the constructor or an increment throws (the root does not exist
    or is not a directory, a subdirectory cannot be read), or it yields an
    entry and goes on. *)
Inductive walk : Type :=
| walk_end
| walk_throws (what : string)
| walk_entry (entry : directory_entry) (rest : walk).

(** What the operating system, the file system and the remote answer.
    - [ifstream_read path] is [None] when the stream on [path] is not open,
      and otherwise the bytes read from it (none at all when the path opens
      but cannot be read, as a directory does on Linux).
    - [path_filename p] is [fs::path(p).filename().string()].
    - [recursive_directory_iterator dir] is the iteration over [dir]: the
      entries it yields, in its order, and how it ends.
    - [fs_relative p base] is [fs::relative(p, base).string()], the relative
      path in the native format of the platform, unless the call throws.
    - [curl_easy_init] says whether a handle is obtained; [curl_easy_perform]
      gives the result code of the transfer ([0] is [CURLE_OK]) and the
      response received.  Both may depend on everything done so far. *)
Record Env : Type := {
  ifstream_read : string -> option (list byte);
  path_filename : string -> string;
  recursive_directory_iterator : string -> walk;
  fs_relative : string -> string -> outcome string;
  curl_easy_init : list event -> bool;
  curl_easy_perform : list event -> curl_easy -> Z * string;
  curl_easy_strerror : Z -> string
}.

(** The state of the process: the events so far and the lines written to
    the two output streams. *)
Record State : Type := {
  history : list event;
  cout : list string;
  cerr : list string
}.

(** Computations: a state transformer that returns a value or aborts. *)
Definition M (A : Type) : Type := State -> outcome A * State.

Definition ret {A : Type} (a : A) : M A := fun st => (Returns a, st).

Definition bind {A B : Type} (m : M A) (k : A -> M B) : M B :=
  fun st =>
    match m st with
    | (Returns a, st') => k a st'
    | (Aborts e, st') => (Aborts e, st')
    end.

Definition lift {A : Type} (o : outcome A) : M A := fun st => (o, st).

Definition exit {A : Type} (status : Z) : M A :=
  fun st => (Aborts (Exit status), st).

Definition record (ev : event) : M unit :=
  fun st =>
    (Returns tt,
     {| history := (history st ++ [ev])%list;
        cout := cout st;
        cerr := cerr st |}).

Definition print_cout (line : string) : M unit :=
  fun st =>
    (Returns tt,
     {| history := history st;
        cout := (cout st ++ [line])%list;
        cerr := cerr st |}).

Definition print_cerr (line : string) : M unit :=
  fun st =>
    (Returns tt,
     {| history := history st;
        cout := cout st;
        cerr := (cerr st ++ [line])%list |}).

Definition past : M (list event) := fun st => (Returns (history st), st).

Notation "x <- m ;; k" := (bind m (fun x => k))
  (at level 61, m at next level, right associativity).
Notation "m ;; k" := (bind m (fun _ => k))
  (at level 61, right associativity).

Definition nl : string := String Base64.newline EmptyString.

(** The transfers among the events, in order. *)
Fixpoint transfers (evs : list event) : list curl_easy :=
  match evs with
  | [] => []
  | performed h _ _ :: rest => h :: transfers rest
  | _ :: rest => transfers rest
  end.

(** ** class GitHubAPI *)

Record GitHubAPI : Type := {
  token : string;
  username : string;
  baseURL : string
}.

(** The constructor: [baseURL] has its default member initialiser. *)
Definition GitHubAPI_new (_token _username : string) : GitHubAPI :=
  {| token := _token; username := _username;
     baseURL := "https://api.github.com" |}.

Section Methods.

Variable lib : Json.Library.
Variable env : Env.
Variable this : GitHubAPI.

Definition request_headers : list string :=
  [ "Authorization: token " ++ token this;
    "User-Agent: CPP-GitHub-Client";
    "Accept: application/vnd.github.v3+json";
    "Content-Type: application/json" ].

(** The handle after the [curl_easy_setopt] calls of [makeRequest]
    (lines 450-462).  The branch for DELETE sets the custom request only. *)
Definition easy_handle (url method data : string) : curl_easy :=
  if String.eqb method "POST" then
    {| CURLOPT_URL := url; CURLOPT_HTTPHEADER := request_headers;
       CURLOPT_CUSTOMREQUEST := None; CURLOPT_POSTFIELDS := Some data |}
  else if String.eqb method "PUT" then
    {| CURLOPT_URL := url; CURLOPT_HTTPHEADER := request_headers;
       CURLOPT_CUSTOMREQUEST := Some "PUT"; CURLOPT_POSTFIELDS := Some data |}
  else if String.eqb method "DELETE" then
    {| CURLOPT_URL := url; CURLOPT_HTTPHEADER := request_headers;
       CURLOPT_CUSTOMREQUEST := Some "DELETE"; CURLOPT_POSTFIELDS := None |}
  else
    {| CURLOPT_URL := url; CURLOPT_HTTPHEADER := request_headers;
       CURLOPT_CUSTOMREQUEST := None; CURLOPT_POSTFIELDS := None |}.

(** [makeRequest] (lines 46-48 and 441-475).  The response is what the write
    callback received, whatever the result code; without a handle it stays
    empty. *)
Definition makeRequest (url method data : string) : M string :=
  evs <- past ;;
  if curl_easy_init env evs then
    let h := easy_handle url method data in
    let (res, response) := curl_easy_perform env evs h in
    record (performed h res response) ;;
    (if res =? 0 then ret tt
     else print_cerr ("cURL error: " ++ curl_easy_strerror env res)) ;;
    ret response
  else
    record init_failed ;;
    ret EmptyString.

Definition contents_url (repoName path : string) : string :=
  baseURL this ++ "/repos/" ++ username this ++ "/" ++ repoName
    ++ "/contents/" ++ path.

(** The payload of an upload: [root["message"]] and [root["content"]]. *)
Definition upload_payload (commitMessage encodedContent : string) : Json.Value :=
  Json.set_member
    (Json.set_member Json.nullValue "message" (Json.stringValue commitMessage))
    "content" (Json.stringValue encodedContent).

(** The payload built by [deleteFile]: [root["message"]] and [root["sha"]]. *)
Definition delete_payload (commitMessage sha : string) : Json.Value :=
  Json.set_member
    (Json.set_member Json.nullValue "message" (Json.stringValue commitMessage))
    "sha" (Json.stringValue sha).

(** [uploadFile] (lines 518-528 and 49-88). *)
Definition uploadFile (repoName filePath commitMessage : string) : M bool :=
  match ifstream_read env filePath with
  | None =>
      record (opened filePath false) ;;
      print_cerr ("Cannot open file: " ++ filePath) ;;
      ret false
  | Some content =>
      record (opened filePath true) ;;
      let encodedContent := Base64.base64_encode content in
      let fileName := path_filename env filePath in
      let jsonData :=
        Json.writeString lib (upload_payload commitMessage encodedContent) in
      let url := contents_url repoName fileName in
      response <- makeRequest url "PUT" jsonData ;;
      parsed <- lift (Json.parseFromStream lib response) ;;
      match parsed with
      | Some responseJson =>
          member <- lift (Json.isMember responseJson "content") ;;
          if member : bool then
            print_cout ("File uploaded successfully: " ++ fileName) ;;
            ret true
          else
            print_cerr ("Failed to upload file: " ++ response) ;;
            ret false
      | None =>
          print_cerr ("Failed to upload file: " ++ response) ;;
          ret false
      end
  end.

(** [uploadFileWithPath] (lines 116-158). *)
Definition uploadFileWithPath
  (repoName localPath remotePath commitMessage : string) : M bool :=
  match ifstream_read env localPath with
  | None =>
      record (opened localPath false) ;;
      print_cerr ("Cannot open file: " ++ localPath) ;;
      ret false
  | Some content =>
      record (opened localPath true) ;;
      let encodedContent := Base64.base64_encode content in
      let jsonData :=
        Json.writeString lib (upload_payload commitMessage encodedContent) in
      let url := contents_url repoName remotePath in
      response <- makeRequest url "PUT" jsonData ;;
      parsed <- lift (Json.parseFromStream lib response) ;;
      match parsed with
      | Some responseJson =>
          member <- lift (Json.isMember responseJson "content") ;;
          ret member
      | None => ret false
      end
  end.

(** The loop of [uploadDirectory] (lines 95-107) over the iteration, with
    the two counters (each is an [int] that grows by at most one per
    entry). *)
Fixpoint uploadDirectory_loop
  (repoName dirPath commitMessage : string) (entries : walk)
  (successCount failCount : Z) : M (Z * Z) :=
  match entries with
  | walk_end => ret (successCount, failCount)
  | walk_throws what => lift (Aborts (filesystem_error what))
  | walk_entry entry rest =>
      regular <- lift (is_regular_file entry) ;;
      if regular : bool then
        relativePath <- lift (fs_relative env (entry_path entry) dirPath) ;;
        print_cout ("Uploading: " ++ relativePath ++ "...") ;;
        ok <- uploadFileWithPath repoName (entry_path entry) relativePath
                commitMessage ;;
        if ok : bool then
          uploadDirectory_loop repoName dirPath commitMessage rest
            (successCount + 1) failCount
        else
          uploadDirectory_loop repoName dirPath commitMessage rest
            successCount (failCount + 1)
      else
        uploadDirectory_loop repoName dirPath commitMessage rest
          successCount failCount
  end.

(** [uploadDirectory] (lines 90-114). *)
Definition uploadDirectory (repoName dirPath commitMessage : string) : M bool :=
  counts <- uploadDirectory_loop repoName dirPath commitMessage
              (recursive_directory_iterator env dirPath) 0 0 ;;
  print_cout (nl ++ "Upload complete!") ;;
  print_cout ("Success: " ++ Json.valueToString (fst counts) ++ " files") ;;
  print_cout ("Failed: " ++ Json.valueToString (snd counts) ++ " files") ;;
  ret (snd counts =? 0).

(** [deleteFile] (lines 160-191). *)
Definition deleteFile (repoName filePath commitMessage : string) : M bool :=
  let url := contents_url repoName filePath in
  response <- makeRequest url "GET" EmptyString ;;
  parsed <- lift (Json.parseFromStream lib response) ;;
  match parsed with
  | None =>
      print_cerr "Failed to get file info" ;;
      ret false
  | Some responseJson =>
      sha <- lift (Json.member_asString lib responseJson "sha") ;;
      let jsonData := Json.writeString lib (delete_payload commitMessage sha) in
      response' <- makeRequest url "DELETE" jsonData ;;
      print_cout ("File deleted successfully: " ++ filePath) ;;
      ret true
  end.

(** [getUserInfo] (lines 216-237). *)
Definition getUserInfo : M bool :=
  let url := baseURL this ++ "/user" in
  response <- makeRequest url "GET" EmptyString ;;
  parsed <- lift (Json.parseFromStream lib response) ;;
  match parsed with
  | Some responseJson =>
      print_cout (nl ++ "User Information:") ;;
      login <- lift (Json.member_asString lib responseJson "login") ;;
      print_cout ("Username: " ++ login) ;;
      name <- lift (Json.member_asString lib responseJson "name") ;;
      print_cout ("Name: " ++ name) ;;
      email <- lift (Json.member_asString lib responseJson "email") ;;
      print_cout ("Email: " ++ email) ;;
      public_repos <- lift (Json.member_asInt responseJson "public_repos") ;;
      print_cout ("Public Repos: " ++ Json.valueToString public_repos) ;;
      followers <- lift (Json.member_asInt responseJson "followers") ;;
      print_cout ("Followers: " ++ Json.valueToString followers) ;;
      following <- lift (Json.member_asInt responseJson "following") ;;
      print_cout ("Following: " ++ Json.valueToString following) ;;
      ret true
  | None => ret false
  end.

End Methods.

(** ** class ProjectManager *)

(** [initialize] (lines 286-320) from the construction of the client on: the
    token and the user name are those resolved by the prompts before it. *)
Definition initialize (lib : Json.Library) (env : Env) (_token _username : string)
  : M GitHubAPI :=
  let api := GitHubAPI_new _token _username in
  ok <- getUserInfo lib env api ;;
  if ok : bool then
    print_cout (nl ++ "Authentication successful!") ;;
    ret api
  else
    print_cerr "Authentication failed. Please check your token." ;;
    exit 1.

(** ** Reading the event history *)

(** What one call of [makeRequest] adds to the history and what it returns,
    given the history [evs] at the call. *)
Definition request_event (env : Env) (h : curl_easy) (evs : list event) : event :=
  if curl_easy_init env evs then
    performed h (fst (curl_easy_perform env evs h))
      (snd (curl_easy_perform env evs h))
  else init_failed.

Definition response_of (env : Env) (h : curl_easy) (evs : list event) : string :=
  if curl_easy_init env evs then snd (curl_easy_perform env evs h)
  else EmptyString.

(** The local files the process tried to open, in order. *)
Fixpoint attempted (evs : list event) : list string :=
  match evs with
  | [] => []
  | opened path _ :: rest => path :: attempted rest
  | _ :: rest => attempted rest
  end.

(** How many of the per-file results are [b]. *)
Definition tally (b : bool) (results : list bool) : Z :=
  Z.of_nat (List.length (filter (Bool.eqb b) results)).

(** The paths of the regular files an iteration yields, up to its end or to
    the first error of the file system. *)
Fixpoint regular_files (entries : walk) : list string :=
  match entries with
  | walk_entry entry rest =>
      match is_regular_file entry with
      | Returns true => entry_path entry :: regular_files rest
      | Returns false => regular_files rest
      | Aborts _ => []
      end
  | _ => []
  end.

Definition is_object_or_null (v : Json.Value) : bool :=
  match v with
  | Json.nullValue | Json.objectValue _ => true
  | _ => false
  end.

(** A response is [shaped] when the reader returns on it and the root, if
    there is one, is an object or null: the roots on which [isMember] and
    [operator[]] are defined. *)
Definition shaped (lib : Json.Library) (response : string) : Prop :=
  match Json.parseFromStream lib response with
  | Returns (Some v) => is_object_or_null v = true
  | Returns None => True
  | Aborts _ => False
  end.

(** Whether a response confirms an upload: it parses and its root has a
    member named [content]. *)
Definition has_content (lib : Json.Library) (response : string) : bool :=
  match Json.parseFromStream lib response with
  | Returns (Some (Json.objectValue members)) =>
      match Json.lookup "content" members with
      | Some _ => true
      | None => false
      end
  | _ => false
  end.

(** The state after the attempt to open [path]. *)
Definition after_open (path : string) (is_open : bool) (st : State) : State :=
  {| history := (history st ++ [opened path is_open])%list;
     cout := cout st;
     cerr := cerr st |}.

(** The state after one call of [makeRequest] with handle [h]. *)
Definition after_request (env : Env) (h : curl_easy) (st : State) : State :=
  {| history := (history st ++ [request_event env h (history st)])%list;
     cout := cout st;
     cerr :=
       if curl_easy_init env (history st) then
         if fst (curl_easy_perform env (history st) h) =? 0 then cerr st
         else (cerr st ++
               [("cURL error: " ++
                 curl_easy_strerror env
                   (fst (curl_easy_perform env (history st) h)))%string])%list
       else cerr st |}.

(** The handles of the three kinds of request the content functions make. *)
Definition put_handle (lib : Json.Library) (this : GitHubAPI)
  (repoName remotePath commitMessage : string) (content : list byte) : curl_easy :=
  easy_handle this (contents_url this repoName remotePath) "PUT"
    (Json.writeString lib
       (upload_payload commitMessage (Base64.base64_encode content))).

Definition get_handle (this : GitHubAPI) (url : string) : curl_easy :=
  easy_handle this url "GET" EmptyString.

Definition delete_handle (lib : Json.Library) (this : GitHubAPI)
  (repoName filePath commitMessage sha : string) : curl_easy :=
  easy_handle this (contents_url this repoName filePath) "DELETE"
    (Json.writeString lib (delete_payload commitMessage sha)).

(** The file system raises no error during a tree upload: the iteration
    reaches its end, the status of every entry is determined, and the
    relative path of every regular file is computed. *)
Fixpoint walk_completes (env : Env) (dirPath : string) (entries : walk) : Prop :=
  match entries with
  | walk_end => True
  | walk_throws _ => False
  | walk_entry entry rest =>
      match is_regular_file entry with
      | Returns true =>
          match fs_relative env (entry_path entry) dirPath with
          | Returns _ => walk_completes env dirPath rest
          | Aborts _ => False
          end
      | Returns false => walk_completes env dirPath rest
      | Aborts _ => False
      end
  end.

(** Every response received during the tree upload that starts in [st] is
    [shaped]: for each regular file of the iteration that opens, the response
    to its PUT, made at the history the upload has reached by then. *)
Fixpoint responses_shaped (lib : Json.Library) (env : Env) (this : GitHubAPI)
  (repoName dirPath commitMessage : string) (entries : walk) (st : State)
  : Prop :=
  match entries with
  | walk_entry entry rest =>
      match is_regular_file entry,
            fs_relative env (entry_path entry) dirPath with
      | Returns true, Returns relativePath =>
          match ifstream_read env (entry_path entry) with
          | Some content =>
              shaped lib
                (response_of env
                   (put_handle lib this repoName relativePath commitMessage
                      content)
                   (history st ++ [opened (entry_path entry) true]))
          | None => True
          end /\
          responses_shaped lib env this repoName dirPath commitMessage rest
            (snd (uploadFileWithPath lib env this repoName (entry_path entry)
                    relativePath commitMessage
                    (snd (print_cout ("Uploading: " ++ relativePath ++ "...")
                            st))))
      | Returns false, _ =>
          responses_shaped lib env this repoName dirPath commitMessage rest st
      | _, _ => True
      end
  | _ => True
  end.

(** The relative paths, exactly as [fs::relative(...).string()] gives them,
    of the regular files of an iteration that open. *)
Fixpoint remote_paths (env : Env) (dirPath : string) (entries : walk)
  : list string :=
  match entries with
  | walk_entry entry rest =>
      match is_regular_file entry,
            fs_relative env (entry_path entry) dirPath,
            ifstream_read env (entry_path entry) with
      | Returns true, Returns relativePath, Some _ =>
          relativePath :: remote_paths env dirPath rest
      | Returns true, Returns _, None => remote_paths env dirPath rest
      | Returns false, _, _ => remote_paths env dirPath rest
      | _, _, _ => []
      end
  | _ => []
  end.

(** The handles of the PUTs for those files, in the order of the
    iteration. *)
Fixpoint walk_puts (lib : Json.Library) (env : Env) (this : GitHubAPI)
  (repoName dirPath commitMessage : string) (entries : walk)
  : list curl_easy :=
  match entries with
  | walk_entry entry rest =>
      match is_regular_file entry,
            fs_relative env (entry_path entry) dirPath,
            ifstream_read env (entry_path entry) with
      | Returns true, Returns relativePath, Some content =>
          put_handle lib this repoName relativePath commitMessage content
          :: walk_puts lib env this repoName dirPath commitMessage rest
      | Returns true, Returns _, None =>
          walk_puts lib env this repoName dirPath commitMessage rest
      | Returns false, _, _ =>
          walk_puts lib env this repoName dirPath commitMessage rest
      | _, _, _ => []
      end
  | _ => []
  end.

(** The members [getUserInfo] reads. *)
Definition profile_keys : list string :=
  ["login"; "name"; "email"; "public_repos"; "followers"; "following"].

(** ** The specification's words, for comparison *)

Module Spec.

(** Section 4.2: a write to existing content is read-hash, then
    write-with-hash.  [two_step read hs] holds when every PUT among the
    transfers [hs] follows a GET of the same URL ([read] lists the URLs read
    before [hs]). *)
Fixpoint two_step (read : list string) (hs : list curl_easy) : bool :=
  match hs with
  | [] => true
  | h :: rest =>
      if String.eqb (http_method h) "GET" then
        two_step (CURLOPT_URL h :: read) rest
      else if String.eqb (http_method h) "PUT" then
        existsb (String.eqb (CURLOPT_URL h)) read && two_step read rest
      else two_step read rest
  end.

Fixpoint replace_separator (separator : ascii) (s : string) : string :=
  match s with
  | EmptyString => EmptyString
  | String c rest =>
      String (if Ascii.eqb c separator then "/"%char else c)
        (replace_separator separator rest)
  end.

(** Section 4.3, [toRemotePath], applied to the relative path: separators
    become [/]; an empty path and a path that leaves the root are
    [InvalidPath] (here [None]). *)
Definition toRemotePath (separator : ascii) (relative : string) : option string :=
  let r := replace_separator separator relative in
  if String.eqb r EmptyString then None
  else if String.eqb r ".." then None
  else if String.prefix "../" r then None
  else Some r.

End Spec.

(** ** Sample environments

    Small worlds on which the functions above can be run: a reader that knows
    the documents occurring in them, a writer for flat objects, and a file
    system and a remote given by tables. *)

Module Sample.

Definition dquote : string := String (ascii_of_nat 34) EmptyString.

Definition quoted (s : string) : string := dquote ++ s ++ dquote.

(** The text of an object with one string member. *)
Definition document (key value : string) : string :=
  "{" ++ quoted key ++ ":" ++ quoted value ++ "}".

Definition doc_not_found : string := document "message" "Not Found".
Definition doc_bad_credentials : string := document "message" "Bad credentials".
Definition doc_rejected : string := document "message" "Invalid request.".
Definition doc_metadata : string :=
  document "sha" "3b18e512dba79e4c8300dd08aeb37f8e728b8dad".
Definition doc_created : string := "{" ++ quoted "content" ++ ":{}}".
Definition doc_array : string := "[]".

Definition documents : list (string * Json.Value) :=
  [ (doc_not_found,
     Json.objectValue [("message", Json.stringValue "Not Found")]);
    (doc_bad_credentials,
     Json.objectValue [("message", Json.stringValue "Bad credentials")]);
    (doc_rejected,
     Json.objectValue [("message", Json.stringValue "Invalid request.")]);
    (doc_metadata,
     Json.objectValue
       [("sha", Json.stringValue "3b18e512dba79e4c8300dd08aeb37f8e728b8dad")]);
    (doc_created, Json.objectValue [("content", Json.objectValue [])]);
    (doc_array, Json.arrayValue []) ].

Fixpoint assoc {A : Type} (key : string) (table : list (string * A)) : option A :=
  match table with
  | [] => None
  | (k, v) :: rest => if String.eqb key k then Some v else assoc key rest
  end.

Definition render_member (m : string * Json.Value) : string :=
  quoted (fst m) ++ ":" ++
  match snd m with
  | Json.stringValue s => quoted s
  | _ => "null"
  end.

Definition lib : Json.Library :=
  {| Json.parseFromStream := fun doc => Returns (assoc doc documents);
     Json.writeString := fun v =>
       match v with
       | Json.objectValue members =>
           "{" ++ String.concat "," (map render_member members) ++ "}"
       | _ => "null"
       end;
     Json.valueToString_real := fun _ => "0.0" |}.

(** The part of a path after its last separator. *)
Fixpoint after_last (separator : ascii) (s : string) : option string :=
  match s with
  | EmptyString => None
  | String c rest =>
      match after_last separator rest with
      | Some t => Some t
      | None => if Ascii.eqb c separator then Some rest else None
      end
  end.

Definition filename (separator : ascii) (s : string) : string :=
  match after_last separator s with
  | Some t => t
  | None => s
  end.

(** The path of [p] relative to [base] when [p] lies below [base]. *)
Definition lexically_relative (separator : ascii) (p base : string) : string :=
  let stem := base ++ String separator EmptyString in
  if String.prefix stem p
  then String.substring (String.length stem)
         (String.length p - String.length stem) p
  else p.

(** An iteration that yields the entries of a list and reaches the end. *)
Fixpoint walk_of (entries : list directory_entry) : walk :=
  match entries with
  | [] => walk_end
  | entry :: rest => walk_entry entry (walk_of rest)
  end.

(** A world: the local files, the entries of every walk, the separator of the
    platform, and the remote's answer to a request by its method. *)
Definition world (files : list (string * list byte))
  (entries : list directory_entry) (separator : ascii)
  (answers : list (string * (Z * string))) : Env :=
  {| ifstream_read := fun path => assoc path files;
     path_filename := filename separator;
     recursive_directory_iterator := fun _ => walk_of entries;
     fs_relative := fun p base => Returns (lexically_relative separator p base);
     curl_easy_init := fun _ => true;
     curl_easy_perform := fun _ h =>
       match assoc (http_method h) answers with
       | Some a => a
       | None => (7, EmptyString)
       end;
     curl_easy_strerror := fun _ => "Couldn't connect to server" |}.

Definition api : GitHubAPI := GitHubAPI_new "ghp_token" "octocat".

Definition start : State := {| history := []; cout := []; cerr := [] |}.

End Sample.

(** The worlds of the examples. *)

Module Worlds.

Import Sample.

Definition hi : list byte := [x68; x69].

Definition sha : string := "3b18e512dba79e4c8300dd08aeb37f8e728b8dad".

Definition file (path : string) : directory_entry :=
  {| entry_path := path; is_regular_file := Returns true |}.

Definition directory (path : string) : directory_entry :=
  {| entry_path := path; is_regular_file := Returns false |}.

(** [a.txt] exists locally and on the remote: a GET answers with its
    metadata, a PUT without the hash is declined. *)
Definition existing : Env :=
  world [("a.txt", hi)] [] "/"%char
    [("GET", (0, doc_metadata)); ("PUT", (0, doc_rejected))].

(** No local file at all. *)
Definition empty_disk : Env :=
  world [] [] "/"%char [("PUT", (0, doc_created))].

(** A single local file and a remote that accepts every PUT. *)
Definition accepting_one : Env :=
  world [("a.txt", hi)] [] "/"%char [("PUT", (0, doc_created))].

(** Two files under [proj]; every PUT is answered with an empty array. *)
Definition arrays : Env :=
  world [("proj/a.txt", hi); ("proj/b.txt", hi)]
    [file "proj/a.txt"; file "proj/b.txt"] "/"%char
    [("PUT", (0, doc_array))].

(** Three files under [proj], the second of which cannot be opened; the
    remote accepts every PUT. *)
Definition accepting : Env :=
  world [("proj/a.txt", hi); ("proj/sub/c.txt", hi)]
    [file "proj/a.txt"; directory "proj/sub"; file "proj/sub/b.txt";
     file "proj/sub/c.txt"]
    "/"%char
    [("PUT", (0, doc_created))].

(** A platform whose separator is the backslash. *)
Definition windows : Env :=
  world [("proj\sub\b.bin", hi)]
    [directory "proj\sub"; file "proj\sub\b.bin"] "\"%char
    [("PUT", (0, doc_created))].

(** [proj/link] is a symbolic link to a regular file outside [proj]: the
    relative path of its resolved target leaves the root. *)
Definition linked : Env :=
  {| ifstream_read := fun path => assoc path [("proj/link", hi)];
     path_filename := filename "/"%char;
     recursive_directory_iterator := fun _ =>
       walk_entry (file "proj/link") walk_end;
     fs_relative := fun p base =>
       if String.eqb p "proj/link" then Returns "../outside.txt"
       else Returns (lexically_relative "/"%char p base);
     curl_easy_init := fun _ => true;
     curl_easy_perform := fun _ _ => (0, doc_created);
     curl_easy_strerror := fun _ => "error" |}.

(** The remote holds nothing at the path: GET and DELETE answer 404 with the
    service's error object. *)
Definition absent : Env :=
  world [] [] "/"%char
    [("GET", (0, doc_not_found)); ("DELETE", (0, doc_not_found))].

(** The remote holds the file but declines the DELETE. *)
Definition rejecting : Env :=
  world [] [] "/"%char
    [("GET", (0, doc_metadata)); ("DELETE", (0, doc_rejected))].

(** The first transfer succeeds; every later one fails to connect. *)
Definition unreachable : Env :=
  {| ifstream_read := fun _ => None;
     path_filename := filename "/"%char;
     recursive_directory_iterator := fun _ => walk_end;
     fs_relative := fun p base => Returns (lexically_relative "/"%char p base);
     curl_easy_init := fun _ => true;
     curl_easy_perform := fun evs _ =>
       match evs with
       | [] => (0, doc_metadata)
       | _ => (7, EmptyString)
       end;
     curl_easy_strerror := fun _ => "Couldn't connect to server" |}.

(** The remote answers the probe with its invalid-credentials error. *)
Definition bad_credentials : Env :=
  world [] [] "/"%char [("GET", (0, doc_bad_credentials))].

(** 2^31 zero bytes (never built: only its length is used). *)
Definition huge : list byte := repeat x00 (Z.to_nat (2 ^ 31)).

(** Every byte value once, in order. *)
Definition all_bytes : list byte :=
  map (fun n => Base64.byte_of_Z (Z.of_nat n)) (seq 0 256).

End Worlds.

(** ** The rest of the program

    The functions of [main.cpp] that the sections above do not use: the write
    callback handed to libcurl, the two remaining requests of [GitHubAPI], and
    the configuration file of [ProjectManager].  The prompts of [initialize]
    and the menu loop of [run] read the standard input and are not part of
    this development. *)

(** *** WriteCallback *)

(** Arithmetic on [size_t] wraps modulo 2^64. *)
Definition size_t (n : Z) : Z := n mod 2 ^ 64.

(** [WriteCallback] (lines 34-38): the first [size * nmemb] bytes at
    [contents] are appended to the output, and that number is returned. *)
Definition WriteCallback (contents : string) (size nmemb : Z) (output : string)
  : string * Z :=
  let totalSize := size_t (size * nmemb) in
  (output ++ String.substring 0 (Z.to_nat totalSize) contents, totalSize).

(** One invocation of the callback by libcurl: the buffer and the two
    numbers whose product is the number of bytes in it. *)
Record delivery : Type := {
  buffer : string;
  size : Z;
  nmemb : Z
}.

(** The invocations of one transfer, in order: the output at the end and the
    values the callback returned. *)
Fixpoint deliver (calls : list delivery) (output : string) : string * list Z :=
  match calls with
  | [] => (output, [])
  | call :: rest =>
      let (output', taken) :=
        WriteCallback (buffer call) (size call) (nmemb call) output in
      let (final, returned) := deliver rest output' in
      (final, taken :: returned)
  end.

(** *** Reading a JSON value through a const reference *)

Module JsonRead.

(** [v[key]] on a [const Value&]: the member found, or the null value. *)
Definition member (v : Json.Value) (key : string) : outcome Json.Value :=
  match Json.find v key with
  | Returns (Some w) => Returns w
  | Returns None => Returns Json.nullValue
  | Aborts e => Aborts e
  end.

(** [Value::asBool]. *)
Definition asBool (v : Json.Value) : outcome bool :=
  match v with
  | Json.booleanValue b => Returns b
  | Json.nullValue => Returns false
  | Json.intValue n => Returns (negb (n =? 0))
  | Json.uintValue n => Returns (negb (n =? 0))
  | Json.realValue d => Returns (negb (Qnum d =? 0))
  | _ => Aborts (LogicError "Value is not convertible to bool.")
  end.

(** The values a range-based [for] over a value visits: the elements of an
    array, the values of the members of an object in the order in which the
    library keeps them, and nothing for any other value. *)
Definition elements (v : Json.Value) : list Json.Value :=
  match v with
  | Json.arrayValue items => items
  | Json.objectValue members => map snd members
  | _ => []
  end.

Definition member_asString (lib : Json.Library) (v : Json.Value) (key : string)
  : outcome string :=
  match member v key with
  | Returns w => Json.asString lib w
  | Aborts e => Aborts e
  end.

Definition member_asBool (v : Json.Value) (key : string) : outcome bool :=
  match member v key with
  | Returns w => asBool w
  | Aborts e => Aborts e
  end.

End JsonRead.

(** *** createRepository and listRepositories *)

Section MoreMethods.

Variable lib : Json.Library.
Variable env : Env.
Variable this : GitHubAPI.

(** The payload of [createRepository]: [name], [description], [private] and
    [auto_init], the last always [true]. *)
Definition repository_payload (repoName description : string) (isPrivate : bool)
  : Json.Value :=
  Json.set_member
    (Json.set_member
       (Json.set_member
          (Json.set_member Json.nullValue "name" (Json.stringValue repoName))
          "description" (Json.stringValue description))
       "private" (Json.booleanValue isPrivate))
    "auto_init" (Json.booleanValue true).

(** [createRepository] (lines 487-516). *)
Definition createRepository (repoName description : string) (isPrivate : bool)
  : M bool :=
  let jsonData :=
    Json.writeString lib (repository_payload repoName description isPrivate) in
  let url := baseURL this ++ "/user/repos" in
  response <- makeRequest env this url "POST" jsonData ;;
  parsed <- lift (Json.parseFromStream lib response) ;;
  match parsed with
  | Some responseJson =>
      member <- lift (Json.isMember responseJson "id") ;;
      if member : bool then
        print_cout "Repository created successfully!" ;;
        html_url <- lift (Json.member_asString lib responseJson "html_url") ;;
        print_cout ("URL: " ++ html_url) ;;
        ret true
      else
        print_cerr ("Failed to create repository: " ++ response) ;;
        ret false
  | None =>
      print_cerr ("Failed to create repository: " ++ response) ;;
      ret false
  end.

(** The body of the loop of [listRepositories] (lines 206-212). *)
Definition print_repository (repo : Json.Value) : M unit :=
  name <- lift (JsonRead.member_asString lib repo "name") ;;
  print_cout ("Name: " ++ name) ;;
  description <- lift (JsonRead.member_asString lib repo "description") ;;
  print_cout ("Description: " ++ description) ;;
  html_url <- lift (JsonRead.member_asString lib repo "html_url") ;;
  print_cout ("URL: " ++ html_url) ;;
  private <- lift (JsonRead.member_asBool repo "private") ;;
  print_cout ("Private: " ++ (if private : bool then "Yes" else "No")) ;;
  print_cout "------------------".

Fixpoint print_repositories (repos : list Json.Value) : M unit :=
  match repos with
  | [] => ret tt
  | repo :: rest => print_repository repo ;; print_repositories rest
  end.

(** [listRepositories] (lines 193-214). *)
Definition listRepositories : M unit :=
  let url := baseURL this ++ "/user/repos" in
  response <- makeRequest env this url "GET" EmptyString ;;
  parsed <- lift (Json.parseFromStream lib response) ;;
  match parsed with
  | Some responseJson =>
      print_cout (nl ++ "Your Repositories:") ;;
      print_cout "==================" ;;
      print_repositories (JsonRead.elements responseJson)
  | None => ret tt
  end.

End MoreMethods.

(** *** The configuration file of ProjectManager *)

Definition configFile : string := "github_config.json".

(** The object [saveConfig] writes: [token] and [username]. *)
Definition config_payload (token username : string) : Json.Value :=
  Json.set_member
    (Json.set_member Json.nullValue "token" (Json.stringValue token))
    "username" (Json.stringValue username).

(** [saveConfig] (lines 245-256).  [ofstream_is_open] says whether the output
    stream on the configuration file is open; the value is the text that
    reaches the file, if any.  The function does not test the stream. *)
Definition saveConfig (lib : Json.Library) (ofstream_is_open : bool)
  (token username : string) : M (option string) :=
  let text := Json.writeString lib (config_payload token username) in
  print_cout "Configuration saved!" ;;
  ret (if ofstream_is_open then Some text else None).

(** [loadConfig] (lines 258-277).  [token] and [username] are the strings
    the caller passes by reference; the value is the result together with
    the two strings after the call. *)
Definition loadConfig (lib : Json.Library) (env : Env) (token username : string)
  : M (bool * (string * string)) :=
  match ifstream_read env configFile with
  | None =>
      record (opened configFile false) ;;
      ret (false, (token, username))
  | Some bytes =>
      record (opened configFile true) ;;
      parsed <- lift (Json.parseFromStream lib (string_of_list_byte bytes)) ;;
      match parsed with
      | Some root =>
          token' <- lift (Json.member_asString lib root "token") ;;
          username' <- lift (Json.member_asString lib root "username") ;;
          ret (true, (token', username'))
      | None => ret (false, (token, username))
      end
  end.

(** *** Statements about the rest *)

(** The characters of the base64 alphabet. *)
Definition is_base64_char (c : ascii) : bool :=
  match Base64.conv_ascii2bin c with
  | Some _ => true
  | None => Ascii.eqb c Base64.pad
  end.

Fixpoint all_chars (p : ascii -> bool) (s : string) : bool :=
  match s with
  | EmptyString => true
  | String c rest => p c && all_chars p rest
  end.

(** Printable ASCII characters other than the quote and the backslash:
    the characters a JSON writer prints as they are. *)
Definition plain_char (c : ascii) : bool :=
  (32 <=? nat_of_ascii c)%nat && (nat_of_ascii c <? 127)%nat
  && negb (Ascii.eqb c (ascii_of_nat 34)) && negb (Ascii.eqb c (ascii_of_nat 92)).

Definition plain (s : string) : bool := all_chars plain_char s.

(** A member whose key and value are plain strings. *)
Definition plain_member (m : string * Json.Value) : bool :=
  plain (fst m) &&
  match snd m with
  | Json.stringValue s => plain s
  | _ => false
  end.

(** Keys in strictly ascending order, the order in which the library keeps
    and prints the members of an object. *)
Fixpoint ascending (keys : list string) : bool :=
  match keys with
  | a :: (b :: _) as rest => String.ltb a b && ascending rest
  | _ => true
  end.

(** The reader gives back every object of plain strings that the writer
    prints. *)
Definition reads_back (lib : Json.Library) : Prop :=
  forall members,
    forallb plain_member members = true ->
    ascending (map fst members) = true ->
    Json.parseFromStream lib (Json.writeString lib (Json.objectValue members))
    = Returns (Some (Json.objectValue members)).

(** A call of the write callback as libcurl makes it: the buffer holds
    [size * nmemb] bytes. *)
Definition filled (call : delivery) : Prop :=
  size call * nmemb call = Z.of_nat (String.length (buffer call)) /\
  Z.of_nat (String.length (buffer call)) < 2 ^ 64.

(** Whether a response confirms a creation: it parses and its root has a
    member named [id]. *)
Definition has_id (lib : Json.Library) (response : string) : bool :=
  match Json.parseFromStream lib response with
  | Returns (Some (Json.objectValue members)) =>
      match Json.lookup "id" members with
      | Some _ => true
      | None => false
      end
  | _ => false
  end.

(** The handle of the POST of [createRepository]. *)
Definition post_handle (lib : Json.Library) (this : GitHubAPI)
  (repoName description : string) (isPrivate : bool) : curl_easy :=
  easy_handle this (baseURL this ++ "/user/repos") "POST"
    (Json.writeString lib (repository_payload repoName description isPrivate)).

(** The handle of the GET of [listRepositories]. *)
Definition list_handle (this : GitHubAPI) : curl_easy :=
  get_handle this (baseURL this ++ "/user/repos").

(** The text [asString] gives for a member that is absent, null or a
    string, and the answer [asBool] gives for one that is absent, null or a
    boolean. *)
Definition text_of (member : option Json.Value) : option string :=
  match member with
  | None | Some Json.nullValue => Some EmptyString
  | Some (Json.stringValue s) => Some s
  | _ => None
  end.

Definition flag_of (member : option Json.Value) : option bool :=
  match member with
  | None | Some Json.nullValue => Some false
  | Some (Json.booleanValue b) => Some b
  | _ => None
  end.

(** A repository as the service lists it: an object whose [name],
    [description] and [html_url] are strings, null or absent, and whose
    [private] is a boolean, null or absent. *)
Definition listed (repo : Json.Value) : option (list string) :=
  match repo with
  | Json.objectValue members =>
      match text_of (Json.lookup "name" members),
            text_of (Json.lookup "description" members),
            text_of (Json.lookup "html_url" members),
            flag_of (Json.lookup "private" members) with
      | Some name, Some description, Some html_url, Some private =>
          Some [ "Name: " ++ name;
                 "Description: " ++ description;
                 "URL: " ++ html_url;
                 "Private: " ++ (if private : bool then "Yes" else "No");
                 "------------------" ]
      | _, _, _, _ => None
      end
  | _ => None
  end.

(** The lines of a whole listing, when every element is [listed]. *)
Fixpoint listing (repos : list Json.Value) : option (list string) :=
  match repos with
  | [] => Some []
  | repo :: rest =>
      match listed repo, listing rest with
      | Some block, Some blocks => Some (block ++ blocks)%list
      | _, _ => None
      end
  end.

(** The integers [asInt] returns as they are. *)
Definition int_of (member : option Json.Value) : option Z :=
  match member with
  | None | Some Json.nullValue => Some 0
  | Some (Json.intValue n) =>
      if (Json.minInt <=? n) && (n <=? Json.maxInt) then Some n else None
  | _ => None
  end.

(** More sample documents and worlds. *)

Module MoreWorlds.

Import Sample.

Definition member_text (key : string) (value : string) : string :=
  quoted key ++ ":" ++ value.

Definition doc_repository : string :=
  "{" ++ member_text "id" "1296269" ++ ","
      ++ member_text "html_url" (quoted "https://github.com/octocat/demo") ++ "}".

Definition doc_repositories : string :=
  "[{" ++ member_text "name" (quoted "demo") ++ ","
       ++ member_text "description" "null" ++ ","
       ++ member_text "html_url" (quoted "https://github.com/octocat/demo") ++ ","
       ++ member_text "private" "true" ++ "},{"
       ++ member_text "name" (quoted "notes") ++ ","
       ++ member_text "description" (quoted "Plain notes") ++ ","
       ++ member_text "html_url" (quoted "https://github.com/octocat/notes") ++ ","
       ++ member_text "private" "false" ++ "}]".

Definition doc_profile : string :=
  "{" ++ member_text "login" (quoted "octocat") ++ ","
      ++ member_text "name" (quoted "The Octocat") ++ ","
      ++ member_text "email" "null" ++ ","
      ++ member_text "public_repos" "8" ++ ","
      ++ member_text "followers" "20" ++ ","
      ++ member_text "following" "0" ++ "}".

(** A writer and a reader for objects whose members are strings. *)
Definition write_member (m : string * Json.Value) (tail : string) : string :=
  dquote ++ fst m ++ dquote ++ ":" ++
  match snd m with
  | Json.stringValue s => dquote ++ s ++ dquote ++ tail
  | _ => "null" ++ tail
  end.

Fixpoint write_members (members : list (string * Json.Value)) : string :=
  match members with
  | [] => "}"
  | m :: rest =>
      match rest with
      | [] => write_member m "}"
      | _ :: _ => write_member m ("," ++ write_members rest)
      end
  end.

(** The text up to the next quote, and what follows the quote. *)
Fixpoint read_plain (s : string) : option (string * string) :=
  match s with
  | EmptyString => None
  | String c rest =>
      if Ascii.eqb c (ascii_of_nat 34) then Some (EmptyString, rest)
      else
        match read_plain rest with
        | Some (t, after) => Some (String c t, after)
        | None => None
        end
  end.

Fixpoint read_members (fuel : nat) (s : string)
  : option (list (string * Json.Value)) :=
  match fuel with
  | O => None
  | S fuel' =>
      match s with
      | String q s1 =>
          if Ascii.eqb q (ascii_of_nat 34) then
            match read_plain s1 with
            | Some (key, String colon (String q2 s2)) =>
                if Ascii.eqb colon ":" && Ascii.eqb q2 (ascii_of_nat 34) then
                  match read_plain s2 with
                  | Some (value, String sep s3) =>
                      if Ascii.eqb sep "}" then
                        match s3 with
                        | EmptyString => Some [(key, Json.stringValue value)]
                        | String _ _ => None
                        end
                      else if Ascii.eqb sep "," then
                        match read_members fuel' s3 with
                        | Some rest =>
                            Some ((key, Json.stringValue value) :: rest)
                        | None => None
                        end
                      else None
                  | _ => None
                  end
                else None
            | _ => None
            end
          else None
      | EmptyString => None
      end
  end.

Definition read_object (doc : string) : option Json.Value :=
  match doc with
  | String b rest =>
      if Ascii.eqb b "{" then
        if String.eqb rest "}" then Some (Json.objectValue [])
        else
          match read_members (String.length rest) rest with
          | Some members => Some (Json.objectValue members)
          | None => None
          end
      else None
  | EmptyString => None
  end.

Definition flat_lib : Json.Library :=
  {| Json.parseFromStream := fun doc => Returns (read_object doc);
     Json.writeString := fun v =>
       match v with
       | Json.objectValue members => "{" ++ write_members members
       | _ => "null"
       end;
     Json.valueToString_real := fun _ => "0.0" |}.

Definition doc_config : string :=
  Json.writeString flat_lib (config_payload "ghp_token" "octocat").

Definition repositories : list Json.Value :=
  [ Json.objectValue
      [ ("name", Json.stringValue "demo");
        ("description", Json.nullValue);
        ("html_url", Json.stringValue "https://github.com/octocat/demo");
        ("private", Json.booleanValue true) ];
    Json.objectValue
      [ ("name", Json.stringValue "notes");
        ("description", Json.stringValue "Plain notes");
        ("html_url", Json.stringValue "https://github.com/octocat/notes");
        ("private", Json.booleanValue false) ] ].

Definition profile : list (string * Json.Value) :=
  [ ("login", Json.stringValue "octocat");
    ("name", Json.stringValue "The Octocat");
    ("email", Json.nullValue);
    ("public_repos", Json.intValue 8);
    ("followers", Json.intValue 20);
    ("following", Json.intValue 0) ].

Definition more_documents : list (string * Json.Value) :=
  [ (doc_repository,
     Json.objectValue
       [ ("id", Json.intValue 1296269);
         ("html_url", Json.stringValue "https://github.com/octocat/demo") ]);
    (doc_repositories, Json.arrayValue repositories);
    (doc_profile, Json.objectValue profile) ].

(** The sample reader, knowing these documents too. *)
Definition lib : Json.Library :=
  {| Json.parseFromStream := fun doc =>
       match assoc doc more_documents with
       | Some v => Returns (Some v)
       | None => Json.parseFromStream Sample.lib doc
       end;
     Json.writeString := Json.writeString Sample.lib;
     Json.valueToString_real := Json.valueToString_real Sample.lib |}.

(** A remote that creates the repository asked for. *)
Definition creating : Env :=
  world [] [] "/"%char [("POST", (0, doc_repository))].

(** A remote that declines the creation. *)
Definition declining : Env :=
  world [] [] "/"%char [("POST", (0, doc_rejected))].

(** A remote that lists two repositories. *)
Definition listing_two : Env :=
  world [] [] "/"%char [("GET", (0, doc_repositories))].

(** A remote that answers the probe with a profile. *)
Definition signed_in : Env :=
  world [] [] "/"%char [("GET", (0, doc_profile))].

(** The contents URL names a directory: the GET is answered with an array. *)
Definition directory_listing : Env :=
  world [] [] "/"%char [("GET", (0, doc_array))].

(** No transfer reaches the remote. *)
Definition offline : Env := world [] [] "/"%char [].

(** No handle can be obtained. *)
Definition no_handle : Env :=
  {| ifstream_read := fun path => assoc path [("a.txt", Worlds.hi)];
     path_filename := filename "/"%char;
     recursive_directory_iterator := fun _ => walk_end;
     fs_relative := fun p base => Returns (lexically_relative "/"%char p base);
     curl_easy_init := fun _ => false;
     curl_easy_perform := fun _ _ => (0, doc_created);
     curl_easy_strerror := fun _ => "error" |}.

(** A tree of two files and a directory, none of which can be opened. *)
Definition unreadable : Env :=
  world [] [Worlds.file "proj/a.txt"; Worlds.directory "proj/sub";
            Worlds.file "proj/sub/b.txt"] "/"%char
    [("PUT", (0, doc_created))].

(** A later session that finds the configuration file as it was saved. *)
Definition configured : Env :=
  world [(configFile, list_byte_of_string doc_config)] [] "/"%char [].

(** A remote that answers the creation with an array. *)
Definition answering_array : Env :=
  world [] [] "/"%char [("POST", (0, doc_array))].

(** The root of the walk does not exist: the iterator throws. *)
Definition missing_root : Env :=
  {| ifstream_read := fun _ => None;
     path_filename := filename "/"%char;
     recursive_directory_iterator := fun dir =>
       walk_throws
         ("filesystem error: recursive directory iterator cannot open directory: No such file or directory ["
          ++ dir ++ "]");
     fs_relative := fun p base => Returns (lexically_relative "/"%char p base);
     curl_easy_init := fun _ => true;
     curl_easy_perform := fun _ _ => (0, doc_created);
     curl_easy_strerror := fun _ => "error" |}.

(** [docs] is a directory that holds one file.  As on Linux, an input
    stream on the directory opens and no byte can be read from it. *)
Definition a_directory : Env :=
  world [("docs", []); ("docs/a.txt", Worlds.hi)] [Worlds.file "docs/a.txt"]
    "/"%char [("PUT", (0, doc_created))].


(** The configuration file holds an array. *)
Definition array_config : Env :=
  world [(configFile, list_byte_of_string doc_array)] [] "/"%char [].

End MoreWorlds.

(** * Properties *)

(** ** Induction on lists three elements at a time *)

Lemma list_ind3 {A : Type} (P : list A -> Prop) :
  P [] ->
  (forall a, P [a]) ->
  (forall a b, P [a; b]) ->
  (forall a b c l, P l -> P (a :: b :: c :: l)) ->
  forall l, P l.
Proof.
  intros H0 H1 H2 H3 l.
  assert (G : P l /\ (forall a, P (a :: l)) /\ (forall a b, P (a :: b :: l))).
  { induction l as [|x l [IH0 [IH1 IH2]]].
    - repeat split; auto.
    - repeat split; auto. }
  exact (proj1 G).
Qed.

(** ** The base64 filter and its inverse *)

Import Base64.

(** Every character the encoder emits for a 6-bit value decodes to that
    value and is neither the padding character nor a line break. *)
Lemma conv_round (n : Z) :
  0 <= n < 64 ->
  conv_ascii2bin (conv_bin2ascii n) = Some n /\
  Ascii.eqb (conv_bin2ascii n) pad = false /\
  Ascii.eqb newline (conv_bin2ascii n) = false.
Proof.
  intros H.
  assert (E : n = Z.of_nat (Z.to_nat n)) by lia.
  rewrite E. remember (Z.to_nat n) as k eqn:Hk.
  assert (Hlt : (k < 64)%nat) by lia. clear E Hk H.
  do 64 (destruct k as [|k]; [vm_compute; repeat split|]); lia.
Qed.

Lemma conv_round' (x : Z) :
  conv_ascii2bin (conv_bin2ascii x) = Some (Z.land x 63) /\
  Ascii.eqb (conv_bin2ascii x) pad = false /\
  Ascii.eqb newline (conv_bin2ascii x) = false.
Proof.
  assert (H : 0 <= Z.land x 63 < 64).
  { change 63 with (Z.ones 6). rewrite Z.land_ones by lia.
    apply Z.mod_pos_bound. lia. }
  destruct (conv_round _ H) as [H1 [H2 H3]].
  assert (E : conv_bin2ascii (Z.land x 63) = conv_bin2ascii x).
  { unfold conv_bin2ascii. rewrite <- Z.land_assoc. reflexivity. }
  rewrite E in H1, H2, H3. repeat split; assumption.
Qed.

Lemma testbit_high (l n k : Z) :
  0 <= l < 2 ^ k -> 0 <= k <= n -> Z.testbit l n = false.
Proof.
  intros Hl Hk. destruct (Z.eq_dec l 0) as [->|Hz]; [apply Z.testbit_0_l|].
  apply Z.bits_above_log2; [lia|].
  assert (Z.log2 l < k); [apply Z.log2_lt_pow2; lia | lia].
Qed.

(** Bit-by-bit reasoning: push [Z.testbit] through the operators, decide the
    comparisons of the index, and discard the bits above a byte. *)
Ltac bits_step :=
  match goal with
  | |- context [Z.testbit (Z.lor _ _) _] => rewrite Z.lor_spec
  | |- context [Z.testbit (Z.land _ _) _] => rewrite Z.land_spec
  | |- context [Z.testbit (Z.shiftl ?a ?k) ?i] =>
      rewrite (Z.shiftl_spec a k i) by lia
  | |- context [Z.testbit ?a ?i] => rewrite (Z.testbit_neg_r a i) by lia
  | |- context [Z.testbit (Z.shiftr ?a ?k) ?i] =>
      rewrite (Z.shiftr_spec a k i) by lia
  | |- context [Z.testbit (Z.ones ?k) ?i] =>
      rewrite (Z.testbit_ones_nonneg k i) by lia
  | |- context [?a <? ?b] =>
      first [ replace (a <? b) with true by (symmetry; apply Z.ltb_lt; lia)
            | replace (a <? b) with false by (symmetry; apply Z.ltb_ge; lia) ]
  end.

Ltac bits_cases n bounds :=
  match bounds with
  | nil => idtac
  | cons ?b ?rest => destruct (Z_lt_le_dec n b); [| bits_cases n rest]
  end.

Ltac bits_index :=
  repeat match goal with
  | |- context [Z.testbit ?x ?i] =>
      match goal with
      | Hn : 0 <= ?n |- _ =>
          lazymatch i with n => fail | _ => replace i with n by lia end
      end
  end.

Ltac bits_high :=
  repeat match goal with
  | H : 0 <= ?x < 2 ^ 8 |- context [Z.testbit ?x ?i] =>
      rewrite (testbit_high x i 8 H) by lia
  | |- context [Z.testbit ?x ?i] => rewrite (Z.testbit_neg_r x i) by lia
  end.

Ltac bits_bool :=
  rewrite ?Z.testbit_0_l, ?andb_true_r, ?andb_false_r, ?orb_false_r,
    ?orb_false_l.

(** The four 6-bit values of a 24-bit group put the group together again. *)
Lemma sextets_recombine (l : Z) :
  0 <= l < 2 ^ 24 ->
  Z.lor (Z.lor (Z.lor (Z.shiftl (Z.land (Z.shiftr l 18) 63) 18)
                      (Z.shiftl (Z.land (Z.shiftr l 12) 63) 12))
               (Z.shiftl (Z.land (Z.shiftr l 6) 63) 6))
        (Z.land l 63) = l.
Proof.
  intros Hl. change 63 with (Z.ones 6).
  apply Z.bits_inj'. intros n Hn.
  bits_cases n [6; 12; 18; 24]; repeat bits_step; bits_index; bits_bool;
    try reflexivity.
  symmetry. apply (testbit_high l n 24); lia.
Qed.

Lemma byte_to_Z_range (b : byte) : 0 <= byte_to_Z b < 2 ^ 8.
Proof. unfold byte_to_Z. pose proof (Byte.to_N_bounded b). lia. Qed.

Lemma byte_of_to_Z (b : byte) : byte_of_Z (byte_to_Z b) = b.
Proof.
  unfold byte_of_Z, byte_to_Z. rewrite N2Z.id, Byte.of_to_N. reflexivity.
Qed.

Lemma group24_range (a b c : Z) :
  0 <= a < 2 ^ 8 -> 0 <= b < 2 ^ 8 -> 0 <= c < 2 ^ 8 ->
  0 <= group24 a b c < 2 ^ 24.
Proof.
  intros Ha Hb Hc.
  assert (E : Z.land (group24 a b c) (Z.ones 24) = group24 a b c).
  { unfold group24. apply Z.bits_inj'. intros n Hn.
    bits_cases n [24]; repeat bits_step; bits_high; bits_bool; reflexivity. }
  rewrite Z.land_ones in E by lia. rewrite <- E.
  apply Z.mod_pos_bound. lia.
Qed.

Lemma group24_byte0 (a b c : Z) :
  0 <= a < 2 ^ 8 -> 0 <= b < 2 ^ 8 -> 0 <= c < 2 ^ 8 ->
  Z.land (Z.shiftr (group24 a b c) 16) 255 = a.
Proof.
  intros Ha Hb Hc. unfold group24. change 255 with (Z.ones 8).
  apply Z.bits_inj'. intros n Hn.
  bits_cases n [8]; repeat bits_step; bits_high; bits_bool.
  - f_equal. lia.
  - reflexivity.
Qed.

Lemma group24_byte1 (a b c : Z) :
  0 <= a < 2 ^ 8 -> 0 <= b < 2 ^ 8 -> 0 <= c < 2 ^ 8 ->
  Z.land (Z.shiftr (group24 a b c) 8) 255 = b.
Proof.
  intros Ha Hb Hc. unfold group24. change 255 with (Z.ones 8).
  apply Z.bits_inj'. intros n Hn.
  bits_cases n [8]; repeat bits_step; bits_high; bits_bool.
  - f_equal. lia.
  - reflexivity.
Qed.

Lemma group24_byte2 (a b c : Z) :
  0 <= a < 2 ^ 8 -> 0 <= b < 2 ^ 8 -> 0 <= c < 2 ^ 8 ->
  Z.land (group24 a b c) 255 = c.
Proof.
  intros Ha Hb Hc. unfold group24. change 255 with (Z.ones 8).
  apply Z.bits_inj'. intros n Hn.
  bits_cases n [8]; repeat bits_step; bits_high; bits_bool; reflexivity.
Qed.

Lemma group24_low6 (a b : Z) : Z.land (group24 a b 0) 63 = 0.
Proof.
  unfold group24. change 63 with (Z.ones 6). apply Z.bits_inj'. intros n Hn.
  rewrite Z.testbit_0_l.
  bits_cases n [6]; repeat bits_step; bits_bool; reflexivity.
Qed.

Lemma group24_mid6 (a : Z) : Z.land (Z.shiftr (group24 a 0 0) 6) 63 = 0.
Proof.
  unfold group24. change 63 with (Z.ones 6). apply Z.bits_inj'. intros n Hn.
  rewrite Z.testbit_0_l.
  bits_cases n [6]; repeat bits_step; bits_bool; reflexivity.
Qed.

(** The three shapes of a quantum: full, one padding character, two. *)
Lemma decode_quantum_3 (f0 f1 f2 : byte) :
  let l := group24 (byte_to_Z f0) (byte_to_Z f1) (byte_to_Z f2) in
  decode_quantum (conv_bin2ascii (Z.shiftr l 18))
    (conv_bin2ascii (Z.shiftr l 12)) (conv_bin2ascii (Z.shiftr l 6))
    (conv_bin2ascii l)
  = Some [f0; f1; f2].
Proof.
  intros l.
  pose proof (byte_to_Z_range f0) as H0.
  pose proof (byte_to_Z_range f1) as H1.
  pose proof (byte_to_Z_range f2) as H2.
  pose proof (group24_range _ _ _ H0 H1 H2) as Hl. fold l in Hl.
  unfold decode_quantum.
  destruct (conv_round' (Z.shiftr l 18)) as [-> _].
  destruct (conv_round' (Z.shiftr l 12)) as [-> _].
  destruct (conv_round' (Z.shiftr l 6)) as [-> _].
  destruct (conv_round' l) as [-> [-> _]].
  cbv zeta. rewrite (sextets_recombine l Hl). unfold l.
  rewrite group24_byte0, group24_byte1, group24_byte2 by assumption.
  rewrite !byte_of_to_Z. reflexivity.
Qed.

Lemma decode_quantum_2 (f0 f1 : byte) :
  let l := Z.lor (Z.shiftl (byte_to_Z f0) 16) (Z.shiftl (byte_to_Z f1) 8) in
  decode_quantum (conv_bin2ascii (Z.shiftr l 18))
    (conv_bin2ascii (Z.shiftr l 12)) (conv_bin2ascii (Z.shiftr l 6)) pad
  = Some [f0; f1].
Proof.
  intros l.
  pose proof (byte_to_Z_range f0) as H0.
  pose proof (byte_to_Z_range f1) as H1.
  assert (H2 : 0 <= 0 < 2 ^ 8) by lia.
  assert (El : l = group24 (byte_to_Z f0) (byte_to_Z f1) 0).
  { unfold l, group24. rewrite Z.lor_0_r. reflexivity. }
  pose proof (group24_range _ _ _ H0 H1 H2) as Hl. rewrite <- El in Hl.
  pose proof (sextets_recombine l Hl) as R.
  rewrite El in R at 4. rewrite group24_low6, Z.lor_0_r in R.
  unfold decode_quantum.
  destruct (conv_round' (Z.shiftr l 18)) as [-> _].
  destruct (conv_round' (Z.shiftr l 12)) as [-> _].
  destruct (conv_round' (Z.shiftr l 6)) as [-> [-> _]].
  rewrite Ascii.eqb_refl. cbv zeta. rewrite R, El.
  rewrite group24_byte0, group24_byte1 by assumption.
  rewrite !byte_of_to_Z. reflexivity.
Qed.

Lemma decode_quantum_1 (f0 : byte) :
  let l := Z.shiftl (byte_to_Z f0) 16 in
  decode_quantum (conv_bin2ascii (Z.shiftr l 18))
    (conv_bin2ascii (Z.shiftr l 12)) pad pad
  = Some [f0].
Proof.
  intros l.
  pose proof (byte_to_Z_range f0) as H0.
  assert (H2 : 0 <= 0 < 2 ^ 8) by lia.
  assert (El : l = group24 (byte_to_Z f0) 0 0).
  { unfold l, group24. rewrite Z.shiftl_0_l, !Z.lor_0_r. reflexivity. }
  pose proof (group24_range _ _ _ H0 H2 H2) as Hl. rewrite <- El in Hl.
  pose proof (sextets_recombine l Hl) as R.
  rewrite El in R at 3 4.
  rewrite group24_low6, group24_mid6, Z.shiftl_0_l, !Z.lor_0_r in R.
  unfold decode_quantum.
  destruct (conv_round' (Z.shiftr l 18)) as [-> _].
  destruct (conv_round' (Z.shiftr l 12)) as [-> _].
  rewrite Ascii.eqb_refl. cbv zeta. rewrite R, El.
  rewrite group24_byte0 by assumption.
  rewrite !byte_of_to_Z. reflexivity.
Qed.

Lemma EVP_EncodeBlock_empty (f : list byte) :
  EVP_EncodeBlock f = EmptyString -> f = [].
Proof.
  destruct f as [|a [|b [|c r]]]; simpl; intros H;
    [reflexivity | discriminate ..].
Qed.

(** The decoder inverts the block encoder, by induction three bytes at a
    time. *)
Lemma EVP_EncodeBlock_decode (f : list byte) :
  base64_decode (EVP_EncodeBlock f) = Some f.
Proof.
  induction f as [| f0 | f0 f1 | f0 f1 f2 rest IH] using list_ind3.
  - reflexivity.
  - cbn [EVP_EncodeBlock base64_decode]. apply decode_quantum_1.
  - cbn [EVP_EncodeBlock base64_decode]. apply decode_quantum_2.
  - cbn [EVP_EncodeBlock]. cbv zeta.
    set (l := group24 _ _ _).
    cbn [base64_decode].
    pose proof (decode_quantum_3 f0 f1 f2) as Q. cbv zeta in Q. fold l in Q.
    destruct (EVP_EncodeBlock rest) as [|d s] eqn:E.
    + apply EVP_EncodeBlock_empty in E. subst rest. exact Q.
    + destruct (conv_round' l) as [_ [-> _]]. rewrite Q, IH. reflexivity.
Qed.


Lemma to_int_small (n : Z) : 0 <= n < 2 ^ 31 -> to_int n = n.
Proof. intros H. unfold to_int. rewrite Z.mod_small; lia. Qed.

Lemma length_append (a b : string) :
  String.length (a ++ b) = (String.length a + String.length b)%nat.
Proof. induction a as [|c a IH]; cbn; [|rewrite IH]; reflexivity. Qed.

Lemma EVP_EncodeBlock_length (f : list byte) :
  Z.of_nat (String.length (EVP_EncodeBlock f))
  = 4 * ((Z.of_nat (List.length f) + 2) / 3).
Proof.
  induction f as [| f0 | f0 f1 | f0 f1 f2 rest IH] using list_ind3;
    try reflexivity.
  cbn [EVP_EncodeBlock]. cbv zeta. cbn [String.length List.length].
  rewrite !Nat2Z.inj_succ, IH.
  replace (Z.succ (Z.succ (Z.succ (Z.of_nat (List.length rest)))) + 2)
    with (1 * 3 + (Z.of_nat (List.length rest) + 2)) by lia.
  rewrite Z.div_add_l by lia. lia.
Qed.

Lemma EVP_EncodeBlock_app (a b : list byte) :
  Z.of_nat (List.length a) mod 3 = 0 ->
  EVP_EncodeBlock (a ++ b) = EVP_EncodeBlock a ++ EVP_EncodeBlock b.
Proof.
  induction a as [| f0 | f0 f1 | f0 f1 f2 rest IH] using list_ind3;
    intros H.
  - reflexivity.
  - discriminate H.
  - discriminate H.
  - cbn [List.length] in H. rewrite !Nat2Z.inj_succ in H.
    cbn [app EVP_EncodeBlock]. cbv zeta. cbn [String.append].
    rewrite IH; [reflexivity|].
    replace (Z.succ (Z.succ (Z.succ (Z.of_nat (List.length rest)))))
      with (Z.of_nat (List.length rest) + 1 * 3) in H by lia.
    rewrite Z.mod_add in H by lia. exact H.
Qed.

Lemma append_assoc (a b c : string) : (a ++ b) ++ c = a ++ (b ++ c).
Proof. induction a as [|x a IH]; cbn; [|rewrite IH]; reflexivity. Qed.

Lemma append_empty_r (a : string) : a ++ EmptyString = a.
Proof. induction a as [|x a IH]; cbn; [|rewrite IH]; reflexivity. Qed.

(** The sink takes a chunk whenever the length it reaches is within the
    limit. *)
Lemma mem_write_within_limit (sink : BUF_MEM) (chunk : string) :
  Z.of_nat (String.length (buf_data sink)) + Z.of_nat (String.length chunk)
  <= LIMIT_BEFORE_EXPANSION ->
  exists capacity,
    mem_write sink chunk
    = Some {| buf_data := buf_data sink ++ chunk; buf_max := capacity |}.
Proof.
  intros H. unfold mem_write, BUF_MEM_grow_clean.
  destruct (_ <=? Z.of_nat _); [eexists; reflexivity|].
  destruct (_ <=? buf_max sink); [eexists; reflexivity|].
  destruct (Z.ltb_spec LIMIT_BEFORE_EXPANSION
              (Z.of_nat (String.length (buf_data sink))
               + Z.of_nat (String.length chunk))) as [L|L]; [lia|].
  eexists; reflexivity.
Qed.

(** The size of a round of the filter: a positive multiple of three, at
    most the number of bytes left. *)
Lemma round_size (len : nat) :
  (3 <= Nat.min len B64_BLOCK_SIZE)%nat ->
  let n := (Nat.min len B64_BLOCK_SIZE
            - Nat.min len B64_BLOCK_SIZE mod 3)%nat in
  (3 <= n <= len)%nat /\ Z.of_nat n mod 3 = 0.
Proof.
  intros H n. subst n.
  set (m := Nat.min len B64_BLOCK_SIZE) in *.
  pose proof (Nat.div_mod_eq m 3) as D.
  pose proof (Nat.mod_upper_bound m 3 ltac:(lia)) as U.
  assert (E : (m - m mod 3 = 3 * (m / 3))%nat) by lia.
  rewrite E. split.
  - unfold m in *. lia.
  - rewrite Nat2Z.inj_mul, Z.mul_comm. apply Z.mod_mul. lia.
Qed.

(** The rounds of the filter never run out of fuel: any bound that is at
    least the length of the input gives the same result. *)
Lemma b64_write_fuel (fuel : nat) :
  forall (fuel' : nat) (input : list byte) (sink : BUF_MEM),
  (List.length input <= fuel)%nat ->
  (List.length input <= fuel')%nat ->
  b64_write fuel input sink = b64_write fuel' input sink.
Proof.
  induction fuel as [|fuel IH]; intros fuel' input sink F F'.
  - destruct input; [|cbn in F; lia]. destruct fuel'; reflexivity.
  - destruct input as [|b0 input']; [destruct fuel'; reflexivity|].
    destruct fuel' as [|fuel']; [cbn in F'; lia|].
    remember (b0 :: input') as input eqn:Ei.
    assert (U : forall k,
              b64_write (S k) input sink
              = let n := Nat.min (List.length input) B64_BLOCK_SIZE in
                if (n <? 3)%nat then
                  ({| ctx_buf := EmptyString; ctx_tmp := input |}, sink)
                else
                  let n := (n - n mod 3)%nat in
                  let block := EVP_EncodeBlock (firstn n input) in
                  match mem_write sink block with
                  | Some sink' => b64_write k (skipn n input) sink'
                  | None => ({| ctx_buf := block; ctx_tmp := [] |}, sink)
                  end).
    { intros k. rewrite Ei. reflexivity. }
    rewrite !U. cbv zeta.
    destruct (Nat.ltb_spec (Nat.min (List.length input) B64_BLOCK_SIZE) 3)
      as [Small|Big]; [reflexivity|].
    destruct (round_size (List.length input) Big) as [[N3 Nl] _].
    destruct (mem_write sink _) as [sink'|]; [|reflexivity].
    apply IH; rewrite length_skipn; lia.
Qed.

(** Below the limit the filter and the flush leave in the sink what it held
    followed by the encoding of the whole input as one block. *)
Lemma b64_write_within_limit (fuel : nat) :
  forall (input : list byte) (sink : BUF_MEM),
  (List.length input <= fuel)%nat ->
  Z.of_nat (String.length (buf_data sink))
  + 4 * ((Z.of_nat (List.length input) + 2) / 3) <= LIMIT_BEFORE_EXPANSION ->
  buf_data (BIO_flush (fst (b64_write fuel input sink))
              (snd (b64_write fuel input sink)))
  = buf_data sink ++ EVP_EncodeBlock input.
Proof.
  induction fuel as [|fuel IH]; intros input sink F L.
  - destruct input; [|cbn in F; lia]. cbn. rewrite append_empty_r. reflexivity.
  - destruct input as [|b0 input'].
    { cbn. rewrite append_empty_r. reflexivity. }
    remember (b0 :: input') as input eqn:Ei.
    assert (Hs : b64_write (S fuel) input sink
                 = let n := Nat.min (List.length input) B64_BLOCK_SIZE in
                   if (n <? 3)%nat then
                     ({| ctx_buf := EmptyString; ctx_tmp := input |}, sink)
                   else
                     let n := (n - n mod 3)%nat in
                     let block := EVP_EncodeBlock (firstn n input) in
                     match mem_write sink block with
                     | Some sink' => b64_write fuel (skipn n input) sink'
                     | None => ({| ctx_buf := block; ctx_tmp := [] |}, sink)
                     end).
    { rewrite Ei. reflexivity. }
    rewrite Hs. clear Hs. cbv zeta.
    destruct (Nat.ltb_spec (Nat.min (List.length input) B64_BLOCK_SIZE) 3)
      as [Small|Big].
    + destruct (mem_write_within_limit sink (EVP_EncodeBlock input))
        as [capacity W].
      { rewrite EVP_EncodeBlock_length. exact L. }
      cbn [fst snd]. unfold BIO_flush. cbn [ctx_buf ctx_tmp].
      rewrite Ei in *. rewrite W. reflexivity.
    + destruct (round_size (List.length input) Big) as [[N3 Nl] Nm].
      set (n := (Nat.min (List.length input) B64_BLOCK_SIZE
                 - Nat.min (List.length input) B64_BLOCK_SIZE mod 3)%nat) in *.
      assert (Ef : List.length (firstn n input) = n)
        by (apply firstn_length_le; lia).
      assert (Es : List.length (skipn n input) = (List.length input - n)%nat)
        by apply length_skipn.
      assert (Ed : (Z.of_nat (List.length input) + 2) / 3
                   = Z.of_nat n / 3
                     + (Z.of_nat (List.length input - n) + 2) / 3).
      { apply Z.mod_divide in Nm; [|lia]. destruct Nm as [k Hk].
        rewrite Hk, Z.div_mul by lia.
        replace (Z.of_nat (List.length input) + 2)
          with (k * 3 + (Z.of_nat (List.length input - n) + 2)) by lia.
        rewrite Z.div_add_l by lia. reflexivity. }
      assert (Eb : Z.of_nat (String.length (EVP_EncodeBlock (firstn n input)))
                   = 4 * (Z.of_nat n / 3)).
      { rewrite EVP_EncodeBlock_length, Ef.
        apply Z.mod_divide in Nm; [|lia]. destruct Nm as [k Hk].
        rewrite Hk. replace (k * 3 + 2) with (k * 3 + 2) by reflexivity.
        rewrite Z.div_add_l, Z.div_mul by lia.
        change (2 / 3) with 0. lia. }
      assert (P : 0 <= (Z.of_nat (List.length input - n) + 2) / 3)
        by (apply Z.div_pos; lia).
      destruct (mem_write_within_limit sink
                  (EVP_EncodeBlock (firstn n input))) as [capacity W].
      { rewrite Eb. lia. }
      rewrite W.
      rewrite IH.
      * cbn [buf_data]. rewrite append_assoc.
        rewrite <- EVP_EncodeBlock_app by (rewrite Ef; exact Nm).
        rewrite firstn_skipn. reflexivity.
      * rewrite Es. lia.
      * cbn [buf_data]. rewrite length_append, Nat2Z.inj_add, Eb, Es. lia.
Qed.

(** The longest input whose encoding is within the limit of the sink:
    1207959549 bytes. *)
Lemma within_limit (n : Z) :
  0 <= n <= LIMIT_BEFORE_EXPANSION / 4 * 3 ->
  4 * ((n + 2) / 3) <= LIMIT_BEFORE_EXPANSION /\ n < 2 ^ 31.
Proof.
  change (LIMIT_BEFORE_EXPANSION / 4 * 3) with 1207959549.
  unfold LIMIT_BEFORE_EXPANSION. intros H. split; [|lia].
  assert (D : (n + 2) / 3 <= 1207959551 / 3)
    by (apply Z.div_le_mono; lia).
  change (1207959551 / 3) with 402653183 in D. lia.
Qed.

(** An input whose encoding is within the limit of the sink is encoded
    whole, as one block. *)
Lemma base64_encode_whole (input : list byte) :
  Z.of_nat (List.length input) <= LIMIT_BEFORE_EXPANSION / 4 * 3 ->
  base64_encode input = EVP_EncodeBlock input.
Proof.
  intros H.
  destruct (within_limit (Z.of_nat (List.length input))) as [L I]; [lia|].
  unfold base64_encode, BIO_write. rewrite to_int_small by lia.
  destruct (Z.leb_spec (Z.of_nat (List.length input)) 0) as [Z0|Pos].
  - destruct input; [reflexivity | cbn [List.length] in Z0; lia].
  - rewrite Nat2Z.id, firstn_all.
    pose proof (b64_write_within_limit (List.length input) input
                  {| buf_data := EmptyString; buf_max := 0 |}
                  (Nat.le_refl _)) as W.
    cbn [buf_data String.length] in W. specialize (W L).
    destruct (b64_write (List.length input) input _) as [ctx sink].
    exact W.
Qed.

(** With a length that is not positive as an [int], nothing is written. *)
Lemma base64_encode_not_positive (input : list byte) :
  to_int (Z.of_nat (List.length input)) <= 0 ->
  base64_encode input = EmptyString.
Proof.
  intros L. unfold base64_encode, BIO_write.
  apply Z.leb_le in L. rewrite L. reflexivity.
Qed.


(** ** Runs of the client *)

Section Runs.

Variable lib : Json.Library.
Variable env : Env.
Variable this : GitHubAPI.

(** One call of [makeRequest]: it always returns, with the response and the
    state that [response_of] and [after_request] describe. *)
Lemma makeRequest_run (url method data : string) (st : State) :
  makeRequest env this url method data st =
  (Returns (response_of env (easy_handle this url method data) (history st)),
   after_request env (easy_handle this url method data) st).
Proof.
  unfold makeRequest, after_request, response_of, request_event, bind, past.
  destruct (curl_easy_init env (history st)); [|reflexivity].
  destruct (curl_easy_perform env (history st) _) as [res response]; cbn.
  destruct (res =? 0); reflexivity.
Qed.

Lemma after_open_request_history (h : curl_easy) (path : string) (st : State) :
  history (after_request env h (after_open path true st))
  = (history st ++
     [opened path true;
      request_event env h (history st ++ [opened path true])])%list.
Proof.
  unfold after_request, after_open. cbn [history].
  rewrite <- app_assoc. reflexivity.
Qed.

Lemma transfers_app (a b : list event) :
  transfers (a ++ b) = (transfers a ++ transfers b)%list.
Proof.
  induction a as [|[p o| |h r s] a IH]; cbn;
    [reflexivity | assumption | assumption |].
  rewrite IH. reflexivity.
Qed.

Lemma transfers_request_event (h : curl_easy) (evs : list event) :
  transfers [request_event env h evs]
  = (if curl_easy_init env evs then [h] else []).
Proof.
  unfold request_event. destruct (curl_easy_init env evs); reflexivity.
Qed.

Lemma attempted_app (a b : list event) :
  attempted (a ++ b) = (attempted a ++ attempted b)%list.
Proof.
  induction a as [|[p o| |h r s] a IH]; cbn;
    [reflexivity | | assumption | assumption].
  rewrite IH. reflexivity.
Qed.

Lemma attempted_request_event (h : curl_easy) (evs : list event) :
  attempted [request_event env h evs] = [].
Proof.
  unfold request_event. destruct (curl_easy_init env evs); reflexivity.
Qed.

(** *** uploadFile and uploadFileWithPath *)

(** C9 (as amended).  A single-file upload whose local path cannot be
    opened (the stream on it is not open: a file that does not exist, or may
    not be read) fails at once: the result is the failure value, the only
    event is the failed opening, the error stream names the file
    ("Cannot open file: ..."), and no request is made.  The same holds of the
    per-file upload of a tree. *)
Theorem upload_local_file_not_found
  (repoName filePath remotePath commitMessage : string) (st : State) :
  ifstream_read env filePath = None ->
  (fst (uploadFile lib env this repoName filePath commitMessage st)
   = Returns false /\
   history (snd (uploadFile lib env this repoName filePath commitMessage st))
   = (history st ++ [opened filePath false])%list /\
   cerr (snd (uploadFile lib env this repoName filePath commitMessage st))
   = (cerr st ++ [("Cannot open file: " ++ filePath)%string])%list) /\
  (fst (uploadFileWithPath lib env this repoName filePath remotePath
          commitMessage st) = Returns false /\
   history (snd (uploadFileWithPath lib env this repoName filePath remotePath
                   commitMessage st))
   = (history st ++ [opened filePath false])%list /\
   cerr (snd (uploadFileWithPath lib env this repoName filePath remotePath
                commitMessage st))
   = (cerr st ++ [("Cannot open file: " ++ filePath)%string])%list).
Proof.
  intros H. unfold uploadFile, uploadFileWithPath. rewrite H.
  repeat split.
Qed.

Lemma isMember_has_content (response : string) (v : Json.Value) :
  Json.parseFromStream lib response = Returns (Some v) ->
  is_object_or_null v = true ->
  Json.isMember v "content" = Returns (has_content lib response).
Proof.
  intros P S. unfold has_content. rewrite P.
  destruct v; try discriminate S; cbn.
  - reflexivity.
  - destruct (Json.lookup "content" members); reflexivity.
Qed.

Lemma isMember_true_has_content (response : string) (v : Json.Value) :
  Json.parseFromStream lib response = Returns (Some v) ->
  (Json.isMember v "content" = Returns true
   <-> has_content lib response = true).
Proof.
  intros P. unfold has_content. rewrite P.
  destruct v; cbn; try (split; discriminate).
  destruct (Json.lookup "content" members); split;
    (reflexivity || discriminate).
Qed.

(** What a per-file upload computes once the file is read. *)
Lemma uploadFileWithPath_run
  repoName localPath remotePath commitMessage content st :
  ifstream_read env localPath = Some content ->
  uploadFileWithPath lib env this repoName localPath remotePath commitMessage st
  = let h := put_handle lib this repoName remotePath commitMessage content in
    let st1 := after_open localPath true st in
    match Json.parseFromStream lib (response_of env h (history st1)) with
    | Returns (Some v) =>
        match Json.isMember v "content" with
        | Returns b => (Returns b, after_request env h st1)
        | Aborts e => (Aborts e, after_request env h st1)
        end
    | Returns None => (Returns false, after_request env h st1)
    | Aborts e => (Aborts e, after_request env h st1)
    end.
Proof.
  intros R. unfold uploadFileWithPath. rewrite R.
  unfold bind, record. fold (after_open localPath true st).
  rewrite makeRequest_run. cbv zeta. unfold put_handle, lift, ret.
  destruct (Json.parseFromStream lib _) as [[v|]|e]; try reflexivity;
    destruct (Json.isMember v "content"); reflexivity.
Qed.

Lemma uploadFileWithPath_history
  repoName localPath remotePath commitMessage content st :
  ifstream_read env localPath = Some content ->
  history (snd (uploadFileWithPath lib env this repoName localPath remotePath
                  commitMessage st))
  = (history st ++
     [opened localPath true;
      request_event env
        (put_handle lib this repoName remotePath commitMessage content)
        (history st ++ [opened localPath true])])%list.
Proof.
  intros R. rewrite (uploadFileWithPath_run _ _ _ _ _ _ R). cbv zeta.
  destruct (Json.parseFromStream lib _) as [[v|]|e];
    try apply after_open_request_history.
  destruct (Json.isMember v "content"); apply after_open_request_history.
Qed.

Lemma uploadFileWithPath_result
  repoName localPath remotePath commitMessage content st :
  ifstream_read env localPath = Some content ->
  let response :=
    response_of env
      (put_handle lib this repoName remotePath commitMessage content)
      (history st ++ [opened localPath true]) in
  (fst (uploadFileWithPath lib env this repoName localPath remotePath
          commitMessage st) = Returns true
   <-> has_content lib response = true) /\
  (shaped lib response ->
   fst (uploadFileWithPath lib env this repoName localPath remotePath
          commitMessage st)
   = Returns (has_content lib response)).
Proof.
  intros R response. rewrite (uploadFileWithPath_run _ _ _ _ _ _ R). cbv zeta.
  change (history (after_open localPath true st))
    with (history st ++ [opened localPath true])%list.
  fold response. unfold shaped.
  destruct (Json.parseFromStream lib response) as [[v|]|e] eqn:P.
  - pose proof (isMember_true_has_content response v P) as T.
    pose proof (isMember_has_content response v P) as S.
    destruct (Json.isMember v "content") as [b|e]; cbn [fst].
    + split.
      * rewrite <- T. split; intros H; [rewrite H; reflexivity | ].
        injection H as ->. reflexivity.
      * intros Hs. specialize (S Hs). injection S as ->. reflexivity.
    + split.
      * split; [discriminate|]. intros H. apply T in H. discriminate.
      * intros Hs. specialize (S Hs). discriminate.
  - cbn [fst]. unfold has_content. rewrite P.
    split; [split; discriminate | reflexivity].
  - cbn [fst]. unfold has_content. rewrite P.
    split; [split; discriminate | intros []].
Qed.

(** What a single-file upload computes once the file is read. *)
Lemma uploadFile_run repoName filePath commitMessage content st :
  ifstream_read env filePath = Some content ->
  uploadFile lib env this repoName filePath commitMessage st
  = let fileName := path_filename env filePath in
    let h := put_handle lib this repoName fileName commitMessage content in
    let st1 := after_open filePath true st in
    let response := response_of env h (history st1) in
    match Json.parseFromStream lib response with
    | Returns (Some v) =>
        match Json.isMember v "content" with
        | Returns true =>
            (Returns true,
             snd (print_cout ("File uploaded successfully: " ++ fileName)
                    (after_request env h st1)))
        | Returns false =>
            (Returns false,
             snd (print_cerr ("Failed to upload file: " ++ response)
                    (after_request env h st1)))
        | Aborts e => (Aborts e, after_request env h st1)
        end
    | Returns None =>
        (Returns false,
         snd (print_cerr ("Failed to upload file: " ++ response)
                (after_request env h st1)))
    | Aborts e => (Aborts e, after_request env h st1)
    end.
Proof.
  intros R. unfold uploadFile. rewrite R.
  unfold bind, record. fold (after_open filePath true st).
  rewrite makeRequest_run. cbv zeta. unfold put_handle, lift, ret.
  destruct (Json.parseFromStream lib _) as [[v|]|e]; try reflexivity;
    destruct (Json.isMember v "content") as [[|]|]; reflexivity.
Qed.

(** C1 (as amended).  A single-file upload whose local file is read adds two
    events: the opening of the file and one request, made with the handle of a
    PUT to the contents URL of the file name.  The body is the text of the
    object with the members [message] and [content]; it has no member [sha],
    and no GET is made, whatever the remote holds at that path. *)
Theorem uploadFile_issues_single_put
  repoName filePath commitMessage content st :
  ifstream_read env filePath = Some content ->
  let h :=
    put_handle lib this repoName (path_filename env filePath) commitMessage
      content in
  history (snd (uploadFile lib env this repoName filePath commitMessage st))
  = (history st ++
     [opened filePath true;
      request_event env h (history st ++ [opened filePath true])])%list /\
  transfers [request_event env h (history st ++ [opened filePath true])]
  = (if curl_easy_init env (history st ++ [opened filePath true])
     then [h] else []) /\
  http_method h = "PUT" /\
  http_body h
  = Some (Json.writeString lib
            (upload_payload commitMessage (Base64.base64_encode content))) /\
  Json.isMember
    (upload_payload commitMessage (Base64.base64_encode content)) "sha"
  = Returns false.
Proof.
  intros R h. split; [| split; [| repeat split]].
  - rewrite (uploadFile_run _ _ _ _ _ R). cbv zeta. fold h.
    destruct (Json.parseFromStream lib _) as [[v|]|e];
      try apply after_open_request_history.
    destruct (Json.isMember v "content") as [[|]|];
      apply after_open_request_history.
  - apply transfers_request_event.
Qed.

(** C10 (as amended).  An upload whose local file is read reports success
    exactly when the response parses and its root has a member [content];
    when the response does not parse (the empty response of a failed transfer
    included) or parses to an object or to null without that member, the
    result is the one failure value [false]. *)
Theorem upload_success_iff_content
  repoName filePath remotePath commitMessage content st :
  ifstream_read env filePath = Some content ->
  (let response :=
     response_of env
       (put_handle lib this repoName (path_filename env filePath)
          commitMessage content)
       (history st ++ [opened filePath true]) in
   (fst (uploadFile lib env this repoName filePath commitMessage st)
    = Returns true
    <-> has_content lib response = true) /\
   (shaped lib response ->
    fst (uploadFile lib env this repoName filePath commitMessage st)
    = Returns (has_content lib response))) /\
  (let response :=
     response_of env
       (put_handle lib this repoName remotePath commitMessage content)
       (history st ++ [opened filePath true]) in
   (fst (uploadFileWithPath lib env this repoName filePath remotePath
           commitMessage st) = Returns true
    <-> has_content lib response = true) /\
   (shaped lib response ->
    fst (uploadFileWithPath lib env this repoName filePath remotePath
           commitMessage st)
    = Returns (has_content lib response))).
Proof.
  intros R. split; [| apply uploadFileWithPath_result; exact R].
  intros response. rewrite (uploadFile_run _ _ _ _ _ R). cbv zeta.
  change (history (after_open filePath true st))
    with (history st ++ [opened filePath true])%list.
  fold response. unfold shaped.
  destruct (Json.parseFromStream lib response) as [[v|]|e] eqn:P.
  - pose proof (isMember_true_has_content response v P) as T.
    pose proof (isMember_has_content response v P) as S.
    destruct (Json.isMember v "content") as [[|]|e]; cbn [fst].
    + split; [tauto|]. intros Hs. rewrite <- (S Hs). reflexivity.
    + split.
      * split; [discriminate|]. intros H. apply T in H. discriminate.
      * intros Hs. specialize (S Hs). injection S as <-. reflexivity.
    + split.
      * split; [discriminate|]. intros H. apply T in H. discriminate.
      * intros Hs. specialize (S Hs). discriminate.
  - cbn [fst]. unfold has_content. rewrite P.
    split; [split; discriminate | reflexivity].
  - cbn [fst]. unfold has_content. rewrite P.
    split; [split; discriminate | intros []].
Qed.

(** *** deleteFile *)

(** What [deleteFile] computes. *)
Lemma deleteFile_run repoName filePath commitMessage st :
  deleteFile lib env this repoName filePath commitMessage st
  = let g := get_handle this (contents_url this repoName filePath) in
    let st1 := after_request env g st in
    match Json.parseFromStream lib (response_of env g (history st)) with
    | Returns None =>
        (Returns false, snd (print_cerr "Failed to get file info" st1))
    | Returns (Some v) =>
        match Json.member_asString lib v "sha" with
        | Returns sha =>
            (Returns true,
             snd (print_cout ("File deleted successfully: " ++ filePath)
                    (after_request env
                       (delete_handle lib this repoName filePath commitMessage
                          sha) st1)))
        | Aborts e => (Aborts e, st1)
        end
    | Aborts e => (Aborts e, st1)
    end.
Proof.
  unfold deleteFile. cbv zeta. unfold bind at 1. rewrite makeRequest_run.
  fold (get_handle this (contents_url this repoName filePath)).
  unfold bind at 1. unfold lift at 1.
  destruct (Json.parseFromStream lib _) as [[v|]|e]; try reflexivity.
  unfold bind at 1. unfold lift.
  destruct (Json.member_asString lib v "sha") as [sha|e]; [|reflexivity].
  unfold bind. rewrite makeRequest_run. reflexivity.
Qed.

(** C3 (the code at the failing input, and at every other).  The handle of
    the DELETE carries no post fields: whatever the payload built from the
    message and the hash, no transfer made by [deleteFile] has a body. *)
Theorem deleteFile_sends_no_body repoName filePath commitMessage st :
  (forall sha,
     http_method (delete_handle lib this repoName filePath commitMessage sha)
     = "DELETE" /\
     http_body (delete_handle lib this repoName filePath commitMessage sha)
     = None) /\
  exists new,
    history (snd (deleteFile lib env this repoName filePath commitMessage st))
    = (history st ++ new)%list /\
    Forall (fun h => http_body h = None) (transfers new).
Proof.
  split; [intros sha; split; reflexivity|].
  rewrite deleteFile_run. cbv zeta.
  set (g := get_handle this _).
  assert (F1 : Forall (fun h => http_body h = None)
                 (transfers [request_event env g (history st)])).
  { rewrite transfers_request_event. destruct (curl_easy_init env _); auto. }
  destruct (Json.parseFromStream lib _) as [[v|]|e];
    try (exists [request_event env g (history st)];
         split; [reflexivity | exact F1]).
  destruct (Json.member_asString lib v "sha") as [sha|e];
    try (exists [request_event env g (history st)];
         split; [reflexivity | exact F1]).
  set (d := delete_handle lib this repoName filePath commitMessage sha).
  exists ([request_event env g (history st)]
          ++ [request_event env d (history (after_request env g st))])%list.
  split.
  - cbn [snd print_cout history after_request]. rewrite <- app_assoc.
    reflexivity.
  - rewrite transfers_app. apply Forall_app. split; [exact F1|].
    rewrite transfers_request_event. destruct (curl_easy_init env _); auto.
Qed.

(** C4 (the code at the failing input).  Once the response to the GET has
    parsed and its [sha] member converts to a string, [deleteFile] returns
    [true] and prints "File deleted successfully", whatever the outcome of the
    DELETE. *)
Theorem deleteFile_ignores_delete_outcome
  repoName filePath commitMessage st v sha :
  Json.parseFromStream lib
    (response_of env (get_handle this (contents_url this repoName filePath))
       (history st))
  = Returns (Some v) ->
  Json.member_asString lib v "sha" = Returns sha ->
  fst (deleteFile lib env this repoName filePath commitMessage st)
  = Returns true /\
  cout (snd (deleteFile lib env this repoName filePath commitMessage st))
  = (cout st ++ [("File deleted successfully: " ++ filePath)%string])%list.
Proof.
  intros P S. rewrite deleteFile_run. cbv zeta. rewrite P, S.
  split; reflexivity.
Qed.

(** C2 (the code at the failing input).  When the GET is answered with an
    object that has no member [sha], as the service's "Not Found" error is,
    [deleteFile] goes on to the DELETE, with an empty hash, and returns
    [true]. *)
Theorem deleteFile_absent_content_still_deletes
  repoName filePath commitMessage st members :
  Json.parseFromStream lib
    (response_of env (get_handle this (contents_url this repoName filePath))
       (history st))
  = Returns (Some (Json.objectValue members)) ->
  Json.lookup "sha" members = None ->
  let g := get_handle this (contents_url this repoName filePath) in
  let d := delete_handle lib this repoName filePath commitMessage EmptyString in
  fst (deleteFile lib env this repoName filePath commitMessage st)
  = Returns true /\
  history (snd (deleteFile lib env this repoName filePath commitMessage st))
  = (history st ++
     [request_event env g (history st);
      request_event env d
        (history st ++ [request_event env g (history st)])])%list /\
  http_method d = "DELETE".
Proof.
  intros P L g d. rewrite deleteFile_run. cbv zeta. rewrite P.
  unfold Json.member_asString, Json.subscript. rewrite L.
  cbn [Json.asString].
  split; [reflexivity|]. split; [|reflexivity].
  cbn [snd print_cout history after_request]. rewrite <- app_assoc.
  reflexivity.
Qed.

(** X17.  The one failure [deleteFile] does report: a response to the GET
    that does not parse.  Then the result is [false], the error stream gets
    [Failed to get file info], and no DELETE follows. *)
Lemma deleteFile_unparsable_metadata repoName filePath commitMessage st :
  Json.parseFromStream lib
    (response_of env (get_handle this (contents_url this repoName filePath))
       (history st))
  = Returns None ->
  fst (deleteFile lib env this repoName filePath commitMessage st)
  = Returns false /\
  history (snd (deleteFile lib env this repoName filePath commitMessage st))
  = (history st ++
     [request_event env
        (get_handle this (contents_url this repoName filePath))
        (history st)])%list /\
  cerr (snd (deleteFile lib env this repoName filePath commitMessage st))
  = (cerr (after_request env
             (get_handle this (contents_url this repoName filePath)) st)
     ++ ["Failed to get file info"])%list.
Proof.
  intros P. rewrite deleteFile_run. cbv zeta. rewrite P. repeat split.
Qed.

(** *** uploadDirectory *)

Lemma tally_cons (b c : bool) (results : list bool) :
  tally b (c :: results)
  = (if Bool.eqb b c then 1 else 0) + tally b results.
Proof.
  unfold tally. cbn [filter]. destruct (Bool.eqb b c); cbn [List.length]; lia.
Qed.


(** One round of the loop on a regular file whose relative path is
    computed. *)
Lemma uploadDirectory_loop_entry
  repoName dirPath commitMessage entry rest relativePath s f st :
  is_regular_file entry = Returns true ->
  fs_relative env (entry_path entry) dirPath = Returns relativePath ->
  uploadDirectory_loop lib env this repoName dirPath commitMessage
    (walk_entry entry rest) s f st
  = match uploadFileWithPath lib env this repoName (entry_path entry)
            relativePath commitMessage
            (snd (print_cout ("Uploading: " ++ relativePath ++ "...") st)) with
    | (Returns true, st1) =>
        uploadDirectory_loop lib env this repoName dirPath commitMessage rest
          (s + 1) f st1
    | (Returns false, st1) =>
        uploadDirectory_loop lib env this repoName dirPath commitMessage rest
          s (f + 1) st1
    | (Aborts e, st1) => (Aborts e, st1)
    end.
Proof.
  intros Reg Rel. cbn [uploadDirectory_loop]. rewrite Reg, Rel.
  unfold bind at 1. unfold lift at 1. unfold bind at 1. unfold lift at 1.
  unfold bind at 1. cbn [print_cout snd]. unfold bind at 1.
  destruct (uploadFileWithPath lib env this repoName (entry_path entry)
              relativePath commitMessage _) as [[[|]|e] st1]; reflexivity.
Qed.

(** One round of the loop on an entry that is not a regular file. *)
Lemma uploadDirectory_loop_skip
  repoName dirPath commitMessage entry rest s f st :
  is_regular_file entry = Returns false ->
  uploadDirectory_loop lib env this repoName dirPath commitMessage
    (walk_entry entry rest) s f st
  = uploadDirectory_loop lib env this repoName dirPath commitMessage rest
      s f st.
Proof. intros Reg. cbn [uploadDirectory_loop]. rewrite Reg. reflexivity. Qed.

(** A per-file upload whose file does not open. *)
Lemma uploadFileWithPath_closed
  repoName localPath remotePath commitMessage st :
  ifstream_read env localPath = None ->
  uploadFileWithPath lib env this repoName localPath remotePath commitMessage st
  = (Returns false,
     {| history := (history st ++ [opened localPath false])%list;
        cout := cout st;
        cerr := (cerr st ++ [("Cannot open file: " ++ localPath)%string])%list |}).
Proof. intros R. unfold uploadFileWithPath. rewrite R. reflexivity. Qed.

(** A per-file upload whose file opens and whose response is shaped. *)
Lemma uploadFileWithPath_shaped
  repoName localPath remotePath commitMessage content st :
  ifstream_read env localPath = Some content ->
  let h := put_handle lib this repoName remotePath commitMessage content in
  shaped lib (response_of env h (history st ++ [opened localPath true])) ->
  exists b st',
    uploadFileWithPath lib env this repoName localPath remotePath
      commitMessage st = (Returns b, st') /\
    history st'
    = (history st ++
       [opened localPath true;
        request_event env h (history st ++ [opened localPath true])])%list.
Proof.
  intros R h S.
  pose proof (uploadFileWithPath_result repoName _ remotePath commitMessage
                _ st R) as [_ V].
  cbv zeta in V. specialize (V S).
  pose proof (uploadFileWithPath_history repoName _ remotePath commitMessage
                _ st R) as H.
  destruct (uploadFileWithPath lib env this repoName localPath remotePath
              commitMessage st) as [o st'].
  cbn [fst snd] in V, H. subst o. eexists; eexists.
  split; [reflexivity | exact H].
Qed.

(** The invariant of the loop, when the file system raises no error and the
    responses received are shaped: there is one result per regular file met,
    the counters grow by the numbers of [true] and of [false] among the
    results, the files opened are those regular files in order, and, when a
    handle is obtained for every request, the transfers are the PUTs of the
    files that open, in order. *)
Lemma uploadDirectory_loop_run repoName dirPath commitMessage :
  forall entries successCount failCount st,
  walk_completes env dirPath entries ->
  responses_shaped lib env this repoName dirPath commitMessage entries st ->
  exists results new st',
    uploadDirectory_loop lib env this repoName dirPath commitMessage entries
      successCount failCount st
    = (Returns (successCount + tally true results,
                failCount + tally false results), st') /\
    List.length results = List.length (regular_files entries) /\
    history st' = (history st ++ new)%list /\
    attempted new = regular_files entries /\
    ((forall evs, curl_easy_init env evs = true) ->
     transfers new
     = walk_puts lib env this repoName dirPath commitMessage entries).
Proof.
  induction entries as [|what|entry rest IH]; intros s f st C S.
  - exists [], [], st. cbn. rewrite app_nil_r, !Z.add_0_r. repeat split.
  - destruct C.
  - cbn [walk_completes responses_shaped regular_files walk_puts] in *.
    destruct (is_regular_file entry) as [[|]|e] eqn:Reg; [| |destruct C].
    + destruct (fs_relative env (entry_path entry) dirPath)
        as [relativePath|e] eqn:Rel; [|destruct C].
      destruct S as [Sh S].
      rewrite (uploadDirectory_loop_entry _ _ _ _ _ _ s f st Reg Rel).
      set (st0 := snd (print_cout ("Uploading: " ++ relativePath ++ "...") st))
        in *.
      destruct (ifstream_read env (entry_path entry)) as [content|] eqn:R.
      * destruct (uploadFileWithPath_shaped repoName (entry_path entry)
                    relativePath commitMessage content st0 R Sh)
          as [b [st1 [E H1]]].
        rewrite E in S |- *. cbn [snd] in S.
        change (history st0) with (history st) in H1.
        assert (G : forall s' f',
                  exists results new st',
                    uploadDirectory_loop lib env this repoName dirPath
                      commitMessage rest s' f' st1
                    = (Returns (s' + tally true results,
                                f' + tally false results), st') /\
                    List.length results
                    = List.length (regular_files rest) /\
                    history st' = (history st1 ++ new)%list /\
                    attempted new = regular_files rest /\
                    ((forall evs, curl_easy_init env evs = true) ->
                     transfers new
                     = walk_puts lib env this repoName dirPath commitMessage
                         rest)).
        { intros s' f'. apply IH; assumption. }
        assert (K : forall results new st' (c : bool),
                  List.length results = List.length (regular_files rest) ->
                  history st' = (history st1 ++ new)%list ->
                  attempted new = regular_files rest ->
                  ((forall evs, curl_easy_init env evs = true) ->
                   transfers new
                   = walk_puts lib env this repoName dirPath commitMessage
                       rest) ->
                  List.length (c :: results)
                  = List.length (entry_path entry :: regular_files rest) /\
                  history st'
                  = (history st ++
                     [opened (entry_path entry) true;
                      request_event env
                        (put_handle lib this repoName relativePath
                           commitMessage content)
                        (history st ++ [opened (entry_path entry) true])]
                     ++ new)%list /\
                  attempted
                    ([opened (entry_path entry) true;
                      request_event env
                        (put_handle lib this repoName relativePath
                           commitMessage content)
                        (history st ++ [opened (entry_path entry) true])]
                     ++ new)
                  = entry_path entry :: regular_files rest /\
                  ((forall evs, curl_easy_init env evs = true) ->
                   transfers
                     ([opened (entry_path entry) true;
                       request_event env
                         (put_handle lib this repoName relativePath
                            commitMessage content)
                         (history st ++ [opened (entry_path entry) true])]
                      ++ new)
                   = put_handle lib this repoName relativePath commitMessage
                       content
                     :: walk_puts lib env this repoName dirPath commitMessage
                          rest)).
        { intros results new st' c Hn Hh Ha Ht. repeat split.
          - cbn [List.length]. rewrite Hn. reflexivity.
          - rewrite Hh, H1, <- app_assoc. reflexivity.
          - change [opened (entry_path entry) true; ?e]
              with ([opened (entry_path entry) true] ++ [e])%list.
            rewrite !attempted_app, attempted_request_event, Ha.
            reflexivity.
          - intros I.
            change [opened (entry_path entry) true; ?e]
              with ([opened (entry_path entry) true] ++ [e])%list.
            rewrite !transfers_app, transfers_request_event, I, (Ht I).
            reflexivity. }
        pose (step :=
                [opened (entry_path entry) true;
                 request_event env
                   (put_handle lib this repoName relativePath commitMessage
                      content)
                   (history st ++ [opened (entry_path entry) true])%list]).
        destruct b.
        -- destruct (G (s + 1) f) as [results [new [st' [E' [Hn [Hh [Ha Ht]]]]]]].
           exists (true :: results), (step ++ new)%list, st'. rewrite E', !tally_cons.
           cbn [Bool.eqb]. rewrite Z.add_0_l, Z.add_assoc.
           split; [reflexivity|]. exact (K results new st' true Hn Hh Ha Ht).
        -- destruct (G s (f + 1)) as [results [new [st' [E' [Hn [Hh [Ha Ht]]]]]]].
           exists (false :: results), (step ++ new)%list, st'.
           rewrite E', !tally_cons.
           cbn [Bool.eqb]. rewrite Z.add_0_l, Z.add_assoc.
           split; [reflexivity|]. exact (K results new st' false Hn Hh Ha Ht).
      * rewrite (uploadFileWithPath_closed repoName (entry_path entry)
                   relativePath commitMessage st0 R) in S |- *.
        cbn [snd] in S.
        match type of S with
        | responses_shaped _ _ _ _ _ _ _ ?st1 =>
            destruct (IH s (f + 1) st1 C S)
              as [results [new [st' [E' [Hn [Hh [Ha Ht]]]]]]]
        end.
        exists (false :: results), (opened (entry_path entry) false :: new), st'.
        rewrite E', !tally_cons. cbn [Bool.eqb].
        rewrite Z.add_0_l, Z.add_assoc.
        split; [reflexivity|]. repeat split.
        -- cbn [List.length]. rewrite Hn. reflexivity.
        -- rewrite Hh. cbn [history]. rewrite <- app_assoc. reflexivity.
        -- cbn [attempted]. rewrite Ha. reflexivity.
        -- intros I. cbn [transfers]. exact (Ht I).
    + rewrite (uploadDirectory_loop_skip _ _ _ _ _ s f st Reg).
      apply IH; assumption.
Qed.


Lemma walk_puts_urls repoName dirPath commitMessage entries :
  map CURLOPT_URL
    (walk_puts lib env this repoName dirPath commitMessage entries)
  = map (contents_url this repoName) (remote_paths env dirPath entries) /\
  Forall (fun h => http_method h = "PUT")
    (walk_puts lib env this repoName dirPath commitMessage entries).
Proof.
  induction entries as [|what|entry rest [IHu IHm]];
    [split; [reflexivity | constructor] ..|].
  cbn [walk_puts remote_paths].
  destruct (is_regular_file entry) as [[|]|e];
    [| split; assumption | split; [reflexivity | constructor]].
  destruct (fs_relative env (entry_path entry) dirPath) as [relativePath|e];
    [| split; [reflexivity | constructor]].
  destruct (ifstream_read env (entry_path entry)) as [content|];
    [| split; assumption].
  cbn [map]. rewrite IHu. split; [reflexivity|].
  constructor; [reflexivity | exact IHm].
Qed.

(** C8 (the code at the failing input, and at every other).  In a tree
    upload during which the file system raises no error, the responses are
    shaped and a handle is obtained for every request, the transfers are
    exactly the PUTs of the regular files that open, one each and in the
    order of the walk, and the URL of each ends in
    [fs::relative(entry.path(), dirPath).string()] character for character:
    no separator is replaced and no path is refused. *)
Theorem uploadDirectory_remote_paths repoName dirPath commitMessage st :
  walk_completes env dirPath (recursive_directory_iterator env dirPath) ->
  responses_shaped lib env this repoName dirPath commitMessage
    (recursive_directory_iterator env dirPath) st ->
  (forall evs, curl_easy_init env evs = true) ->
  exists new,
    history (snd (uploadDirectory lib env this repoName dirPath commitMessage st))
    = (history st ++ new)%list /\
    transfers new
    = walk_puts lib env this repoName dirPath commitMessage
        (recursive_directory_iterator env dirPath) /\
    map CURLOPT_URL (transfers new)
    = map (contents_url this repoName)
        (remote_paths env dirPath (recursive_directory_iterator env dirPath)) /\
    Forall (fun h => http_method h = "PUT") (transfers new).
Proof.
  intros C S I.
  destruct (uploadDirectory_loop_run repoName dirPath commitMessage
              (recursive_directory_iterator env dirPath) 0 0 st C S)
    as [results [new [st' [E [_ [Hh [_ Ht]]]]]]].
  specialize (Ht I).
  destruct (walk_puts_urls repoName dirPath commitMessage
              (recursive_directory_iterator env dirPath)) as [U M].
  exists new. rewrite Ht.
  split; [|split; [reflexivity | split; assumption]].
  unfold uploadDirectory. unfold bind at 1. rewrite E. exact Hh.
Qed.

(** *** getUserInfo and initialize *)

Lemma getUserInfo_error_object st members :
  Json.parseFromStream lib
    (response_of env (get_handle this (baseURL this ++ "/user")) (history st))
  = Returns (Some (Json.objectValue members)) ->
  (forall key, In key profile_keys -> Json.lookup key members = None) ->
  exists st', getUserInfo lib env this st = (Returns true, st').
Proof.
  intros P L. unfold getUserInfo. cbv zeta. unfold bind at 1.
  rewrite makeRequest_run.
  fold (get_handle this (baseURL this ++ "/user")).
  unfold bind at 1. unfold lift at 1. rewrite P.
  unfold Json.member_asString, Json.member_asInt, Json.subscript.
  rewrite !L by (cbn; tauto).
  cbn [Json.asString Json.asInt]. unfold bind, lift, ret, print_cout.
  eexists. reflexivity.
Qed.

Lemma getUserInfo_unparsable st :
  Json.parseFromStream lib
    (response_of env (get_handle this (baseURL this ++ "/user")) (history st))
  = Returns None ->
  getUserInfo lib env this st
  = (Returns false,
     after_request env (get_handle this (baseURL this ++ "/user")) st).
Proof.
  intros P. unfold getUserInfo. cbv zeta. unfold bind at 1.
  rewrite makeRequest_run.
  fold (get_handle this (baseURL this ++ "/user")).
  unfold bind, lift. rewrite P. reflexivity.
Qed.

End Runs.

(** C5 (the code at the failing input).  When the probe is answered with an
    object that has none of the profile members, as the service's
    invalid-credentials error is, [initialize] returns the client: the process
    does not exit. *)
Theorem initialize_accepts_error_object
  lib env _token _username st members :
  let api := GitHubAPI_new _token _username in
  Json.parseFromStream lib
    (response_of env (get_handle api (baseURL api ++ "/user")) (history st))
  = Returns (Some (Json.objectValue members)) ->
  (forall key, In key profile_keys -> Json.lookup key members = None) ->
  fst (initialize lib env _token _username st) = Returns api.
Proof.
  intros api P L. unfold initialize. fold api.
  destruct (getUserInfo_error_object lib env api st members P L) as [st' E].
  unfold bind at 1. rewrite E. reflexivity.
Qed.

(** X19.  The one failure the probe does detect: a response that does not
    parse, such as the empty response of a failed transfer.  Then
    [initialize] prints [Authentication failed. Please check your token.] on
    the error stream and the process exits with status 1. *)
Lemma initialize_exits_on_unparsable_response lib env _token _username st :
  let api := GitHubAPI_new _token _username in
  Json.parseFromStream lib
    (response_of env (get_handle api (baseURL api ++ "/user")) (history st))
  = Returns None ->
  fst (initialize lib env _token _username st) = Aborts (Exit 1) /\
  cerr (snd (initialize lib env _token _username st))
  = (cerr (after_request env (get_handle api (baseURL api ++ "/user")) st)
     ++ ["Authentication failed. Please check your token."])%list.
Proof.
  intros api P.
  assert (E : initialize lib env _token _username st
              = (Aborts (Exit 1),
                 snd (print_cerr
                        "Authentication failed. Please check your token."
                        (after_request env
                           (get_handle api (baseURL api ++ "/user")) st)))).
  { unfold initialize. fold api. unfold bind at 1.
    rewrite (getUserInfo_unparsable lib env api st P). reflexivity. }
  rewrite E. split; reflexivity.
Qed.

(** ** The claims on sample worlds *)

Import Worlds.

(** *** Single-file upload *)

(** C1, counterexample.  The remote holds [a.txt] (a GET of its contents URL
    answers with the metadata and its hash) and the local file is read; the
    only transfer of the upload is a PUT, so the write is not preceded by a
    read of the hash. *)
Lemma uploadFile_writes_without_reading :
  Json.parseFromStream Sample.lib
    (response_of existing
       (get_handle Sample.api (contents_url Sample.api "repo" "a.txt")) [])
  = Returns (Some (Json.objectValue [("sha", Json.stringValue sha)])) /\
  map http_method
    (transfers
       (history (snd (uploadFile Sample.lib existing Sample.api
                        "repo" "a.txt" "update" Sample.start))))
  = ["PUT"] /\
  Spec.two_step []
    (transfers
       (history (snd (uploadFile Sample.lib existing Sample.api
                        "repo" "a.txt" "update" Sample.start))))
  = false.
Proof. vm_compute. repeat split. Qed.

(** The amended C1 on that world. *)
Lemma uploadFile_issues_single_put_witness :
  ifstream_read existing "a.txt" = Some hi /\
  let h := put_handle Sample.lib Sample.api "repo" "a.txt" "update" hi in
  history (snd (uploadFile Sample.lib existing Sample.api
                  "repo" "a.txt" "update" Sample.start))
  = [opened "a.txt" true; request_event existing h [opened "a.txt" true]] /\
  transfers [request_event existing h [opened "a.txt" true]] = [h] /\
  http_method h = "PUT" /\
  http_body h
  = Some (Json.writeString Sample.lib
            (upload_payload "update" (Base64.base64_encode hi))) /\
  Json.isMember (upload_payload "update" (Base64.base64_encode hi)) "sha"
  = Returns false.
Proof.
  split; [reflexivity|].
  exact (uploadFile_issues_single_put Sample.lib existing Sample.api
           "repo" "a.txt" "update" hi Sample.start eq_refl).
Defined.

(** C9, counterexample.  [docs] is a directory, not a readable file: an
    input stream on it opens and no byte can be read.  The upload does not
    fail: the file is taken to be empty, a PUT with an empty [content] is
    made, and the operation reports success.  The per-file upload of a tree
    does the same. *)
Lemma uploadFile_uploads_a_directory :
  regular_files (recursive_directory_iterator MoreWorlds.a_directory "docs")
  = ["docs/a.txt"] /\
  ifstream_read MoreWorlds.a_directory "docs" = Some [] /\
  (fst (uploadFile Sample.lib MoreWorlds.a_directory Sample.api
          "repo" "docs" "add" Sample.start) = Returns true /\
   history (snd (uploadFile Sample.lib MoreWorlds.a_directory Sample.api
                   "repo" "docs" "add" Sample.start))
   = [opened "docs" true;
      performed
        (put_handle Sample.lib Sample.api "repo" "docs" "add" [])
        0 Sample.doc_created] /\
   http_body (put_handle Sample.lib Sample.api "repo" "docs" "add" [])
   = Some (Json.writeString Sample.lib (upload_payload "add" EmptyString)) /\
   cerr (snd (uploadFile Sample.lib MoreWorlds.a_directory Sample.api
                "repo" "docs" "add" Sample.start)) = []) /\
  (fst (uploadFileWithPath Sample.lib MoreWorlds.a_directory Sample.api
          "repo" "docs" "docs" "add" Sample.start) = Returns true /\
   map http_method
     (transfers
        (history (snd (uploadFileWithPath Sample.lib MoreWorlds.a_directory
                         Sample.api "repo" "docs" "docs" "add"
                         Sample.start))))
   = ["PUT"]).
Proof. vm_compute. repeat split. Qed.

(** C9 on a world without local files. *)
Lemma upload_local_file_not_found_witness :
  ifstream_read empty_disk "gone.txt" = None /\
  (fst (uploadFile Sample.lib empty_disk Sample.api
          "repo" "gone.txt" "add" Sample.start) = Returns false /\
   history (snd (uploadFile Sample.lib empty_disk Sample.api
                   "repo" "gone.txt" "add" Sample.start))
   = [opened "gone.txt" false] /\
   cerr (snd (uploadFile Sample.lib empty_disk Sample.api
                "repo" "gone.txt" "add" Sample.start))
   = ["Cannot open file: gone.txt"]) /\
  (fst (uploadFileWithPath Sample.lib empty_disk Sample.api
          "repo" "gone.txt" "docs/gone.txt" "add" Sample.start)
   = Returns false /\
   history (snd (uploadFileWithPath Sample.lib empty_disk Sample.api
                   "repo" "gone.txt" "docs/gone.txt" "add" Sample.start))
   = [opened "gone.txt" false] /\
   cerr (snd (uploadFileWithPath Sample.lib empty_disk Sample.api
                "repo" "gone.txt" "docs/gone.txt" "add" Sample.start))
   = ["Cannot open file: gone.txt"]).
Proof.
  split; [reflexivity|].
  exact (upload_local_file_not_found Sample.lib empty_disk Sample.api
           "repo" "gone.txt" "docs/gone.txt" "add" Sample.start eq_refl).
Defined.

(** C10, counterexample.  The response [[]] parses and has no member
    [content], yet neither upload function returns the failure value: the
    accessor raises and the call ends in a [Json::LogicError]. *)
Lemma upload_aborts_on_array_response :
  ifstream_read arrays "proj/a.txt" = Some hi /\
  Json.parseFromStream Sample.lib
    (response_of arrays
       (put_handle Sample.lib Sample.api "repo" "a.txt" "init" hi)
       [opened "proj/a.txt" true])
  = Returns (Some (Json.arrayValue [])) /\
  fst (uploadFile Sample.lib arrays Sample.api
         "repo" "proj/a.txt" "init" Sample.start)
  = Aborts (LogicError
      "in Json::Value::find(begin, end): requires objectValue or nullValue") /\
  fst (uploadFileWithPath Sample.lib arrays Sample.api
         "repo" "proj/a.txt" "a.txt" "init" Sample.start)
  = Aborts (LogicError
      "in Json::Value::find(begin, end): requires objectValue or nullValue").
Proof. vm_compute. repeat split. Qed.

(** The amended C10 on a world whose remote accepts the PUT. *)
Lemma upload_success_iff_content_witness :
  ifstream_read accepting_one "a.txt" = Some hi /\
  (let response :=
     response_of accepting_one
       (put_handle Sample.lib Sample.api "repo"
          (path_filename accepting_one "a.txt") "add" hi)
       [opened "a.txt" true] in
   (fst (uploadFile Sample.lib accepting_one Sample.api
           "repo" "a.txt" "add" Sample.start) = Returns true
    <-> has_content Sample.lib response = true) /\
   (shaped Sample.lib response ->
    fst (uploadFile Sample.lib accepting_one Sample.api
           "repo" "a.txt" "add" Sample.start)
    = Returns (has_content Sample.lib response))) /\
  (let response :=
     response_of accepting_one
       (put_handle Sample.lib Sample.api "repo" "docs/a.txt" "add" hi)
       [opened "a.txt" true] in
   (fst (uploadFileWithPath Sample.lib accepting_one Sample.api
           "repo" "a.txt" "docs/a.txt" "add" Sample.start) = Returns true
    <-> has_content Sample.lib response = true) /\
   (shaped Sample.lib response ->
    fst (uploadFileWithPath Sample.lib accepting_one Sample.api
           "repo" "a.txt" "docs/a.txt" "add" Sample.start)
    = Returns (has_content Sample.lib response))).
Proof.
  split; [reflexivity|].
  exact (upload_success_iff_content Sample.lib accepting_one Sample.api
           "repo" "a.txt" "docs/a.txt" "add" hi Sample.start eq_refl).
Defined.

(** The same world, evaluated: the accepted upload reports success. *)
Example upload_accepted :
  fst (uploadFile Sample.lib accepting_one Sample.api
         "repo" "a.txt" "add" Sample.start) = Returns true /\
  cout (snd (uploadFile Sample.lib accepting_one Sample.api
               "repo" "a.txt" "add" Sample.start))
  = ["File uploaded successfully: a.txt"].
Proof. vm_compute. split; reflexivity. Qed.

(** *** Tree upload *)


(** The original claim does not hold of a root that does not exist either:
    the iterator throws, nothing catches the error, and no summary is
    printed. *)
Example uploadDirectory_missing_root :
  fst (uploadDirectory Sample.lib MoreWorlds.missing_root Sample.api
         "repo" "gone" "init" Sample.start)
  = Aborts (filesystem_error
      "filesystem error: recursive directory iterator cannot open directory: No such file or directory [gone]") /\
  cout (snd (uploadDirectory Sample.lib MoreWorlds.missing_root Sample.api
               "repo" "gone" "init" Sample.start)) = [].
Proof. vm_compute. split; reflexivity. Qed.


(** The same world, evaluated: of three regular files the second cannot be
    opened; the third is still uploaded, and the summary counts two and one. *)
Example uploadDirectory_partial_failure :
  fst (uploadDirectory Sample.lib accepting Sample.api
         "repo" "proj" "init" Sample.start) = Returns false /\
  attempted (history (snd (uploadDirectory Sample.lib accepting Sample.api
                             "repo" "proj" "init" Sample.start)))
  = ["proj/a.txt"; "proj/sub/b.txt"; "proj/sub/c.txt"] /\
  cout (snd (uploadDirectory Sample.lib accepting Sample.api
               "repo" "proj" "init" Sample.start))
  = ["Uploading: a.txt..."; "Uploading: sub/b.txt..."; "Uploading: sub/c.txt...";
     (nl ++ "Upload complete!")%string; "Success: 2 files"; "Failed: 1 files"].
Proof. vm_compute. repeat split. Qed.

(** C8 at its failing input: on a platform whose separator is the
    backslash, the one regular file of the walk is sent to a URL that ends in
    [sub\b.bin]. *)
Lemma uploadDirectory_remote_paths_witness :
  remote_paths windows "proj" (recursive_directory_iterator windows "proj")
  = ["sub\b.bin"] /\
  walk_completes windows "proj" (recursive_directory_iterator windows "proj") /\
  responses_shaped Sample.lib windows Sample.api "repo" "proj" "init"
    (recursive_directory_iterator windows "proj") Sample.start /\
  (forall evs, curl_easy_init windows evs = true) /\
  exists new,
    history (snd (uploadDirectory Sample.lib windows Sample.api
                    "repo" "proj" "init" Sample.start))
    = (history Sample.start ++ new)%list /\
    transfers new
    = walk_puts Sample.lib windows Sample.api "repo" "proj" "init"
        (recursive_directory_iterator windows "proj") /\
    map CURLOPT_URL (transfers new)
    = map (contents_url Sample.api "repo")
        (remote_paths windows "proj"
           (recursive_directory_iterator windows "proj")) /\
    Forall (fun h => http_method h = "PUT") (transfers new).
Proof.
  assert (C : walk_completes windows "proj"
                (recursive_directory_iterator windows "proj"))
    by exact I.
  assert (S : responses_shaped Sample.lib windows Sample.api
                "repo" "proj" "init"
                (recursive_directory_iterator windows "proj") Sample.start)
    by (vm_compute; repeat split).
  split; [reflexivity|]. split; [exact C|]. split; [exact S|].
  split; [intros evs; reflexivity|].
  exact (uploadDirectory_remote_paths Sample.lib windows Sample.api
           "repo" "proj" "init" Sample.start C S (fun _ => eq_refl)).
Defined.

(** The same input against the words of the specification, and a link that
    leaves the root.  Where the separator is the backslash, the remote path
    of [proj\sub\b.bin] is [sub\b.bin], not [sub/b.bin]; and the path
    [../outside.txt] of a resolved link is uploaded like any other. *)
Lemma uploadDirectory_keeps_native_paths :
  (fs_relative windows "proj\sub\b.bin" "proj" = Returns "sub\b.bin" /\
   Spec.toRemotePath "\"%char "sub\b.bin" = Some "sub/b.bin" /\
   map CURLOPT_URL
     (transfers (history (snd (uploadDirectory Sample.lib windows Sample.api
                                 "repo" "proj" "init" Sample.start))))
   = ["https://api.github.com/repos/octocat/repo/contents/sub\b.bin"]) /\
  (fs_relative linked "proj/link" "proj" = Returns "../outside.txt" /\
   Spec.toRemotePath "/"%char "../outside.txt" = None /\
   map CURLOPT_URL
     (transfers (history (snd (uploadDirectory Sample.lib linked Sample.api
                                 "repo" "proj" "init" Sample.start))))
   = ["https://api.github.com/repos/octocat/repo/contents/../outside.txt"] /\
   fst (uploadDirectory Sample.lib linked Sample.api
          "repo" "proj" "init" Sample.start) = Returns true).
Proof. vm_compute. repeat split. Qed.

(** *** Deletion *)

(** C2 at its failing input: the remote holds nothing at [missing.txt]. *)
Lemma deleteFile_absent_content_still_deletes_witness :
  Json.parseFromStream Sample.lib
    (response_of absent
       (get_handle Sample.api (contents_url Sample.api "repo" "missing.txt"))
       (history Sample.start))
  = Returns (Some (Json.objectValue [("message", Json.stringValue "Not Found")])) /\
  Json.lookup "sha" [("message", Json.stringValue "Not Found")] = None /\
  let g := get_handle Sample.api (contents_url Sample.api "repo" "missing.txt") in
  let d := delete_handle Sample.lib Sample.api "repo" "missing.txt" "remove"
             EmptyString in
  fst (deleteFile Sample.lib absent Sample.api
         "repo" "missing.txt" "remove" Sample.start) = Returns true /\
  history (snd (deleteFile Sample.lib absent Sample.api
                  "repo" "missing.txt" "remove" Sample.start))
  = (history Sample.start ++
     [request_event absent g (history Sample.start);
      request_event absent d
        (history Sample.start
         ++ [request_event absent g (history Sample.start)])])%list /\
  http_method d = "DELETE".
Proof.
  split; [reflexivity|]. split; [reflexivity|].
  exact (deleteFile_absent_content_still_deletes Sample.lib absent Sample.api
           "repo" "missing.txt" "remove" Sample.start
           [("message", Json.stringValue "Not Found")] eq_refl eq_refl).
Defined.

(** The same world, evaluated: a GET, then a DELETE without a body. *)
Example deleteFile_absent_transfers :
  map (fun h => (http_method h, http_body h))
    (transfers (history (snd (deleteFile Sample.lib absent Sample.api
                                "repo" "missing.txt" "remove" Sample.start))))
  = [("GET", None); ("DELETE", None)] /\
  cout (snd (deleteFile Sample.lib absent Sample.api
               "repo" "missing.txt" "remove" Sample.start))
  = ["File deleted successfully: missing.txt"].
Proof. vm_compute. split; reflexivity. Qed.

(** C4 at its failing inputs: the DELETE is declined, or fails to connect. *)
Lemma deleteFile_ignores_delete_outcome_witness :
  (Json.parseFromStream Sample.lib
     (response_of rejecting
        (get_handle Sample.api (contents_url Sample.api "repo" "a.txt"))
        (history Sample.start))
   = Returns (Some (Json.objectValue [("sha", Json.stringValue sha)])) /\
   Json.member_asString Sample.lib
     (Json.objectValue [("sha", Json.stringValue sha)]) "sha" = Returns sha /\
   fst (deleteFile Sample.lib rejecting Sample.api
          "repo" "a.txt" "remove" Sample.start) = Returns true /\
   cout (snd (deleteFile Sample.lib rejecting Sample.api
                "repo" "a.txt" "remove" Sample.start))
   = (cout Sample.start ++ ["File deleted successfully: a.txt"])%list) /\
  (Json.parseFromStream Sample.lib
     (response_of unreachable
        (get_handle Sample.api (contents_url Sample.api "repo" "a.txt"))
        (history Sample.start))
   = Returns (Some (Json.objectValue [("sha", Json.stringValue sha)])) /\
   fst (deleteFile Sample.lib unreachable Sample.api
          "repo" "a.txt" "remove" Sample.start) = Returns true /\
   cout (snd (deleteFile Sample.lib unreachable Sample.api
                "repo" "a.txt" "remove" Sample.start))
   = (cout Sample.start ++ ["File deleted successfully: a.txt"])%list).
Proof.
  split.
  - split; [reflexivity|]. split; [reflexivity|].
    exact (deleteFile_ignores_delete_outcome Sample.lib rejecting Sample.api
             "repo" "a.txt" "remove" Sample.start
             (Json.objectValue [("sha", Json.stringValue sha)]) sha
             eq_refl eq_refl).
  - split; [reflexivity|].
    exact (deleteFile_ignores_delete_outcome Sample.lib unreachable Sample.api
             "repo" "a.txt" "remove" Sample.start
             (Json.objectValue [("sha", Json.stringValue sha)]) sha
             eq_refl eq_refl).
Defined.

(** The two worlds, evaluated: the DELETE is declined in the first and fails
    to connect in the second. *)
Example deleteFile_outcomes_of_delete :
  map (fun ev => match ev with
                 | performed h res response => (http_method h, res, response)
                 | _ => (EmptyString, 0, EmptyString)
                 end)
    (history (snd (deleteFile Sample.lib rejecting Sample.api
                     "repo" "a.txt" "remove" Sample.start)))
  = [("GET", 0, Sample.doc_metadata); ("DELETE", 0, Sample.doc_rejected)] /\
  map (fun ev => match ev with
                 | performed h res response => (http_method h, res, response)
                 | _ => (EmptyString, 0, EmptyString)
                 end)
    (history (snd (deleteFile Sample.lib unreachable Sample.api
                     "repo" "a.txt" "remove" Sample.start)))
  = [("GET", 0, Sample.doc_metadata); ("DELETE", 7, EmptyString)].
Proof. vm_compute. split; reflexivity. Qed.

(** *** The probe at the start of a session *)

(** C5 at its failing input: the token is not valid. *)
Lemma initialize_accepts_error_object_witness :
  Json.parseFromStream Sample.lib
    (response_of bad_credentials
       (get_handle (GitHubAPI_new "expired" "octocat")
          (baseURL (GitHubAPI_new "expired" "octocat") ++ "/user"))
       (history Sample.start))
  = Returns
      (Some (Json.objectValue [("message", Json.stringValue "Bad credentials")])) /\
  fst (initialize Sample.lib bad_credentials "expired" "octocat" Sample.start)
  = Returns (GitHubAPI_new "expired" "octocat").
Proof.
  split; [reflexivity|].
  refine (initialize_accepts_error_object Sample.lib bad_credentials
            "expired" "octocat" Sample.start
            [("message", Json.stringValue "Bad credentials")] eq_refl _).
  intros key H. cbn in H.
  repeat (destruct H as [<- | H]; [reflexivity|]). destruct H.
Defined.

(** The same world, evaluated: the probe prints an empty profile and the
    session starts. *)
Example initialize_bad_credentials :
  cout (snd (initialize Sample.lib bad_credentials "expired" "octocat"
               Sample.start))
  = [(nl ++ "User Information:")%string; "Username: "; "Name: "; "Email: ";
     "Public Repos: 0"; "Followers: 0"; "Following: 0";
     (nl ++ "Authentication successful!")%string] /\
  cerr (snd (initialize Sample.lib bad_credentials "expired" "octocat"
               Sample.start)) = [].
Proof. vm_compute. split; reflexivity. Qed.

(** *** The base64 filter *)



Lemma huge_length : Z.of_nat (List.length huge) = 2 ^ 31.
Proof. unfold huge. rewrite repeat_length. apply Z2Nat.id. lia. Qed.


Lemma all_bytes_length :
  Z.of_nat (List.length all_bytes) <= LIMIT_BEFORE_EXPANSION / 4 * 3.
Proof. vm_compute. discriminate. Qed.


(** A longer input, evaluated: 2050 bytes pass through the filter in two
    rounds of 1023 bytes and a round of three, and one byte is left for the
    flush. *)
Example base64_encode_rounds :
  base64_encode (repeat x4d 2050)
  = EVP_EncodeBlock (repeat x4d 2050) /\
  String.length (base64_encode (repeat x4d 2050)) = 2736%nat.
Proof. vm_compute. split; reflexivity. Qed.

(** The empty input and the three tail lengths, evaluated. *)
Example base64_encode_samples :
  base64_encode [] = EmptyString /\
  base64_encode [x4d] = "TQ==" /\
  base64_encode [x4d; x61] = "TWE=" /\
  base64_encode [x4d; x61; x6e] = "TWFu" /\
  base64_encode hi = "aGk=".
Proof. vm_compute. repeat split. Qed.

(** * The rest of the program *)

(** ** The base64 filter *)

(** X1.  The encoding of an input of [n] bytes, [n] at most 1207959549, has
    exactly [4 * ceil(n / 3)] characters: the size of the [content] member
    grows by four characters for every three bytes of the file. *)
Theorem base64_encode_length (b : list byte) :
  Z.of_nat (List.length b) <= LIMIT_BEFORE_EXPANSION / 4 * 3 ->
  Z.of_nat (String.length (base64_encode b))
  = 4 * ((Z.of_nat (List.length b) + 2) / 3).
Proof.
  intros H. rewrite (base64_encode_whole b H).
  apply EVP_EncodeBlock_length.
Qed.

Lemma base64_encode_length_witness :
  Z.of_nat (List.length all_bytes) <= LIMIT_BEFORE_EXPANSION / 4 * 3 /\
  Z.of_nat (String.length (base64_encode all_bytes)) = 344.
Proof.
  split; [exact all_bytes_length|].
  exact (base64_encode_length all_bytes all_bytes_length).
Defined.

Lemma conv_bin2ascii_alphabet (x : Z) :
  is_base64_char (conv_bin2ascii x) = true.
Proof.
  unfold is_base64_char. destruct (conv_round' x) as [-> _]. reflexivity.
Qed.

Lemma EVP_EncodeBlock_alphabet (f : list byte) :
  all_chars is_base64_char (EVP_EncodeBlock f) = true.
Proof.
  induction f as [| f0 | f0 f1 | f0 f1 f2 rest IH] using list_ind3;
    cbn [EVP_EncodeBlock all_chars]; cbv zeta;
    rewrite ?conv_bin2ascii_alphabet, ?IH; reflexivity.
Qed.

Lemma all_chars_append (p : ascii -> bool) (a b : string) :
  all_chars p (a ++ b) = all_chars p a && all_chars p b.
Proof.
  induction a as [|c a IH]; cbn; [reflexivity|].
  rewrite IH, andb_assoc. reflexivity.
Qed.

Lemma mem_write_alphabet (sink sink' : BUF_MEM) (chunk : string) :
  all_chars is_base64_char (buf_data sink) = true ->
  all_chars is_base64_char chunk = true ->
  mem_write sink chunk = Some sink' ->
  all_chars is_base64_char (buf_data sink') = true.
Proof.
  intros A C W. unfold mem_write in W.
  destruct (BUF_MEM_grow_clean sink _); [|discriminate W].
  injection W as <-. cbn [buf_data]. rewrite all_chars_append, A, C.
  reflexivity.
Qed.

Lemma b64_write_alphabet (fuel : nat) :
  forall (input : list byte) (sink : BUF_MEM),
  all_chars is_base64_char (buf_data sink) = true ->
  all_chars is_base64_char (ctx_buf (fst (b64_write fuel input sink))) = true /\
  all_chars is_base64_char (buf_data (snd (b64_write fuel input sink))) = true.
Proof.
  induction fuel as [|fuel IH]; intros input sink A.
  - split; [reflexivity | exact A].
  - destruct input as [|b0 input']; [split; [reflexivity | exact A]|].
    cbn [b64_write]. cbv zeta.
    destruct (_ <? 3)%nat; [split; [reflexivity | exact A]|].
    match goal with
    | |- context [mem_write sink ?block] =>
        destruct (mem_write sink block) as [sink'|] eqn:W;
          [apply IH;
           exact (mem_write_alphabet sink sink' block A
                    (EVP_EncodeBlock_alphabet _) W)
          | split; [apply EVP_EncodeBlock_alphabet | exact A]]
    end.
Qed.

Lemma BIO_flush_alphabet (ctx : BIO_B64_CTX) (sink : BUF_MEM) :
  all_chars is_base64_char (ctx_buf ctx) = true ->
  all_chars is_base64_char (buf_data sink) = true ->
  all_chars is_base64_char (buf_data (BIO_flush ctx sink)) = true.
Proof.
  intros B A. unfold BIO_flush.
  assert (P : forall pending,
            match ctx_buf ctx with
            | EmptyString => Some sink
            | String _ _ => mem_write sink (ctx_buf ctx)
            end = pending ->
            match pending with
            | Some sink' => all_chars is_base64_char (buf_data sink') = true
            | None => True
            end).
  { intros pending E. destruct (ctx_buf ctx) as [|c block] eqn:Eb.
    - subst pending. exact A.
    - destruct pending as [sink'|]; [|exact I].
      exact (mem_write_alphabet sink sink' _ A B E). }
  specialize (P _ eq_refl).
  destruct (ctx_buf ctx) as [|c block];
    [|destruct (mem_write sink (String c block)) as [sink'|]; [|exact A]].
  - destruct (ctx_tmp ctx) as [|t tmp]; [exact A|].
    destruct (mem_write sink (EVP_EncodeBlock (t :: tmp))) as [sink''|] eqn:W;
      [|exact A].
    exact (mem_write_alphabet sink sink'' _ A (EVP_EncodeBlock_alphabet _) W).
  - destruct (ctx_tmp ctx) as [|t tmp]; [exact P|].
    destruct (mem_write sink' (EVP_EncodeBlock (t :: tmp))) as [sink''|] eqn:W;
      [|exact P].
    exact (mem_write_alphabet sink' sink'' _ P (EVP_EncodeBlock_alphabet _) W).
Qed.

(** X2.  Whatever the input, every character of the output of
    [base64_encode] is one of the 64 characters of the alphabet or the
    padding character: the text placed in the [content] member never holds a
    quote, a backslash, a control character or a line break. *)
Theorem base64_encode_alphabet (b : list byte) :
  all_chars is_base64_char (base64_encode b) = true.
Proof.
  unfold base64_encode, BIO_write.
  destruct (_ <=? 0); [reflexivity|].
  pose proof (b64_write_alphabet
                (Z.to_nat (to_int (Z.of_nat (List.length b))))
                (firstn (Z.to_nat (to_int (Z.of_nat (List.length b)))) b)
                {| buf_data := EmptyString; buf_max := 0 |} eq_refl)
    as [B A].
  destruct (b64_write _ _ _) as [ctx sink].
  exact (BIO_flush_alphabet ctx sink B A).
Qed.

(** X3.  Two different inputs of at most 1207959549 bytes never have the
    same encoding. *)
Theorem base64_encode_injective (a b : list byte) :
  Z.of_nat (List.length a) <= LIMIT_BEFORE_EXPANSION / 4 * 3 ->
  Z.of_nat (List.length b) <= LIMIT_BEFORE_EXPANSION / 4 * 3 ->
  a <> b ->
  base64_encode a <> base64_encode b.
Proof.
  intros Ha Hb N E. apply N.
  rewrite (base64_encode_whole a Ha), (base64_encode_whole b Hb) in E.
  apply (f_equal base64_decode) in E.
  rewrite !EVP_EncodeBlock_decode in E. injection E as E. exact E.
Qed.

Lemma base64_encode_injective_witness :
  Z.of_nat (List.length [x4d; x61]) <= LIMIT_BEFORE_EXPANSION / 4 * 3 /\
  Z.of_nat (List.length [x4d; x61; x00]) <= LIMIT_BEFORE_EXPANSION / 4 * 3 /\
  base64_encode [x4d; x61] <> base64_encode [x4d; x61; x00].
Proof.
  assert (Ha : Z.of_nat (List.length [x4d; x61])
               <= LIMIT_BEFORE_EXPANSION / 4 * 3)
    by (vm_compute; discriminate).
  assert (Hb : Z.of_nat (List.length [x4d; x61; x00])
               <= LIMIT_BEFORE_EXPANSION / 4 * 3)
    by (vm_compute; discriminate).
  split; [exact Ha|]. split; [exact Hb|].
  apply (base64_encode_injective [x4d; x61] [x4d; x61; x00] Ha Hb).
  discriminate.
Defined.

(** X4.  When the length of [a] is a multiple of three and [a ++ b] has at
    most 1207959549 bytes, the encoding of [a ++ b] is the encoding of [a]
    followed by that of [b]: padding occurs at the end of the whole output
    only. *)
Theorem base64_encode_app (a b : list byte) :
  Z.of_nat (List.length a) mod 3 = 0 ->
  Z.of_nat (List.length (a ++ b)) <= LIMIT_BEFORE_EXPANSION / 4 * 3 ->
  base64_encode (a ++ b) = base64_encode a ++ base64_encode b.
Proof.
  intros M L. pose proof L as L'. rewrite length_app, Nat2Z.inj_add in L'.
  rewrite (base64_encode_whole (a ++ b) L).
  rewrite (base64_encode_whole a) by lia.
  rewrite (base64_encode_whole b) by lia.
  apply EVP_EncodeBlock_app, M.
Qed.

Lemma base64_encode_app_witness :
  Z.of_nat (List.length [x4d; x61; x6e]) mod 3 = 0 /\
  Z.of_nat (List.length ([x4d; x61; x6e] ++ hi))
  <= LIMIT_BEFORE_EXPANSION / 4 * 3 /\
  base64_encode ([x4d; x61; x6e] ++ hi) = "TWFu" ++ "aGk=".
Proof.
  assert (L : Z.of_nat (List.length ([x4d; x61; x6e] ++ hi))
              <= LIMIT_BEFORE_EXPANSION / 4 * 3)
    by (vm_compute; discriminate).
  split; [reflexivity|]. split; [exact L|].
  exact (base64_encode_app [x4d; x61; x6e] hi eq_refl L).
Defined.

(** X25.  For an input of at least 2^31 and at most 2^32 bytes the [int]
    length handed to [BIO_write] is not positive: nothing is written to the
    filter and the encoding is the empty string. *)
Theorem base64_encode_empty_from_2p31 (b : list byte) :
  2 ^ 31 <= Z.of_nat (List.length b) <= 2 ^ 32 ->
  base64_encode b = EmptyString.
Proof.
  intros H. apply base64_encode_not_positive.
  unfold to_int.
  replace (Z.of_nat (List.length b) + 2 ^ 31)
    with (Z.of_nat (List.length b) - 2 ^ 31 + 1 * 2 ^ 32) by lia.
  rewrite Z.mod_add by lia. rewrite Z.mod_small by lia. lia.
Qed.

Lemma base64_encode_empty_from_2p31_witness :
  2 ^ 31 <= Z.of_nat (List.length huge) <= 2 ^ 32 /\
  base64_encode huge = EmptyString.
Proof.
  assert (H : 2 ^ 31 <= Z.of_nat (List.length huge) <= 2 ^ 32).
  { rewrite huge_length. lia. }
  split; [exact H | exact (base64_encode_empty_from_2p31 huge H)].
Defined.

(** ** The write callback *)

Lemma substring_all (s : string) :
  String.substring 0 (String.length s) s = s.
Proof. induction s as [|c s IH]; cbn; [|rewrite IH]; reflexivity. Qed.

Lemma concat_empty_cons (x : string) (xs : list string) :
  String.concat EmptyString (x :: xs) = x ++ String.concat EmptyString xs.
Proof.
  destruct xs as [|y xs]; cbn; [rewrite append_empty_r|]; reflexivity.
Qed.

Lemma WriteCallback_filled (call : delivery) (output : string) :
  filled call ->
  WriteCallback (buffer call) (size call) (nmemb call) output
  = (output ++ buffer call, Z.of_nat (String.length (buffer call))).
Proof.
  intros [E B]. unfold WriteCallback, size_t. rewrite E.
  rewrite Z.mod_small by lia. rewrite Nat2Z.id, substring_all. reflexivity.
Qed.

(** X5.  Over the calls of one transfer, each made with a buffer of
    [size * nmemb] bytes, the callback leaves in the output what it held
    before followed by the buffers in the order of the calls, and returns to
    libcurl the full size of each buffer, which is what tells libcurl to go
    on with the transfer. *)
Theorem WriteCallback_accumulates (calls : list delivery) (output : string) :
  Forall filled calls ->
  deliver calls output
  = (output ++ String.concat EmptyString (map buffer calls),
     map (fun call => Z.of_nat (String.length (buffer call))) calls).
Proof.
  intros F. revert output.
  induction F as [|call calls Hc F IH]; intros output.
  - cbn. rewrite append_empty_r. reflexivity.
  - cbn [deliver]. rewrite (WriteCallback_filled call output Hc).
    rewrite IH. cbn [map]. rewrite concat_empty_cons, append_assoc.
    reflexivity.
Qed.

Lemma WriteCallback_accumulates_witness :
  Forall filled
    [ {| buffer := "{" ++ Sample.quoted "id"; size := 1; nmemb := 5 |};
      {| buffer := ":1}"; size := 1; nmemb := 3 |} ] /\
  deliver
    [ {| buffer := "{" ++ Sample.quoted "id"; size := 1; nmemb := 5 |};
      {| buffer := ":1}"; size := 1; nmemb := 3 |} ] EmptyString
  = ("{" ++ Sample.quoted "id" ++ ":1}", [5; 3]).
Proof.
  assert (F : Forall filled
    [ {| buffer := "{" ++ Sample.quoted "id"; size := 1; nmemb := 5 |};
      {| buffer := ":1}"; size := 1; nmemb := 3 |} ]).
  { repeat constructor. }
  split; [exact F|].
  exact (WriteCallback_accumulates _ EmptyString F).
Defined.

(** ** Requests *)

Section MoreRuns.

Variable lib : Json.Library.
Variable env : Env.
Variable this : GitHubAPI.

(** X6.  [makeRequest] compares the method with POST, PUT and DELETE only;
    any other method string (PATCH, or a known method in lower case) is sent
    as a GET of the URL without a body, the data being dropped. *)
Theorem makeRequest_unknown_method_is_get (url method data : string) (st : State) :
  method <> "POST" -> method <> "PUT" -> method <> "DELETE" ->
  curl_easy_init env (history st) = true ->
  let h := easy_handle this url method data in
  transfers (history (snd (makeRequest env this url method data st)))
  = (transfers (history st) ++ [h])%list /\
  h = get_handle this url /\
  http_method h = "GET" /\
  http_body h = None.
Proof.
  intros N1 N2 N3 I h.
  assert (E : h = get_handle this url).
  { unfold h, get_handle, easy_handle.
    apply String.eqb_neq in N1, N2, N3. rewrite N1, N2, N3. reflexivity. }
  split; [|rewrite E; repeat split].
  rewrite makeRequest_run. cbn [snd]. unfold after_request. cbn [history].
  rewrite transfers_app, transfers_request_event, I. reflexivity.
Qed.

(** X29.  Without a curl handle [makeRequest] is silent: it makes no
    transfer, prints nothing on either stream and returns the empty string,
    which its callers then read as the response. *)
Theorem makeRequest_without_handle (url method data : string) (st : State) :
  curl_easy_init env (history st) = false ->
  makeRequest env this url method data st
  = (Returns EmptyString,
     {| history := (history st ++ [init_failed])%list;
        cout := cout st;
        cerr := cerr st |}) /\
  transfers (history st ++ [init_failed]) = transfers (history st).
Proof.
  intros I. rewrite makeRequest_run.
  unfold response_of, after_request, request_event. rewrite I.
  split; [reflexivity|].
  rewrite transfers_app. cbn. apply app_nil_r.
Qed.

(** X28.  A transfer that fails does not stop the caller: [makeRequest]
    writes one line [cURL error: ...] with the text of the result code to the
    error stream and returns what the write callback received all the same. *)
Theorem makeRequest_transfer_error (url method data : string) (st : State) :
  let h := easy_handle this url method data in
  curl_easy_init env (history st) = true ->
  fst (curl_easy_perform env (history st) h) <> 0 ->
  makeRequest env this url method data st
  = (Returns (snd (curl_easy_perform env (history st) h)),
     {| history :=
          (history st ++
           [performed h (fst (curl_easy_perform env (history st) h))
              (snd (curl_easy_perform env (history st) h))])%list;
        cout := cout st;
        cerr :=
          (cerr st ++
           [("cURL error: " ++
             curl_easy_strerror env
               (fst (curl_easy_perform env (history st) h)))%string])%list |}).
Proof.
  intros h I N. rewrite makeRequest_run. fold h.
  unfold response_of, after_request, request_event. rewrite I.
  apply Z.eqb_neq in N. rewrite N. reflexivity.
Qed.

(** *** createRepository *)

(** What [createRepository] computes. *)
Lemma createRepository_run repoName description isPrivate st :
  createRepository lib env this repoName description isPrivate st
  = let h := post_handle lib this repoName description isPrivate in
    let response := response_of env h (history st) in
    let st1 := after_request env h st in
    let failed :=
      (Returns false,
       snd (print_cerr ("Failed to create repository: " ++ response) st1)) in
    match Json.parseFromStream lib response with
    | Returns (Some v) =>
        match Json.isMember v "id" with
        | Returns true =>
            let st2 := snd (print_cout "Repository created successfully!" st1) in
            match Json.member_asString lib v "html_url" with
            | Returns html_url =>
                (Returns true, snd (print_cout ("URL: " ++ html_url) st2))
            | Aborts e => (Aborts e, st2)
            end
        | Returns false => failed
        | Aborts e => (Aborts e, st1)
        end
    | Returns None => failed
    | Aborts e => (Aborts e, st1)
    end.
Proof.
  unfold createRepository. cbv zeta. unfold bind at 1.
  rewrite makeRequest_run. fold (post_handle lib this repoName description isPrivate).
  unfold bind at 1. unfold lift at 1.
  destruct (Json.parseFromStream lib _) as [[v|]|e]; [|reflexivity..].
  unfold bind at 1. unfold lift at 1.
  destruct (Json.isMember v "id") as [[|]|e]; [|reflexivity..].
  unfold bind, lift, print_cout.
  destruct (Json.member_asString lib v "html_url"); reflexivity.
Qed.

(** X7.  Whatever the outcome, [createRepository] makes one request: a POST
    to [baseURL + "/user/repos"] whose body is the text of the object with
    the members [name], [description], [private] (as given) and [auto_init],
    which is always [true]. *)
Theorem createRepository_posts_payload repoName description isPrivate st :
  history (snd (createRepository lib env this repoName description isPrivate st))
  = (history st ++
     [request_event env
        (post_handle lib this repoName description isPrivate)
        (history st)])%list /\
  CURLOPT_URL (post_handle lib this repoName description isPrivate)
  = baseURL this ++ "/user/repos" /\
  http_method (post_handle lib this repoName description isPrivate) = "POST" /\
  http_body (post_handle lib this repoName description isPrivate)
  = Some (Json.writeString lib
            (Json.objectValue
               [ ("name", Json.stringValue repoName);
                 ("description", Json.stringValue description);
                 ("private", Json.booleanValue isPrivate);
                 ("auto_init", Json.booleanValue true) ])).
Proof.
  split; [|repeat split].
  rewrite createRepository_run. cbv zeta.
  destruct (Json.parseFromStream lib _) as [[v|]|e]; try reflexivity.
  destruct (Json.isMember v "id") as [[|]|e]; try reflexivity.
  destruct (Json.member_asString lib v "html_url"); reflexivity.
Qed.

Lemma member_asString_text (members : list (string * Json.Value))
  (key text : string) :
  text_of (Json.lookup key members) = Some text ->
  Json.member_asString lib (Json.objectValue members) key = Returns text.
Proof.
  unfold Json.member_asString, Json.subscript.
  destruct (Json.lookup key members) as [[]|]; cbn; intros H;
    try discriminate H; injection H as <-; reflexivity.
Qed.

(** X8.  When the response to the POST parses to an object with a member
    [id] whose [html_url] is a string (or null, or absent, which count as the
    empty text), [createRepository] returns [true] and prints the success
    line and the line [URL: ...] on the standard output. *)
Theorem createRepository_created
  repoName description isPrivate st members id html_url :
  let h := post_handle lib this repoName description isPrivate in
  Json.parseFromStream lib (response_of env h (history st))
  = Returns (Some (Json.objectValue members)) ->
  Json.lookup "id" members = Some id ->
  text_of (Json.lookup "html_url" members) = Some html_url ->
  createRepository lib env this repoName description isPrivate st
  = (Returns true,
     {| history := history (after_request env h st);
        cout := (cout st ++
                 [ "Repository created successfully!";
                   ("URL: " ++ html_url)%string ])%list;
        cerr := cerr (after_request env h st) |}).
Proof.
  intros h P I U. rewrite createRepository_run. cbv zeta. fold h.
  rewrite P. unfold Json.isMember, Json.find. rewrite I.
  rewrite (member_asString_text members "html_url" html_url U).
  unfold print_cout. cbn. rewrite <- app_assoc. reflexivity.
Qed.

Lemma isMember_has_id (response : string) (v : Json.Value) :
  Json.parseFromStream lib response = Returns (Some v) ->
  is_object_or_null v = true ->
  Json.isMember v "id" = Returns (has_id lib response).
Proof.
  intros P S. unfold has_id. rewrite P.
  destruct v; try discriminate S; cbn.
  - reflexivity.
  - destruct (Json.lookup "id" members); reflexivity.
Qed.

(** X9.  When the response to the POST does not parse, or parses to an
    object or to null without a member [id] (an error object of the service,
    the empty response of a failed transfer), [createRepository] returns
    [false], prints nothing on the standard output and reports the response
    on the error stream. *)
Theorem createRepository_failed repoName description isPrivate st :
  let h := post_handle lib this repoName description isPrivate in
  let response := response_of env h (history st) in
  shaped lib response ->
  has_id lib response = false ->
  createRepository lib env this repoName description isPrivate st
  = (Returns false,
     {| history := history (after_request env h st);
        cout := cout st;
        cerr := (cerr (after_request env h st) ++
                 [("Failed to create repository: " ++ response)%string])%list |}).
Proof.
  intros h response S N. rewrite createRepository_run. cbv zeta.
  fold h. fold response. unfold shaped in S.
  destruct (Json.parseFromStream lib response) as [[v|]|e] eqn:P.
  - rewrite (isMember_has_id response v P S), N. reflexivity.
  - reflexivity.
  - destruct S.
Qed.

(** X26.  When the response to the POST parses to a value that is neither
    an object nor null (an array, say), [createRepository] does not return:
    [isMember] raises a [Json::LogicError] and nothing is printed. *)
Theorem createRepository_aborts_on_non_object
  repoName description isPrivate st v :
  let h := post_handle lib this repoName description isPrivate in
  Json.parseFromStream lib (response_of env h (history st))
  = Returns (Some v) ->
  is_object_or_null v = false ->
  createRepository lib env this repoName description isPrivate st
  = (Aborts (LogicError
       "in Json::Value::find(begin, end): requires objectValue or nullValue"),
     after_request env h st) /\
  cout (after_request env h st) = cout st.
Proof.
  intros h P S. rewrite createRepository_run. cbv zeta. fold h. rewrite P.
  destruct v; try discriminate S; split; reflexivity.
Qed.

(** *** listRepositories *)

(** What [listRepositories] computes. *)
Lemma listRepositories_run st :
  listRepositories lib env this st
  = let st1 := after_request env (list_handle this) st in
    match Json.parseFromStream lib (response_of env (list_handle this) (history st)) with
    | Returns (Some v) =>
        print_repositories lib (JsonRead.elements v)
          {| history := history st1;
             cout := (cout st ++
                      [(nl ++ "Your Repositories:")%string;
                       "=================="])%list;
             cerr := cerr st1 |}
    | Returns None => (Returns tt, st1)
    | Aborts e => (Aborts e, st1)
    end.
Proof.
  unfold listRepositories. cbv zeta. unfold bind at 1.
  rewrite makeRequest_run. fold (get_handle this (baseURL this ++ "/user/repos")).
  fold (list_handle this).
  unfold bind at 1. unfold lift at 1.
  destruct (Json.parseFromStream lib _) as [[v|]|e]; try reflexivity.
  unfold bind, print_cout. cbn. rewrite <- app_assoc. reflexivity.
Qed.

Lemma read_member_asString_text (members : list (string * Json.Value))
  (key text : string) :
  text_of (Json.lookup key members) = Some text ->
  JsonRead.member_asString lib (Json.objectValue members) key = Returns text.
Proof.
  unfold JsonRead.member_asString, JsonRead.member, Json.find.
  destruct (Json.lookup key members) as [[]|]; cbn; intros H;
    try discriminate H; injection H as <-; reflexivity.
Qed.

Lemma read_member_asBool_flag (members : list (string * Json.Value))
  (key : string) (flag : bool) :
  flag_of (Json.lookup key members) = Some flag ->
  JsonRead.member_asBool (Json.objectValue members) key = Returns flag.
Proof.
  unfold JsonRead.member_asBool, JsonRead.member, Json.find.
  destruct (Json.lookup key members) as [[]|]; cbn; intros H;
    try discriminate H; injection H as <-; reflexivity.
Qed.

Lemma print_repository_listed repo lines st :
  listed repo = Some lines ->
  print_repository lib repo st
  = (Returns tt,
     {| history := history st;
        cout := (cout st ++ lines)%list;
        cerr := cerr st |}).
Proof.
  unfold listed. destruct repo as [| | | | | | |members]; try discriminate.
  destruct (text_of (Json.lookup "name" members)) as [name|] eqn:N;
    [|discriminate].
  destruct (text_of (Json.lookup "description" members)) as [description|] eqn:D;
    [|discriminate].
  destruct (text_of (Json.lookup "html_url" members)) as [html_url|] eqn:U;
    [|discriminate].
  destruct (flag_of (Json.lookup "private" members)) as [private|] eqn:F;
    [|discriminate].
  intros H. injection H as <-.
  unfold print_repository.
  rewrite (read_member_asString_text _ _ _ N),
    (read_member_asString_text _ _ _ D),
    (read_member_asString_text _ _ _ U),
    (read_member_asBool_flag _ _ _ F).
  unfold bind, lift, print_cout. cbn.
  rewrite <- !app_assoc. reflexivity.
Qed.

Lemma print_repositories_listing repos : forall lines st,
  listing repos = Some lines ->
  print_repositories lib repos st
  = (Returns tt,
     {| history := history st;
        cout := (cout st ++ lines)%list;
        cerr := cerr st |}).
Proof.
  induction repos as [|repo rest IH]; intros lines st H.
  - injection H as <-. cbn. rewrite app_nil_r. destruct st; reflexivity.
  - cbn [listing] in H.
    destruct (listed repo) as [block|] eqn:B; [|discriminate].
    destruct (listing rest) as [blocks|] eqn:R; [|discriminate].
    injection H as <-. cbn [print_repositories]. unfold bind.
    rewrite (print_repository_listed repo block st B).
    rewrite (IH blocks _ eq_refl). cbn. rewrite <- app_assoc. reflexivity.
Qed.

Lemma listed_length repo lines :
  listed repo = Some lines -> List.length lines = 5%nat.
Proof.
  unfold listed. destruct repo as [| | | | | | |members]; try discriminate.
  destruct (text_of _); [|discriminate].
  destruct (text_of _); [|discriminate].
  destruct (text_of _); [|discriminate].
  destruct (flag_of _); [|discriminate].
  intros H. injection H as <-. reflexivity.
Qed.

Lemma listing_length repos : forall lines,
  listing repos = Some lines ->
  List.length lines = (5 * List.length repos)%nat.
Proof.
  induction repos as [|repo rest IH]; intros lines H.
  - injection H as <-. reflexivity.
  - cbn [listing] in H.
    destruct (listed repo) as [block|] eqn:B; [|discriminate].
    destruct (listing rest) as [blocks|] eqn:R; [|discriminate].
    injection H as <-. rewrite length_app, (listed_length _ _ B), (IH _ eq_refl).
    cbn [List.length]. lia.
Qed.

(** X10.  When the response parses to an array of repository objects (in
    each, [name], [description] and [html_url] are strings, null or absent
    and [private] is a boolean, null or absent), [listRepositories] prints the
    two header lines and then, for each element in the order of the array,
    five lines: name, description, URL, [Private: Yes] or [Private: No], and a
    rule.  A null or absent text prints as empty, a null or absent flag as
    [No]. *)
Theorem listRepositories_prints_listing st repos lines :
  Json.parseFromStream lib (response_of env (list_handle this) (history st))
  = Returns (Some (Json.arrayValue repos)) ->
  listing repos = Some lines ->
  listRepositories lib env this st
  = (Returns tt,
     {| history := history (after_request env (list_handle this) st);
        cout := (cout st ++
                 [(nl ++ "Your Repositories:")%string; "=================="] ++
                 lines)%list;
        cerr := cerr (after_request env (list_handle this) st) |}) /\
  List.length lines = (5 * List.length repos)%nat.
Proof.
  intros P L. split; [|exact (listing_length repos lines L)].
  rewrite listRepositories_run. cbv zeta. rewrite P.
  cbn [JsonRead.elements].
  rewrite (print_repositories_listing repos lines _ L). cbn.
  rewrite <- app_assoc. reflexivity.
Qed.

(** X11.  When the response parses to an object with at least one member,
    none of whose values is an object or null (as the error objects of the
    service are: [message] and [documentation_url] are strings),
    [listRepositories] prints the two header lines and then ends in a
    [Json::LogicError]: the loop visits a member value and subscripts it. *)
Theorem listRepositories_aborts_on_error_object st member members :
  Json.parseFromStream lib (response_of env (list_handle this) (history st))
  = Returns (Some (Json.objectValue (member :: members))) ->
  Forall (fun m => is_object_or_null (snd m) = false) (member :: members) ->
  listRepositories lib env this st
  = (Aborts (LogicError
       "in Json::Value::find(begin, end): requires objectValue or nullValue"),
     {| history := history (after_request env (list_handle this) st);
        cout := (cout st ++
                 [(nl ++ "Your Repositories:")%string;
                  "=================="])%list;
        cerr := cerr (after_request env (list_handle this) st) |}).
Proof.
  intros P F. rewrite listRepositories_run. cbv zeta. rewrite P.
  cbn [JsonRead.elements map print_repositories].
  inversion F as [|m ms Hm _]; subst.
  unfold bind at 1. unfold print_repository. unfold bind at 1.
  unfold lift at 1. unfold JsonRead.member_asString, JsonRead.member.
  destruct (snd member); try discriminate Hm; reflexivity.
Qed.

(** X12.  When the response does not parse (the empty response of a failed
    transfer, for one), [listRepositories] returns having printed nothing on
    the standard output, and nothing about the failure on the error stream
    beyond the transfer's own error line. *)
Theorem listRepositories_silent_when_unparsable st :
  Json.parseFromStream lib (response_of env (list_handle this) (history st))
  = Returns None ->
  listRepositories lib env this st
  = (Returns tt, after_request env (list_handle this) st) /\
  cout (after_request env (list_handle this) st) = cout st.
Proof.
  intros P. rewrite listRepositories_run. cbv zeta. rewrite P.
  split; reflexivity.
Qed.

(** *** getUserInfo *)

Lemma member_asInt_int (members : list (string * Json.Value))
  (key : string) (n : Z) :
  int_of (Json.lookup key members) = Some n ->
  Json.member_asInt (Json.objectValue members) key = Returns n.
Proof.
  unfold Json.member_asInt, Json.subscript.
  destruct (Json.lookup key members) as [[| m | | | | | |]|]; cbn;
    try discriminate; try (intros H; injection H as <-; reflexivity).
  match goal with
  | |- (if ?c then _ else _) = _ -> _ => destruct c
  end; intros H; [injection H as <-; reflexivity | discriminate H].
Qed.

(** What [getUserInfo] computes on a profile. *)
Lemma getUserInfo_profile_run
  st members login name email public_repos followers following :
  let h := get_handle this (baseURL this ++ "/user") in
  Json.parseFromStream lib (response_of env h (history st))
  = Returns (Some (Json.objectValue members)) ->
  text_of (Json.lookup "login" members) = Some login ->
  text_of (Json.lookup "name" members) = Some name ->
  text_of (Json.lookup "email" members) = Some email ->
  int_of (Json.lookup "public_repos" members) = Some public_repos ->
  int_of (Json.lookup "followers" members) = Some followers ->
  int_of (Json.lookup "following" members) = Some following ->
  getUserInfo lib env this st
  = (Returns true,
     {| history := history (after_request env h st);
        cout := (cout st ++
                 [ (nl ++ "User Information:")%string;
                   ("Username: " ++ login)%string;
                   ("Name: " ++ name)%string;
                   ("Email: " ++ email)%string;
                   ("Public Repos: " ++ Json.valueToString public_repos)%string;
                   ("Followers: " ++ Json.valueToString followers)%string;
                   ("Following: " ++ Json.valueToString following)%string ])%list;
        cerr := cerr (after_request env h st) |}).
Proof.
  intros h P L N E R F G. unfold getUserInfo. cbv zeta. unfold bind at 1.
  rewrite makeRequest_run. fold (get_handle this (baseURL this ++ "/user")).
  fold h. unfold bind at 1. unfold lift at 1. rewrite P.
  rewrite (member_asString_text _ _ _ L), (member_asString_text _ _ _ N),
    (member_asString_text _ _ _ E), (member_asInt_int _ _ _ R),
    (member_asInt_int _ _ _ F), (member_asInt_int _ _ _ G).
  unfold bind, lift, print_cout, ret. cbn [history cout cerr].
  rewrite <- !app_assoc. reflexivity.
Qed.

(** X13.  When the response to the probe parses to an object whose [login],
    [name] and [email] are strings, null or absent and whose three counters
    are integers in the range of [int], null or absent, [getUserInfo] returns
    [true] and prints the heading and six lines, a null or absent text as
    empty and a null or absent counter as [0]; it prints nothing of its own
    on the error stream. *)
Theorem getUserInfo_prints_profile
  st members login name email public_repos followers following :
  let h := get_handle this (baseURL this ++ "/user") in
  Json.parseFromStream lib (response_of env h (history st))
  = Returns (Some (Json.objectValue members)) ->
  text_of (Json.lookup "login" members) = Some login ->
  text_of (Json.lookup "name" members) = Some name ->
  text_of (Json.lookup "email" members) = Some email ->
  int_of (Json.lookup "public_repos" members) = Some public_repos ->
  int_of (Json.lookup "followers" members) = Some followers ->
  int_of (Json.lookup "following" members) = Some following ->
  fst (getUserInfo lib env this st) = Returns true /\
  cout (snd (getUserInfo lib env this st))
  = (cout st ++
     [ (nl ++ "User Information:")%string;
       ("Username: " ++ login)%string;
       ("Name: " ++ name)%string;
       ("Email: " ++ email)%string;
       ("Public Repos: " ++ Json.valueToString public_repos)%string;
       ("Followers: " ++ Json.valueToString followers)%string;
       ("Following: " ++ Json.valueToString following)%string ])%list /\
  cerr (snd (getUserInfo lib env this st)) = cerr (after_request env h st).
Proof.
  intros h P L N E R F G.
  rewrite (getUserInfo_profile_run st members _ _ _ _ _ _ P L N E R F G).
  repeat split.
Qed.

Lemma getUserInfo_history st :
  history (snd (getUserInfo lib env this st))
  = (history st ++
     [request_event env (get_handle this (baseURL this ++ "/user"))
        (history st)])%list.
Proof.
  unfold getUserInfo. cbv zeta. unfold bind at 1.
  rewrite makeRequest_run. fold (get_handle this (baseURL this ++ "/user")).
  unfold bind at 1. unfold lift at 1.
  destruct (Json.parseFromStream lib _) as [[v|]|e]; [|reflexivity..].
  unfold bind, lift, print_cout, ret.
  destruct (Json.member_asString lib v "login"); [|reflexivity].
  destruct (Json.member_asString lib v "name"); [|reflexivity].
  destruct (Json.member_asString lib v "email"); [|reflexivity].
  destruct (Json.member_asInt v "public_repos"); [|reflexivity].
  destruct (Json.member_asInt v "followers"); [|reflexivity].
  destruct (Json.member_asInt v "following"); reflexivity.
Qed.

(** *** uploadFile and uploadFileWithPath *)

(** X15.  A single-file upload whose file is read and whose response is an
    object, null or unparsable reports its outcome in one line: on success
    [File uploaded successfully: <file name>] on the standard output, and
    otherwise [Failed to upload file: <response>] on the error stream. *)
Theorem uploadFile_reports_outcome repoName filePath commitMessage content st :
  ifstream_read env filePath = Some content ->
  let fileName := path_filename env filePath in
  let h := put_handle lib this repoName fileName commitMessage content in
  let st1 := after_open filePath true st in
  let response := response_of env h (history st1) in
  shaped lib response ->
  cout (snd (uploadFile lib env this repoName filePath commitMessage st))
  = (if has_content lib response
     then (cout st ++
           [("File uploaded successfully: " ++ fileName)%string])%list
     else cout st) /\
  cerr (snd (uploadFile lib env this repoName filePath commitMessage st))
  = (if has_content lib response
     then cerr (after_request env h st1)
     else (cerr (after_request env h st1) ++
           [("Failed to upload file: " ++ response)%string])%list).
Proof.
  intros R fileName h st1 response S.
  rewrite (uploadFile_run lib env this _ _ _ _ _ R). cbv zeta.
  fold fileName. fold h. fold st1. fold response. unfold shaped in S.
  destruct (Json.parseFromStream lib response) as [[v|]|e] eqn:P.
  - rewrite (isMember_has_content lib response v P S).
    destruct (has_content lib response); split; reflexivity.
  - unfold has_content. rewrite P. split; reflexivity.
  - destruct S.
Qed.

(** X16.  The per-file upload of a tree upload whose file is read prints
    nothing of its own: the standard output is unchanged and the error stream
    holds at most the error line of the transfer.  The response of a declined
    upload is not reported anywhere. *)
Theorem uploadFileWithPath_prints_nothing
  repoName localPath remotePath commitMessage content st :
  ifstream_read env localPath = Some content ->
  let h := put_handle lib this repoName remotePath commitMessage content in
  cout (snd (uploadFileWithPath lib env this repoName localPath remotePath
               commitMessage st)) = cout st /\
  cerr (snd (uploadFileWithPath lib env this repoName localPath remotePath
               commitMessage st))
  = cerr (after_request env h (after_open localPath true st)).
Proof.
  intros R h.
  rewrite (uploadFileWithPath_run lib env this _ _ _ _ _ _ R). cbv zeta.
  fold h.
  destruct (Json.parseFromStream lib _) as [[v|]|e];
    [destruct (Json.isMember v "content")|..]; split; reflexivity.
Qed.

(** *** uploadDirectory *)



(** *** deleteFile *)

(** X18.  When the response to the GET parses to a value that is neither an
    object nor null (the array the service returns for the path of a
    directory), [deleteFile] ends in a [Json::LogicError] raised by the
    subscript: the GET is its only request, and nothing is printed. *)
Theorem deleteFile_aborts_on_listing repoName filePath commitMessage st v :
  let g := get_handle this (contents_url this repoName filePath) in
  Json.parseFromStream lib (response_of env g (history st))
  = Returns (Some v) ->
  is_object_or_null v = false ->
  deleteFile lib env this repoName filePath commitMessage st
  = (Aborts (LogicError
       "in Json::Value::resolveReference(key, end): requires objectValue"),
     after_request env g st) /\
  history (after_request env g st)
  = (history st ++ [request_event env g (history st)])%list /\
  cout (after_request env g st) = cout st.
Proof.
  intros g P S. rewrite deleteFile_run. cbv zeta. fold g. rewrite P.
  destruct v; try discriminate S; repeat split.
Qed.

End MoreRuns.

(** ** The start of a session *)

(** X20.  Whatever the answer, [initialize] makes one request and no other:
    a GET of [https://api.github.com/user] without a body, whose headers are
    the authorization with the token, the user agent, the accepted media type
    and the content type.  The user name is not part of it. *)
Theorem initialize_probe lib env _token _username st :
  let h := get_handle (GitHubAPI_new _token _username)
             "https://api.github.com/user" in
  history (snd (initialize lib env _token _username st))
  = (history st ++ [request_event env h (history st)])%list /\
  CURLOPT_HTTPHEADER h
  = [ ("Authorization: token " ++ _token)%string;
      "User-Agent: CPP-GitHub-Client";
      "Accept: application/vnd.github.v3+json";
      "Content-Type: application/json" ] /\
  http_method h = "GET" /\
  http_body h = None.
Proof.
  intros h. split; [|repeat split].
  pose proof (getUserInfo_history lib env (GitHubAPI_new _token _username) st)
    as H.
  unfold initialize. unfold bind at 1.
  destruct (getUserInfo lib env (GitHubAPI_new _token _username) st)
    as [[[|]|e] st'] eqn:E; cbn [snd] in H; exact H.
Qed.

(** X27.  When the probe is answered with a profile, [initialize] returns
    the client built from the token and the user name, with the fixed base
    URL, after the profile lines and the line [Authentication successful!];
    the process does not exit. *)
Theorem initialize_signs_in
  lib env _token _username st members
  login name email public_repos followers following :
  let api := GitHubAPI_new _token _username in
  let h := get_handle api (baseURL api ++ "/user") in
  Json.parseFromStream lib (response_of env h (history st))
  = Returns (Some (Json.objectValue members)) ->
  text_of (Json.lookup "login" members) = Some login ->
  text_of (Json.lookup "name" members) = Some name ->
  text_of (Json.lookup "email" members) = Some email ->
  int_of (Json.lookup "public_repos" members) = Some public_repos ->
  int_of (Json.lookup "followers" members) = Some followers ->
  int_of (Json.lookup "following" members) = Some following ->
  initialize lib env _token _username st
  = (Returns {| token := _token; username := _username;
                baseURL := "https://api.github.com" |},
     {| history := history (after_request env h st);
        cout := (cout st ++
                 [ (nl ++ "User Information:")%string;
                   ("Username: " ++ login)%string;
                   ("Name: " ++ name)%string;
                   ("Email: " ++ email)%string;
                   ("Public Repos: " ++ Json.valueToString public_repos)%string;
                   ("Followers: " ++ Json.valueToString followers)%string;
                   ("Following: " ++ Json.valueToString following)%string;
                   (nl ++ "Authentication successful!")%string ])%list;
        cerr := cerr (after_request env h st) |}).
Proof.
  intros api h P L N E R F G. unfold initialize. fold api.
  unfold bind at 1.
  rewrite (getUserInfo_profile_run lib env api st members _ _ _ _ _ _
             P L N E R F G).
  fold h. unfold bind, print_cout, ret. cbn [history cout cerr].
  rewrite <- app_assoc. reflexivity.
Qed.

(** ** The configuration file *)

(** X21.  A configuration saved in one session is found by the next: when
    the token and the user name are plain strings, the file holds the text
    [saveConfig] wrote, and the reader gives back the objects of plain
    strings that the writer prints, [loadConfig] returns [true] with the
    saved token and user name, whatever its two strings held before. *)
Theorem config_round_trip
  lib env token username token0 username0 st st' text :
  reads_back lib ->
  plain token = true ->
  plain username = true ->
  fst (saveConfig lib true token username st) = Returns (Some text) ->
  ifstream_read env configFile = Some (list_byte_of_string text) ->
  fst (loadConfig lib env token0 username0 st')
  = Returns (true, (token, username)).
Proof.
  intros G Pt Pu S F.
  assert (E : text = Json.writeString lib (config_payload token username)).
  { unfold saveConfig, bind, print_cout, ret in S. cbn [fst] in S.
    injection S as <-. reflexivity. }
  assert (P : Json.parseFromStream lib text
              = Returns (Some (config_payload token username))).
  { rewrite E.
    change (config_payload token username)
      with (Json.objectValue
              [ ("token", Json.stringValue token);
                ("username", Json.stringValue username) ]).
    apply G.
    - cbn [forallb]. unfold plain_member. cbn [fst snd].
      rewrite Pt, Pu. reflexivity.
    - reflexivity. }
  unfold loadConfig. rewrite F.
  rewrite string_of_list_byte_of_string.
  unfold bind at 1. unfold record at 1. unfold bind at 1. unfold lift at 1.
  rewrite P. reflexivity.
Qed.

(** X22.  When the configuration file cannot be opened, or its text does
    not parse, [loadConfig] returns [false], leaves the two strings as they
    were, and prints nothing. *)
Theorem loadConfig_fails_unchanged lib env token username st :
  match ifstream_read env configFile with
  | None => True
  | Some bytes =>
      Json.parseFromStream lib (string_of_list_byte bytes) = Returns None
  end ->
  fst (loadConfig lib env token username st)
  = Returns (false, (token, username)) /\
  cout (snd (loadConfig lib env token username st)) = cout st /\
  cerr (snd (loadConfig lib env token username st)) = cerr st.
Proof.
  intros H. unfold loadConfig.
  destruct (ifstream_read env configFile) as [bytes|].
  - unfold bind, record, lift. rewrite H. repeat split.
  - repeat split.
Qed.


(** X24.  When the configuration file parses to a value that is neither an
    object nor null (an array, a number, a string), [loadConfig] does not
    return: the subscript raises a [Json::LogicError]. *)
Theorem loadConfig_aborts_on_non_object
  lib env token0 username0 st bytes root :
  ifstream_read env configFile = Some bytes ->
  Json.parseFromStream lib (string_of_list_byte bytes)
  = Returns (Some root) ->
  is_object_or_null root = false ->
  fst (loadConfig lib env token0 username0 st)
  = Aborts (LogicError
      "in Json::Value::resolveReference(key, end): requires objectValue").
Proof.
  intros F P S. unfold loadConfig. rewrite F.
  unfold bind at 1. unfold record at 1. unfold bind at 1. unfold lift at 1.
  rewrite P. destruct root; try discriminate S; reflexivity.
Qed.

(** ** The rest of the program on sample worlds *)

(** X6 on a PATCH: the request goes out as a GET without the data. *)
Lemma makeRequest_unknown_method_is_get_witness :
  let url := "https://api.github.com/repos/octocat/demo" in
  let h := easy_handle Sample.api url "PATCH" "{}" in
  ("PATCH" <> "POST" /\ "PATCH" <> "PUT" /\ "PATCH" <> "DELETE") /\
  curl_easy_init MoreWorlds.offline (history Sample.start) = true /\
  transfers (history (snd (makeRequest MoreWorlds.offline Sample.api
                             url "PATCH" "{}" Sample.start)))
  = (transfers (history Sample.start) ++ [h])%list /\
  h = get_handle Sample.api url /\
  http_method h = "GET" /\
  http_body h = None.
Proof.
  split; [repeat split; discriminate|]. split; [reflexivity|].
  apply (makeRequest_unknown_method_is_get MoreWorlds.offline Sample.api
           "https://api.github.com/repos/octocat/demo" "PATCH" "{}"
           Sample.start);
    [discriminate | discriminate | discriminate | reflexivity].
Defined.

(** X8 on a remote that creates the repository. *)
Lemma createRepository_created_witness :
  let h := post_handle MoreWorlds.lib Sample.api "demo" "A demo" false in
  Json.parseFromStream MoreWorlds.lib
    (response_of MoreWorlds.creating h (history Sample.start))
  = Returns (Some (Json.objectValue
      [ ("id", Json.intValue 1296269);
        ("html_url", Json.stringValue "https://github.com/octocat/demo") ])) /\
  createRepository MoreWorlds.lib MoreWorlds.creating Sample.api
    "demo" "A demo" false Sample.start
  = (Returns true,
     {| history := history (after_request MoreWorlds.creating h Sample.start);
        cout := [ "Repository created successfully!";
                  "URL: https://github.com/octocat/demo" ];
        cerr := cerr (after_request MoreWorlds.creating h Sample.start) |}).
Proof.
  split; [reflexivity|].
  exact (createRepository_created MoreWorlds.lib MoreWorlds.creating Sample.api
           "demo" "A demo" false Sample.start
           [ ("id", Json.intValue 1296269);
             ("html_url", Json.stringValue "https://github.com/octocat/demo") ]
           (Json.intValue 1296269) "https://github.com/octocat/demo"
           eq_refl eq_refl eq_refl).
Defined.

(** X9 on a remote that declines the creation with an error object. *)
Lemma createRepository_failed_witness :
  let h := post_handle MoreWorlds.lib Sample.api "demo" "A demo" true in
  let response := response_of MoreWorlds.declining h (history Sample.start) in
  response = Sample.doc_rejected /\
  has_id MoreWorlds.lib response = false /\
  createRepository MoreWorlds.lib MoreWorlds.declining Sample.api
    "demo" "A demo" true Sample.start
  = (Returns false,
     {| history := history (after_request MoreWorlds.declining h Sample.start);
        cout := [];
        cerr := (cerr (after_request MoreWorlds.declining h Sample.start) ++
                 [("Failed to create repository: " ++ response)%string])%list |}).
Proof.
  split; [reflexivity|]. split; [reflexivity|].
  apply (createRepository_failed MoreWorlds.lib MoreWorlds.declining Sample.api
           "demo" "A demo" true Sample.start); reflexivity.
Defined.

(** The payload of a creation, as the sample writer prints it. *)
Example createRepository_payload_sample :
  map http_method
    (transfers (history (snd (createRepository MoreWorlds.lib MoreWorlds.creating
                                Sample.api "demo" "A demo" true Sample.start))))
  = ["POST"] /\
  Json.lookup "auto_init"
    [ ("name", Json.stringValue "demo");
      ("description", Json.stringValue "A demo");
      ("private", Json.booleanValue true);
      ("auto_init", Json.booleanValue true) ]
  = Some (Json.booleanValue true) /\
  repository_payload "demo" "A demo" true
  = Json.objectValue
      [ ("name", Json.stringValue "demo");
        ("description", Json.stringValue "A demo");
        ("private", Json.booleanValue true);
        ("auto_init", Json.booleanValue true) ].
Proof. vm_compute. repeat split. Qed.

(** X10 on a remote that lists two repositories, the first private and
    without a description. *)
Lemma listRepositories_prints_listing_witness :
  let lines :=
    [ "Name: demo"; "Description: "; "URL: https://github.com/octocat/demo";
      "Private: Yes"; "------------------";
      "Name: notes"; "Description: Plain notes";
      "URL: https://github.com/octocat/notes";
      "Private: No"; "------------------" ] in
  Json.parseFromStream MoreWorlds.lib
    (response_of MoreWorlds.listing_two (list_handle Sample.api)
       (history Sample.start))
  = Returns (Some (Json.arrayValue MoreWorlds.repositories)) /\
  listing MoreWorlds.repositories = Some lines /\
  listRepositories MoreWorlds.lib MoreWorlds.listing_two Sample.api Sample.start
  = (Returns tt,
     {| history := history (after_request MoreWorlds.listing_two
                              (list_handle Sample.api) Sample.start);
        cout := (cout Sample.start ++
                 [(nl ++ "Your Repositories:")%string; "=================="] ++
                 lines)%list;
        cerr := cerr (after_request MoreWorlds.listing_two
                        (list_handle Sample.api) Sample.start) |}) /\
  List.length lines = (5 * List.length MoreWorlds.repositories)%nat.
Proof.
  split; [reflexivity|]. split; [reflexivity|].
  exact (listRepositories_prints_listing MoreWorlds.lib MoreWorlds.listing_two
           Sample.api Sample.start MoreWorlds.repositories _ eq_refl eq_refl).
Defined.

(** X11 on the invalid-credentials error of the service. *)
Lemma listRepositories_aborts_on_error_object_witness :
  Json.parseFromStream Sample.lib
    (response_of bad_credentials (list_handle Sample.api) (history Sample.start))
  = Returns (Some (Json.objectValue
      [("message", Json.stringValue "Bad credentials")])) /\
  fst (listRepositories Sample.lib bad_credentials Sample.api Sample.start)
  = Aborts (LogicError
      "in Json::Value::find(begin, end): requires objectValue or nullValue") /\
  cout (snd (listRepositories Sample.lib bad_credentials Sample.api
               Sample.start))
  = [(nl ++ "Your Repositories:")%string; "=================="].
Proof.
  split; [reflexivity|].
  assert (F : Forall (fun m : string * Json.Value =>
                        is_object_or_null (snd m) = false)
                [("message", Json.stringValue "Bad credentials")]).
  { repeat constructor. }
  rewrite (listRepositories_aborts_on_error_object Sample.lib bad_credentials
             Sample.api Sample.start
             ("message", Json.stringValue "Bad credentials") [] eq_refl F).
  split; reflexivity.
Defined.

(** X12 when no transfer reaches the remote. *)
Lemma listRepositories_silent_when_unparsable_witness :
  Json.parseFromStream Sample.lib
    (response_of MoreWorlds.offline (list_handle Sample.api)
       (history Sample.start))
  = Returns None /\
  listRepositories Sample.lib MoreWorlds.offline Sample.api Sample.start
  = (Returns tt,
     after_request MoreWorlds.offline (list_handle Sample.api) Sample.start) /\
  cout (after_request MoreWorlds.offline (list_handle Sample.api) Sample.start)
  = cout Sample.start.
Proof.
  split; [reflexivity|].
  exact (listRepositories_silent_when_unparsable Sample.lib MoreWorlds.offline
           Sample.api Sample.start eq_refl).
Defined.

(** X13 on a profile without an e-mail address. *)
Lemma getUserInfo_prints_profile_witness :
  let h := get_handle Sample.api (baseURL Sample.api ++ "/user") in
  Json.parseFromStream MoreWorlds.lib
    (response_of MoreWorlds.signed_in h (history Sample.start))
  = Returns (Some (Json.objectValue MoreWorlds.profile)) /\
  fst (getUserInfo MoreWorlds.lib MoreWorlds.signed_in Sample.api Sample.start)
  = Returns true /\
  cout (snd (getUserInfo MoreWorlds.lib MoreWorlds.signed_in Sample.api
               Sample.start))
  = [ (nl ++ "User Information:")%string;
      "Username: octocat"; "Name: The Octocat"; "Email: ";
      "Public Repos: 8"; "Followers: 20"; "Following: 0" ] /\
  cerr (snd (getUserInfo MoreWorlds.lib MoreWorlds.signed_in Sample.api
               Sample.start))
  = cerr (after_request MoreWorlds.signed_in h Sample.start).
Proof.
  split; [reflexivity|].
  exact (getUserInfo_prints_profile MoreWorlds.lib MoreWorlds.signed_in
           Sample.api Sample.start MoreWorlds.profile
           "octocat" "The Octocat" EmptyString 8 20 0
           eq_refl eq_refl eq_refl eq_refl eq_refl eq_refl eq_refl).
Defined.


(** The two ends of X14, evaluated: an empty tree is a success, a tree of
    unreadable files a failure, and neither makes a request. *)
Example uploadDirectory_without_uploads :
  fst (uploadDirectory Sample.lib empty_disk Sample.api
         "repo" "proj" "init" Sample.start) = Returns true /\
  cout (snd (uploadDirectory Sample.lib empty_disk Sample.api
               "repo" "proj" "init" Sample.start))
  = [(nl ++ "Upload complete!")%string; "Success: 0 files"; "Failed: 0 files"] /\
  fst (uploadDirectory Sample.lib MoreWorlds.unreadable Sample.api
         "repo" "proj" "init" Sample.start) = Returns false /\
  cout (snd (uploadDirectory Sample.lib MoreWorlds.unreadable Sample.api
               "repo" "proj" "init" Sample.start))
  = [ "Uploading: a.txt..."; "Uploading: sub/b.txt...";
      (nl ++ "Upload complete!")%string; "Success: 0 files";
      "Failed: 2 files" ] /\
  cerr (snd (uploadDirectory Sample.lib MoreWorlds.unreadable Sample.api
               "repo" "proj" "init" Sample.start))
  = [ "Cannot open file: proj/a.txt"; "Cannot open file: proj/sub/b.txt" ].
Proof. vm_compute. repeat split. Qed.

(** X15 on a declined upload: the remote holds [a.txt] and wants its hash. *)
Lemma uploadFile_reports_outcome_witness :
  let h := put_handle Sample.lib Sample.api "repo" "a.txt" "update" hi in
  let response :=
    response_of existing h (history (after_open "a.txt" true Sample.start)) in
  ifstream_read existing "a.txt" = Some hi /\
  shaped Sample.lib response /\
  has_content Sample.lib response = false /\
  cout (snd (uploadFile Sample.lib existing Sample.api
               "repo" "a.txt" "update" Sample.start)) = [] /\
  cerr (snd (uploadFile Sample.lib existing Sample.api
               "repo" "a.txt" "update" Sample.start))
  = [("Failed to upload file: " ++ Sample.doc_rejected)%string].
Proof.
  split; [reflexivity|]. split; [reflexivity|]. split; [reflexivity|].
  exact (uploadFile_reports_outcome Sample.lib existing Sample.api
           "repo" "a.txt" "update" hi Sample.start eq_refl eq_refl).
Defined.

(** X16 on the same declined upload, made as part of a tree. *)
Lemma uploadFileWithPath_prints_nothing_witness :
  ifstream_read existing "a.txt" = Some hi /\
  fst (uploadFileWithPath Sample.lib existing Sample.api
         "repo" "a.txt" "a.txt" "update" Sample.start) = Returns false /\
  cout (snd (uploadFileWithPath Sample.lib existing Sample.api
               "repo" "a.txt" "a.txt" "update" Sample.start)) = [] /\
  cerr (snd (uploadFileWithPath Sample.lib existing Sample.api
               "repo" "a.txt" "a.txt" "update" Sample.start)) = [].
Proof.
  split; [reflexivity|]. split; [reflexivity|].
  exact (uploadFileWithPath_prints_nothing Sample.lib existing Sample.api
           "repo" "a.txt" "a.txt" "update" hi Sample.start eq_refl).
Defined.

(** X17 when no transfer reaches the remote. *)
Lemma deleteFile_unparsable_metadata_witness :
  let g := get_handle Sample.api (contents_url Sample.api "repo" "a.txt") in
  Json.parseFromStream Sample.lib
    (response_of MoreWorlds.offline g (history Sample.start))
  = Returns None /\
  fst (deleteFile Sample.lib MoreWorlds.offline Sample.api
         "repo" "a.txt" "remove" Sample.start)
  = Returns false /\
  history (snd (deleteFile Sample.lib MoreWorlds.offline Sample.api
                  "repo" "a.txt" "remove" Sample.start))
  = (history Sample.start ++
     [request_event MoreWorlds.offline g (history Sample.start)])%list /\
  cerr (snd (deleteFile Sample.lib MoreWorlds.offline Sample.api
               "repo" "a.txt" "remove" Sample.start))
  = (cerr (after_request MoreWorlds.offline g Sample.start)
     ++ ["Failed to get file info"])%list.
Proof.
  split; [reflexivity|].
  exact (deleteFile_unparsable_metadata Sample.lib MoreWorlds.offline Sample.api
           "repo" "a.txt" "remove" Sample.start eq_refl).
Defined.

(** X18 on the path of a directory. *)
Lemma deleteFile_aborts_on_listing_witness :
  let g := get_handle Sample.api (contents_url Sample.api "repo" "docs") in
  Json.parseFromStream Sample.lib
    (response_of MoreWorlds.directory_listing g (history Sample.start))
  = Returns (Some (Json.arrayValue [])) /\
  deleteFile Sample.lib MoreWorlds.directory_listing Sample.api
    "repo" "docs" "remove" Sample.start
  = (Aborts (LogicError
       "in Json::Value::resolveReference(key, end): requires objectValue"),
     after_request MoreWorlds.directory_listing g Sample.start) /\
  history (after_request MoreWorlds.directory_listing g Sample.start)
  = (history Sample.start ++
     [request_event MoreWorlds.directory_listing g (history Sample.start)])%list /\
  cout (after_request MoreWorlds.directory_listing g Sample.start)
  = cout Sample.start.
Proof.
  split; [reflexivity|].
  exact (deleteFile_aborts_on_listing Sample.lib MoreWorlds.directory_listing
           Sample.api "repo" "docs" "remove" Sample.start
           (Json.arrayValue []) eq_refl eq_refl).
Defined.

(** X19 when no transfer reaches the remote. *)
Lemma initialize_exits_on_unparsable_response_witness :
  let api := GitHubAPI_new "ghp_token" "octocat" in
  let h := get_handle api (baseURL api ++ "/user") in
  Json.parseFromStream Sample.lib
    (response_of MoreWorlds.offline h (history Sample.start))
  = Returns None /\
  fst (initialize Sample.lib MoreWorlds.offline "ghp_token" "octocat"
         Sample.start) = Aborts (Exit 1) /\
  cerr (snd (initialize Sample.lib MoreWorlds.offline "ghp_token" "octocat"
               Sample.start))
  = (cerr (after_request MoreWorlds.offline h Sample.start)
     ++ ["Authentication failed. Please check your token."])%list.
Proof.
  split; [reflexivity|].
  exact (initialize_exits_on_unparsable_response Sample.lib MoreWorlds.offline
           "ghp_token" "octocat" Sample.start eq_refl).
Defined.

(** The sample reader of flat objects gives back what its writer prints. *)
Lemma plain_char_not_quote (c : ascii) :
  plain_char c = true -> Ascii.eqb c (ascii_of_nat 34) = false.
Proof.
  unfold plain_char. destruct (Ascii.eqb c (ascii_of_nat 34)); [|reflexivity].
  rewrite andb_false_r. discriminate.
Qed.

Lemma read_plain_plain (t after : string) :
  plain t = true ->
  MoreWorlds.read_plain (t ++ Sample.dquote ++ after) = Some (t, after).
Proof.
  unfold plain. induction t as [|c t IH]; intros P.
  - reflexivity.
  - cbn [all_chars] in P. apply andb_prop in P. destruct P as [Pc P].
    cbn [String.append MoreWorlds.read_plain].
    rewrite (plain_char_not_quote c Pc), (IH P). reflexivity.
Qed.

Lemma write_members_length (members : list (string * Json.Value)) :
  (List.length members <= String.length (MoreWorlds.write_members members))%nat.
Proof.
  induction members as [|m [|m' rest] IH].
  - cbn. lia.
  - cbn. lia.
  - cbn [MoreWorlds.write_members List.length] in *.
    unfold MoreWorlds.write_member at 1. rewrite !length_append.
    assert (T : forall tail : string,
              (String.length ("," ++ tail) <=
               String.length
                 match snd m with
                 | Json.stringValue s =>
                     Sample.dquote ++ s ++ Sample.dquote ++ "," ++ tail
                 | _ => "null" ++ "," ++ tail
                 end)%nat).
    { intros tail. destruct (snd m); rewrite ?length_append; lia. }
    specialize (T (MoreWorlds.write_members (m' :: rest))).
    rewrite length_append in T. cbn [String.length] in T.
    cbn [MoreWorlds.write_members] in T.
    change (String.length Sample.dquote) with 1%nat.
    change (String.length ":") with 1%nat. lia.
Qed.

Lemma read_members_write_members (members : list (string * Json.Value)) :
  forall fuel,
  members <> [] ->
  forallb plain_member members = true ->
  (List.length members <= fuel)%nat ->
  MoreWorlds.read_members fuel (MoreWorlds.write_members members)
  = Some members.
Proof.
  induction members as [|[key v] rest IH]; intros fuel N P F;
    [contradiction|].
  destruct fuel as [|fuel]; [cbn in F; lia|].
  cbn [forallb] in P. apply andb_prop in P. destruct P as [Pm P].
  unfold plain_member in Pm. cbn [fst snd] in Pm.
  apply andb_prop in Pm. destruct Pm as [Pk Pv].
  destruct v as [| | | |value| | |]; try discriminate Pv.
  assert (R : forall tail,
            MoreWorlds.write_member (key, Json.stringValue value) tail
            = String (ascii_of_nat 34)
                (key ++ Sample.dquote ++
                 String ":" (String (ascii_of_nat 34)
                   (value ++ Sample.dquote ++ tail)))).
  { intros tail. reflexivity. }
  destruct rest as [|m' rest'].
  - cbn [MoreWorlds.write_members]. rewrite R.
    cbn [MoreWorlds.read_members]. cbn [Ascii.eqb Bool.eqb].
    rewrite (read_plain_plain key _ Pk). cbn [Ascii.eqb Bool.eqb andb].
    rewrite (read_plain_plain value _ Pv). reflexivity.
  - change (MoreWorlds.write_members
              ((key, Json.stringValue value) :: m' :: rest'))
      with (MoreWorlds.write_member (key, Json.stringValue value)
              ("," ++ MoreWorlds.write_members (m' :: rest'))).
    rewrite R.
    cbn [MoreWorlds.read_members]. cbn [Ascii.eqb Bool.eqb].
    rewrite (read_plain_plain key _ Pk). cbn [Ascii.eqb Bool.eqb andb].
    rewrite (read_plain_plain value _ Pv).
    change ("," ++ MoreWorlds.write_members (m' :: rest'))
      with (String "," (MoreWorlds.write_members (m' :: rest'))).
    cbn [Ascii.eqb Bool.eqb].
    rewrite (IH fuel); [reflexivity | discriminate | exact P |].
    cbn [List.length] in F |- *. lia.
Qed.

Lemma flat_lib_reads_back : reads_back MoreWorlds.flat_lib.
Proof.
  intros members P _. cbn [Json.parseFromStream Json.writeString
                           MoreWorlds.flat_lib].
  destruct members as [|m rest]; [reflexivity|].
  cbn [String.append MoreWorlds.read_object]. cbn [Ascii.eqb Bool.eqb].
  assert (Q : String.eqb (MoreWorlds.write_members (m :: rest)) "}" = false).
  { destruct rest; cbn [MoreWorlds.write_members];
      unfold MoreWorlds.write_member, Sample.dquote; reflexivity. }
  rewrite Q.
  rewrite (read_members_write_members (m :: rest) _ ltac:(discriminate) P
             (write_members_length (m :: rest))).
  reflexivity.
Qed.

(** X21 across two sessions. *)
Lemma config_round_trip_witness :
  reads_back MoreWorlds.flat_lib /\
  (plain "ghp_token" = true /\ plain "octocat" = true) /\
  fst (saveConfig MoreWorlds.flat_lib true "ghp_token" "octocat" Sample.start)
  = Returns (Some MoreWorlds.doc_config) /\
  ifstream_read MoreWorlds.configured configFile
  = Some (list_byte_of_string MoreWorlds.doc_config) /\
  fst (loadConfig MoreWorlds.flat_lib MoreWorlds.configured
         EmptyString EmptyString Sample.start)
  = Returns (true, ("ghp_token", "octocat")).
Proof.
  split; [exact flat_lib_reads_back|]. split; [split; reflexivity|].
  split; [reflexivity|]. split; [reflexivity|].
  exact (config_round_trip MoreWorlds.flat_lib MoreWorlds.configured
           "ghp_token" "octocat" EmptyString EmptyString
           Sample.start Sample.start MoreWorlds.doc_config
           flat_lib_reads_back eq_refl eq_refl eq_refl eq_refl).
Defined.

(** A saved configuration, evaluated. *)
Example saveConfig_text :
  MoreWorlds.doc_config
  = "{" ++ Sample.quoted "token" ++ ":" ++ Sample.quoted "ghp_token" ++ ","
        ++ Sample.quoted "username" ++ ":" ++ Sample.quoted "octocat" ++ "}".
Proof. reflexivity. Qed.

(** X22 without a configuration file. *)
Lemma loadConfig_fails_unchanged_witness :
  ifstream_read MoreWorlds.offline configFile = None /\
  fst (loadConfig Sample.lib MoreWorlds.offline "before" "nobody" Sample.start)
  = Returns (false, ("before", "nobody")) /\
  cout (snd (loadConfig Sample.lib MoreWorlds.offline "before" "nobody"
               Sample.start)) = cout Sample.start /\
  cerr (snd (loadConfig Sample.lib MoreWorlds.offline "before" "nobody"
               Sample.start)) = cerr Sample.start.
Proof.
  split; [reflexivity|].
  exact (loadConfig_fails_unchanged Sample.lib MoreWorlds.offline
           "before" "nobody" Sample.start I).
Defined.


(** X24 on a file that holds an array. *)
Lemma loadConfig_aborts_on_non_object_witness :
  ifstream_read MoreWorlds.array_config configFile
  = Some (list_byte_of_string Sample.doc_array) /\
  Json.parseFromStream Sample.lib
    (string_of_list_byte (list_byte_of_string Sample.doc_array))
  = Returns (Some (Json.arrayValue [])) /\
  fst (loadConfig Sample.lib MoreWorlds.array_config "before" "nobody"
         Sample.start)
  = Aborts (LogicError
      "in Json::Value::resolveReference(key, end): requires objectValue").
Proof.
  split; [reflexivity|]. split; [reflexivity|].
  exact (loadConfig_aborts_on_non_object Sample.lib MoreWorlds.array_config
           "before" "nobody" Sample.start
           (list_byte_of_string Sample.doc_array) (Json.arrayValue [])
           eq_refl eq_refl eq_refl).
Defined.

(** X26 on a remote that answers the creation with an array. *)
Lemma createRepository_aborts_on_non_object_witness :
  let h := post_handle Sample.lib Sample.api "demo" "A demo" false in
  Json.parseFromStream Sample.lib
    (response_of MoreWorlds.answering_array h (history Sample.start))
  = Returns (Some (Json.arrayValue [])) /\
  createRepository Sample.lib MoreWorlds.answering_array Sample.api
    "demo" "A demo" false Sample.start
  = (Aborts (LogicError
       "in Json::Value::find(begin, end): requires objectValue or nullValue"),
     after_request MoreWorlds.answering_array h Sample.start) /\
  cout (after_request MoreWorlds.answering_array h Sample.start)
  = cout Sample.start.
Proof.
  split; [reflexivity|].
  exact (createRepository_aborts_on_non_object Sample.lib
           MoreWorlds.answering_array Sample.api "demo" "A demo" false
           Sample.start (Json.arrayValue []) eq_refl eq_refl).
Defined.

(** X27 on a remote that answers the probe with a profile. *)
Lemma initialize_signs_in_witness :
  let api := GitHubAPI_new "ghp_token" "octocat" in
  let h := get_handle api (baseURL api ++ "/user") in
  Json.parseFromStream MoreWorlds.lib
    (response_of MoreWorlds.signed_in h (history Sample.start))
  = Returns (Some (Json.objectValue MoreWorlds.profile)) /\
  initialize MoreWorlds.lib MoreWorlds.signed_in "ghp_token" "octocat"
    Sample.start
  = (Returns {| token := "ghp_token"; username := "octocat";
                baseURL := "https://api.github.com" |},
     {| history := history (after_request MoreWorlds.signed_in h Sample.start);
        cout := [ (nl ++ "User Information:")%string;
                  "Username: octocat"; "Name: The Octocat"; "Email: ";
                  "Public Repos: 8"; "Followers: 20"; "Following: 0";
                  (nl ++ "Authentication successful!")%string ];
        cerr := cerr (after_request MoreWorlds.signed_in h Sample.start) |}).
Proof.
  split; [reflexivity|].
  exact (initialize_signs_in MoreWorlds.lib MoreWorlds.signed_in
           "ghp_token" "octocat" Sample.start MoreWorlds.profile
           "octocat" "The Octocat" EmptyString 8 20 0
           eq_refl eq_refl eq_refl eq_refl eq_refl eq_refl eq_refl).
Defined.

(** X28 when no transfer reaches the remote. *)
Lemma makeRequest_transfer_error_witness :
  let url := "https://api.github.com/user" in
  let h := easy_handle Sample.api url "GET" EmptyString in
  curl_easy_init MoreWorlds.offline (history Sample.start) = true /\
  fst (curl_easy_perform MoreWorlds.offline (history Sample.start) h) = 7 /\
  makeRequest MoreWorlds.offline Sample.api url "GET" EmptyString Sample.start
  = (Returns EmptyString,
     {| history := [performed h 7 EmptyString];
        cout := [];
        cerr := ["cURL error: Couldn't connect to server"] |}).
Proof.
  split; [reflexivity|]. split; [reflexivity|].
  apply (makeRequest_transfer_error MoreWorlds.offline Sample.api
           "https://api.github.com/user" "GET" EmptyString Sample.start);
    [reflexivity | discriminate].
Defined.

(** X29 where no handle can be obtained. *)
Lemma makeRequest_without_handle_witness :
  curl_easy_init MoreWorlds.no_handle (history Sample.start) = false /\
  makeRequest MoreWorlds.no_handle Sample.api "https://api.github.com/user"
    "GET" EmptyString Sample.start
  = (Returns EmptyString,
     {| history := [init_failed]; cout := []; cerr := [] |}) /\
  transfers (history Sample.start ++ [init_failed])
  = transfers (history Sample.start).
Proof.
  split; [reflexivity|].
  exact (makeRequest_without_handle MoreWorlds.no_handle Sample.api
           "https://api.github.com/user" "GET" EmptyString Sample.start
           eq_refl).
Defined.

(** The same world, evaluated: an upload that could not even be sent is
    reported like one the remote declined, with an empty response. *)
Example uploadFile_without_handle :
  fst (uploadFile Sample.lib MoreWorlds.no_handle Sample.api
         "repo" "a.txt" "add" Sample.start) = Returns false /\
  history (snd (uploadFile Sample.lib MoreWorlds.no_handle Sample.api
                  "repo" "a.txt" "add" Sample.start))
  = [opened "a.txt" true; init_failed] /\
  cerr (snd (uploadFile Sample.lib MoreWorlds.no_handle Sample.api
               "repo" "a.txt" "add" Sample.start))
  = ["Failed to upload file: "].
Proof. vm_compute. repeat split. Qed.
